(** * microfab: peer lifecycle, configuration synthesis and MSP material

    A shallow embedding of

    - [internal/pkg/msp]   : the MSP value ([msp.New] and its accessors),
    - [internal/pkg/util]  : [CreateMSPDirectory],
    - [internal/pkg/peer]  : [Peer.Port], [Peer.createDirectories],
      [Peer.createConfig], [Peer.hasStarted], [Peer.Start], [Peer.Stop].

    Go code that mutates the file system, the process table or the receiver
    is written as explicit state passing over a [World] and a [Peer] value.
    Calls into the Go runtime and third-party packages ([os], [os/exec],
    [net/url], [strconv], [yaml.v2]) are modelled after their documented
    behaviour; what the environment decides (probe answers, the order in
    which the [select] statement sees its channels, the YAML codec) is an
    explicit parameter. *)

From Stdlib Require Import ZArith String Ascii List Lia DecimalString.
From stdpp Require Import base option list gmap strings.

Local Open Scope string_scope.
Local Open Scope list_scope.

(** ** Errors

    The Go code builds errors with [errors.New] / [fmt.Errorf] (a message),
    wraps them with [errors.WithMessage] (cause plus message), or passes on
    an error returned by the operating system or a library. *)

Inductive syserr :=
| ENOENT            (* no such file or directory *)
| ENOTDIR           (* a path component is not a directory *)
| EISDIR            (* the target is a directory *)
| ErrProcessDone    (* os: process already finished *)
| ErrExec           (* exec: the binary could not be started *)
| ErrPipe           (* the stdout pipe could not be created *)
| ErrSyntax         (* strconv: invalid syntax *)
| ErrRange          (* strconv: value out of range *)
| ErrYAML           (* yaml: the document could not be decoded or encoded *)
| ErrHome           (* the home directory could not be determined *)
| ExitError (status : Z).  (* exec.ExitError: the child ended abnormally *)

Inductive error :=
| ErrNew (msg : string)
| ErrWithMessage (cause : error) (msg : string)
| ErrSys (e : syserr).

(** A Go result [(T, error)]. *)
Definition result (A : Type) : Type := (error + A)%type.
Definition Ok {A} (a : A) : result A := inr a.
Definition Err {A} (e : error) : result A := inl e.

(** ** Package msp *)

Module msp.

(** [certificate.Certificate] belongs to a package that is not part of these sources; the
    MSP only stores references to certificates, so a certificate is the
    byte string it wraps. *)
Definition Certificate := list Byte.byte.

Record MSP := mkMSP {
  mspID : string;
  rootCertificates : list Certificate;
  adminCertificates : list Certificate
}.

(** [New(mspID, rootCertificates, adminCertificates)] returns a pointer
    to a fresh [MSP] holding its three arguments, and a nil error; there
    is no other path through the function. *)
Definition New (id : string) (roots admins : list Certificate) : result MSP :=
  Ok (mkMSP id roots admins).

Definition ID (m : MSP) : string := mspID m.
Definition RootCertificates (m : MSP) : list Certificate := rootCertificates m.
Definition AdminCertificates (m : MSP) : list Certificate := adminCertificates m.

End msp.

(** ** Strings as Go sees them: byte sequences *)

Definition is_digit (a : ascii) : bool :=
  (48 <=? nat_of_ascii a)%nat && (nat_of_ascii a <=? 57)%nat.

Fixpoint all_digits (s : string) : bool :=
  match s with
  | EmptyString => true
  | String a s' => is_digit a && all_digits s'
  end.

Fixpoint string_drop (n : nat) (s : string) : string :=
  match n, s with
  | O, _ => s
  | S n', String _ s' => string_drop n' s'
  | S _, EmptyString => EmptyString
  end.

Fixpoint string_take (n : nat) (s : string) : string :=
  match n, s with
  | S n', String a s' => String a (string_take n' s')
  | _, _ => EmptyString
  end.

(** [strings.LastIndexByte]; [None] stands for Go's [-1]. *)
Fixpoint LastIndexByte (s : string) (c : ascii) : option nat :=
  match s with
  | EmptyString => None
  | String a s' =>
      match LastIndexByte s' c with
      | Some i => Some (S i)
      | None => if Ascii.eqb a c then Some O else None
      end
  end.

Definition HasPrefix1 (s : string) (c : ascii) : bool :=
  match s with String a _ => Ascii.eqb a c | EmptyString => false end.

Fixpoint HasSuffix1 (s : string) (c : ascii) : bool :=
  match s with
  | EmptyString => false
  | String a EmptyString => Ascii.eqb a c
  | String _ s' => HasSuffix1 s' c
  end.

(** ** net/url: the part of [URL] the peer reads *)

Module url.

Record URL := mkURL { Scheme : string; Host : string }.

(** [validOptionalPort]: empty, or a colon followed by digits only. *)
Definition validOptionalPort (port : string) : bool :=
  match port with
  | EmptyString => true
  | String a rest => Ascii.eqb a ":" && all_digits rest
  end.

(** [splitHostPort]: cut at the last colon when what follows is a valid
    optional port, then strip the brackets of an IPv6 literal. *)
Definition splitHostPort (hostPort : string) : string * string :=
  let '(host, port) :=
    match LastIndexByte hostPort ":" with
    | Some colon =>
        if validOptionalPort (string_drop colon hostPort)
        then (string_take colon hostPort, string_drop (S colon) hostPort)
        else (hostPort, "")
    | None => (hostPort, "")
    end in
  if HasPrefix1 host "[" && HasSuffix1 host "]"
  then (string_take (String.length host - 2) (string_drop 1 host), port)
  else (host, port).

Definition Hostname (u : URL) : string := fst (splitHostPort (Host u)).
Definition Port (u : URL) : string := snd (splitHostPort (Host u)).

End url.

(** ** strconv.Atoi and the conversions to fixed-width integers *)

Module strconv.

Definition digit_val (a : ascii) : Z := Z.of_nat (nat_of_ascii a) - 48.

(** Value of a digit string, most significant digit first; [None] as soon
    as a byte is not a decimal digit. *)
Fixpoint digits_from (acc : Z) (s : string) : option Z :=
  match s with
  | EmptyString => Some acc
  | String a s' =>
      if is_digit a then digits_from (acc * 10 + digit_val a) s' else None
  end.

Definition max_int64 : Z := 2 ^ 63 - 1.
Definition min_int64 : Z := - 2 ^ 63.

(** [Atoi] on a 64-bit platform: an optional sign, then at least one
    digit.  A syntax error gives [0]; a value that does not fit [int]
    gives the nearest bound together with a range error. *)
Definition Atoi (s : string) : Z * option error :=
  let '(neg, body) :=
    match s with
    | String a rest =>
        if Ascii.eqb a "-" then (true, rest)
        else if Ascii.eqb a "+" then (false, rest)
        else (false, s)
    | EmptyString => (false, s)
    end in
  match body with
  | EmptyString => (0, Some (ErrSys ErrSyntax))
  | _ =>
      match digits_from 0 body with
      | None => (0, Some (ErrSys ErrSyntax))
      | Some n =>
          let v := if neg then - n else n in
          if v >? max_int64 then (max_int64, Some (ErrSys ErrRange))
          else if v <? min_int64 then (min_int64, Some (ErrSys ErrRange))
          else (v, None)
      end
  end%Z.

End strconv.

(** The Go conversion [int32(x)] of a wider integer: keep the low 32 bits,
    read as two's complement. *)
Definition int32 (x : Z) : Z := ((x + 2 ^ 31) mod 2 ^ 32 - 2 ^ 31)%Z.

(** [strings.ToLower], on the ASCII range. *)
Definition lower_byte (a : ascii) : ascii :=
  let n := nat_of_ascii a in
  if (65 <=? n)%nat && (n <=? 90)%nat then ascii_of_nat (n + 32) else a.

Fixpoint ToLower (s : string) : string :=
  match s with
  | EmptyString => EmptyString
  | String a s' => String (lower_byte a) (ToLower s')
  end.

(** [fmt.Sprintf] with the verb [%d]. *)
Definition fmt_d (z : Z) : string := NilZero.string_of_int (Z.to_int z).

(** ** Paths

    Package [path] works on slash-separated strings and returns them in
    cleaned form.  Paths are kept here as the list of their components,
    counted from one fixed origin; [path.Join] of a cleaned path with plain
    names appends the names. *)

Abbreviation Path := (list string).

Definition path_Join (p : Path) (elems : list string) : Path := p ++ elems.

Fixpoint split_on (c : ascii) (cur : string) (s : string) : list string :=
  match s with
  | EmptyString => [cur]
  | String a s' =>
      if Ascii.eqb a c then cur :: split_on c "" s'
      else split_on c (cur +:+ String a "") s'
  end.

(** One step of [path.Clean]: empty and dot components vanish, a double dot
    removes the component before it. *)
Definition clean_step (acc : Path) (comp : string) : Path :=
  if String.eqb comp "" || String.eqb comp "." then acc
  else if String.eqb comp ".." then removelast acc
  else acc ++ [comp].

Definition path_of_string (s : string) : Path :=
  fold_left clean_step (split_on "/" "" s) [].

Definition path_to_string (p : Path) : string :=
  "/" +:+ String.concat "/" p.

(** ** The file system *)

Abbreviation bytes := (list Byte.byte).

Inductive node :=
| Dir
| File (data : bytes).

Abbreviation FS := (gmap (list string) node).

(** The origin is a directory; any other path is one when the map says so. *)
Definition is_dir (f : FS) (p : Path) : bool :=
  match p with
  | [] => true
  | _ => match f !! p with Some Dir => true | _ => false end
  end.

(** [os.MkdirAll]: walk down from the origin; an existing directory is
    kept, a missing one is created, a regular file in the way stops the walk
    with ENOTDIR (what was created above it stays). *)
Fixpoint mkdir_from (above : Path) (todo : list string) (f : FS)
  : option error * FS :=
  match todo with
  | [] => (None, f)
  | c :: todo' =>
      let d := above ++ [c] in
      match f !! d with
      | Some Dir => mkdir_from d todo' f
      | Some (File _) => (Some (ErrSys ENOTDIR), f)
      | None => mkdir_from d todo' (<[d := Dir]> f)
      end
  end.

Definition fs_MkdirAll (p : Path) (f : FS) : option error * FS :=
  mkdir_from [] p f.

(** [ioutil.WriteFile]: open with O_WRONLY|O_CREATE|O_TRUNC and write.  The
    parent has to be a directory and the target must not be one. *)
Definition fs_WriteFile (p : Path) (data : bytes) (f : FS) : option error * FS :=
  match p with
  | [] => (Some (ErrSys EISDIR), f)
  | _ =>
      if is_dir f (removelast p) then
        match f !! p with
        | Some Dir => (Some (ErrSys EISDIR), f)
        | _ => (None, <[p := File data]> f)
        end
      else
        match f !! removelast p with
        | Some (File _) => (Some (ErrSys ENOTDIR), f)
        | _ => (Some (ErrSys ENOENT), f)
        end
  end.

(** [ioutil.ReadFile]. *)
Definition fs_ReadFile (p : Path) (f : FS) : result bytes :=
  match f !! p with
  | Some (File data) => Ok data
  | Some Dir => Err (ErrSys EISDIR)
  | None => if is_dir f p then Err (ErrSys EISDIR) else Err (ErrSys ENOENT)
  end.

(** ** The world: files, environment variables, processes *)

(** A child process.  [alive] is the kernel's view; [pdone] is the flag
    [os.Process] sets once [Wait] has returned, after which [Signal] and
    [Kill] refuse with [ErrProcessDone]. *)
Record Proc := mkProc {
  proc_name : string;
  proc_args : list string;
  proc_env : gmap string string;
  alive : bool;
  pdone : bool
}.

(** What a call did to the world, in the order it happened. *)
Inductive effect :=
| EMkdirAll (p : Path)
| EWriteFile (p : Path) (data : bytes)
| EOpenFile (p : Path)
| ESpawn (pid : nat)
| EKill (pid : nat).

Record World := mkWorld {
  fs : FS;
  env : gmap string string;
  procs : list Proc;
  trace : list effect
}.

Definition with_fs (w : World) (f : FS) (e : effect) : World :=
  mkWorld f (env w) (procs w) (trace w ++ [e]).

Definition set_fs (w : World) (f : FS) : World :=
  mkWorld f (env w) (procs w) (trace w).

Definition os_MkdirAll (p : Path) (w : World) : option error * World :=
  match fs_MkdirAll p (fs w) with
  | (Some e, f) => (Some e, set_fs w f)
  | (None, f) => (None, with_fs w f (EMkdirAll p))
  end.

Definition ioutil_WriteFile (p : Path) (data : bytes) (w : World)
  : option error * World :=
  match fs_WriteFile p data (fs w) with
  | (Some e, f) => (Some e, set_fs w f)
  | (None, f) => (None, with_fs w f (EWriteFile p data))
  end.

(** [os.OpenFile(name, O_CREATE|O_TRUNC|O_WRONLY, 0644)]: the file exists
    and is empty afterwards. *)
Definition os_OpenFile_trunc (p : Path) (w : World) : option error * World :=
  match fs_WriteFile p [] (fs w) with
  | (Some e, f) => (Some e, set_fs w f)
  | (None, f) => (None, with_fs w f (EOpenFile p))
  end.

(** [for _, dir := range directories { err := os.MkdirAll(dir, 0755); if
    err != nil { return err } }] *)
Fixpoint mkdir_each (dirs : list Path) (w : World) : option error * World :=
  match dirs with
  | [] => (None, w)
  | d :: rest =>
      match os_MkdirAll d w with
      | (Some e, w') => (Some e, w')
      | (None, w') => mkdir_each rest w'
      end
  end.

(** [Process.Kill]: refused once the process has been waited for (or is
    unknown to the kernel); otherwise SIGKILL is delivered and the process
    stops running. *)
Definition Process_Kill (pid : nat) (w : World) : option error * World :=
  match procs w !! pid with
  | Some pr =>
      if pdone pr then (Some (ErrSys ErrProcessDone), w)
      else
        let pr' := mkProc (proc_name pr) (proc_args pr) (proc_env pr) false (pdone pr) in
        (None, mkWorld (fs w) (env w) (<[pid := pr']> (procs w)) (trace w ++ [EKill pid]))
  | None => (Some (ErrSys ErrProcessDone), w)
  end.

(** The process ends by itself and [cmd.Wait] returns. *)
Definition reap (pid : nat) (w : World) : World :=
  match procs w !! pid with
  | Some pr =>
      let pr' := mkProc (proc_name pr) (proc_args pr) (proc_env pr) false true in
      mkWorld (fs w) (env w) (<[pid := pr']> (procs w)) (trace w)
  | None => w
  end.

(** [exec.Cmd.Start] succeeded: a new entry in the process table. *)
Definition spawn (name : string) (args : list string) (e : gmap string string)
  (w : World) : nat * World :=
  let pid := length (procs w) in
  (pid, mkWorld (fs w) (env w) (procs w ++ [mkProc name args e true false])
                (trace w ++ [ESpawn pid])).

(** ** YAML documents as yaml.v2 decodes them

    [yaml.Unmarshal] into a [map[interface{}]interface{}] gives nested maps
    with keys of any scalar type, sequences and scalars.  The Go slices
    [[]string] and [[]map[interface{}]interface{}] that [createConfig]
    stores are sequences of the document as well. *)

Inductive ykey :=
| KStr (s : string)
| KInt (z : Z)
| KBool (b : bool).

#[global] Instance ykey_eq_dec : EqDecision ykey.
Proof. solve_decision. Defined.

#[global] Instance ykey_countable : Countable ykey.
Proof.
  refine (inj_countable'
    (fun k => match k with
              | KStr s => inl s
              | KInt z => inr (inl z)
              | KBool b => inr (inr b)
              end)
    (fun x => match x with
              | inl s => KStr s
              | inr (inl z) => KInt z
              | inr (inr b) => KBool b
              end) _).
  by intros [].
Defined.

#[local] Unset Elimination Schemes.
Inductive yaml :=
| YNull
| YBool (b : bool)
| YInt (z : Z)
| YStr (s : string)
| YSeq (l : list yaml)
| YMap (m : gmap ykey yaml).
#[local] Set Elimination Schemes.

Abbreviation ymap := (gmap ykey yaml).

(** [v, ok := m[k].(map[interface{}]interface{})]: [ok] is false when the
    key is absent and when the value is not a map. *)
Definition as_map (m : ymap) (k : string) : option ymap :=
  match m !! KStr k with
  | Some (YMap sub) => Some sub
  | _ => None
  end.

(** [m[k] = v] with a string key. *)
Definition yset (k : string) (v : yaml) (m : ymap) : ymap := <[KStr k := v]> m.

(** ** Identities and organizations *)

(** Modelled from the spec: package [identity] is not part of these
    sources.  An identity is a private key, its certificate, and the
    certificate of the identity that issued it, absent for a root; the
    accessors [PrivateKey().Bytes()], [Certificate().Bytes()] and [CA()]
    read these. *)
Record Identity := mkIdentity {
  id_name : string;
  id_privateKey : bytes;
  id_certificate : bytes;
  id_ca : option bytes
}.

(** Modelled from the spec: package [organization] is not part of
    these sources.  An organization has a name, a CA identity, an admin identity
    and an MSP. *)
Record Organization := mkOrganization {
  org_name : string;
  org_ca : Identity;
  org_admin : Identity;
  org_msp : msp.MSP
}.

(** ** Package util *)

Module util.

(** The constant [config] of util.go. *)
Definition config : string :=
  "NodeOUs:
  Enable: true
  ClientOUIdentifier:
    Certificate: cacerts/ca.pem
    OrganizationalUnitIdentifier: client
  AdminOUIdentifier:
    Certificate: cacerts/ca.pem
    OrganizationalUnitIdentifier: admin
  PeerOUIdentifier:
    Certificate: cacerts/ca.pem
    OrganizationalUnitIdentifier: peer
  OrdererOUIdentifier:
    Certificate: cacerts/ca.pem
    OrganizationalUnitIdentifier: orderer
".

Definition msp_directories (directory : Path) : list Path :=
  [ directory;
    path_Join directory ["admincerts"];
    path_Join directory ["cacerts"];
    path_Join directory ["keystore"];
    path_Join directory ["signcerts"] ].

(** [CreateMSPDirectory]: the five directories, then config.yaml, the
    key, the certificate and, when the identity has a CA, the CA
    certificate; the first error is returned. *)
Definition CreateMSPDirectory (directory : Path) (identity : Identity) (w : World)
  : option error * World :=
  match mkdir_each (msp_directories directory) w with
  | (Some e, w) => (Some e, w)
  | (None, w) =>
  match ioutil_WriteFile (path_Join directory ["config.yaml"])
                         (list_byte_of_string config) w with
  | (Some e, w) => (Some e, w)
  | (None, w) =>
  let privateKey := id_privateKey identity in
  match ioutil_WriteFile (path_Join directory ["keystore"; "key.pem"]) privateKey w with
  | (Some e, w) => (Some e, w)
  | (None, w) =>
  let certificate := id_certificate identity in
  match ioutil_WriteFile (path_Join directory ["signcerts"; "cert.pem"]) certificate w with
  | (Some e, w) => (Some e, w)
  | (None, w) =>
  match id_ca identity with
  | Some ca =>
      match ioutil_WriteFile (path_Join directory ["cacerts"; "ca.pem"]) ca w with
      | (Some e, w) => (Some e, w)
      | (None, w) => (None, w)
      end
  | None => (None, w)
  end end end end end.

End util.

(** ** What the surroundings decide *)

(** The YAML codec of yaml.v2, and [util.GetHomeDirectory], which is not
    part of these sources. *)
Record Runtime := mkRuntime {
  yaml_Unmarshal : bytes -> result ymap;
  yaml_Marshal : ymap -> result bytes;
  GetHomeDirectory : result Path
}.

(** One round of [hasStarted]: the answer of GET /healthz (its status code,
    or no answer at all), whether [Connect] succeeded and whether
    [ListChannels] did. *)
Record probe := mkProbe {
  http_status : option Z;
  connect_ok : bool;
  list_channels_ok : bool
}.

(** What happens while [Start] sits in its [for { select { ... } }] loop,
    in the order in which it happens:
    - [EvTimeout]: the select takes the [<-timeout] case;
    - [EvExit r]: the child ends and [cmd.Wait()] returns [r] in the
      monitor goroutine;
    - [EvErrchan]: the select takes the [<-errchan] case;
    - [EvTick pr]: the select takes the [<-tick] case and the probe
      answers [pr]. *)
Inductive event :=
| EvTimeout
| EvExit (r : option error)
| EvErrchan
| EvTick (pr : probe).

(** What one call of [Start] meets: whether the stdout pipe and the child
    can be created, and the events of the wait. *)
Record Oracle := mkOracle {
  pipe_error : option error;
  exec_error : option error;
  schedule : list event
}.

(** [time.After(10 * time.Second)] and [time.Tick(250 * time.Millisecond)],
    in nanoseconds as [time.Duration] counts. *)
Definition Millisecond : Z := 1000000.
Definition Second : Z := 1000 * Millisecond.
Definition start_timeout : Z := 10 * Second.
Definition tick_period : Z := 250 * Millisecond.

(** The ticks that fire strictly before the timeout does. *)
Definition ticks_before_timeout : nat :=
  Z.to_nat ((start_timeout - 1) / tick_period).

(** The wait when the child keeps running: the ticks before the timeout,
    one probe answer each, then the timeout. *)
Definition quiet_schedule (answer : nat -> probe) : list event :=
  map (fun i => EvTick (answer i)) (seq 0 ticks_before_timeout) ++ [EvTimeout].

(** ** Package peer *)

Module peer.

Record Peer := mkPeer {
  organization : Organization;
  identity : Identity;
  mspID : string;
  directory : Path;
  apiPort : Z;
  apiURL : url.URL;
  chaincodePort : Z;
  chaincodeURL : url.URL;
  operationsPort : Z;
  operationsURL : url.URL;
  command : option nat   (* the started child, by its place in the process table *)
}.

(** [p.command = c] *)
Definition set_command (p : Peer) (c : option nat) : Peer :=
  mkPeer (organization p) (identity p) (mspID p) (directory p)
         (apiPort p) (apiURL p) (chaincodePort p) (chaincodeURL p)
         (operationsPort p) (operationsURL p) c.

Definition Host (p : Peer) : string := url.Host (apiURL p).
Definition Hostname (p : Peer) : string := url.Hostname (apiURL p).

(** [port, _ := strconv.Atoi(p.apiURL.Port()); return int32(port)] *)
Definition Port (p : Peer) : Z :=
  let '(port, _) := strconv.Atoi (url.Port (apiURL p)) in
  int32 port.

Definition peer_directories (p : Peer) : list Path :=
  [ directory p;
    path_Join (directory p) ["config"];
    path_Join (directory p) ["data"];
    path_Join (directory p) ["logs"];
    path_Join (directory p) ["msp"] ].

Definition createDirectories (p : Peer) (w : World) : option error * World :=
  mkdir_each (peer_directories p) w.

(** One element of [chaincode["externalBuilders"]]. *)
Definition builder (homeDirectory : Path) (dir name : string)
  (propagateEnvironment : list string) : yaml :=
  YMap (yset "path" (YStr (path_to_string (path_Join homeDirectory ["builders"; dir])))
       (yset "name" (YStr name)
       (yset "propagateEnvironment" (YSeq (YStr <$> propagateEnvironment)) ∅))).

Definition externalBuilders (homeDirectory : Path) : yaml :=
  YSeq [ builder homeDirectory "golang" "golang" ["GOCACHE"; "GOENV"; "GOROOT"; "HOME"];
         builder homeDirectory "java" "java" ["HOME"; "JAVA_HOME"; "MAVEN_OPTS"];
         builder homeDirectory "node" "node" ["HOME"; "npm_config_cache"];
         builder homeDirectory "external" "external-service-builder" ["HOME"] ].

(** The part of [createConfig] between [yaml.Unmarshal] and
    [yaml.Marshal].  Go maps are references: [peer] is the very map
    stored under [config["peer"]], and [gossip] the one under
    [peer["gossip"]], so each assignment is visible from [config]; here
    the updated sub-map is stored back as soon as its last field is set. *)
Definition patchConfig (rt : Runtime) (p : Peer) (dataDirectory mspDirectory : Path)
  (config : ymap) : result ymap :=
  match as_map config "peer" with
  | None => Err (ErrNew "core.yaml missing peer section")
  | Some peer =>
  let peer := yset "id" (YStr (ToLower (org_name (organization p)) +:+ "peer")) peer in
  let peer := yset "mspConfigPath" (YStr (path_to_string mspDirectory)) peer in
  let peer := yset "localMspId" (YStr (mspID p)) peer in
  let peer := yset "fileSystemPath" (YStr (path_to_string dataDirectory)) peer in
  let peer := yset "address" (YStr ("0.0.0.0:" +:+ fmt_d (apiPort p))) peer in
  let peer := yset "listenAddress" (YStr ("0.0.0.0:" +:+ fmt_d (apiPort p))) peer in
  let peer := yset "chaincodeListenAddress"
                   (YStr ("0.0.0.0:" +:+ fmt_d (chaincodePort p))) peer in
  match as_map peer "gossip" with
  | None => Err (ErrNew "core.yaml missing peer.gossip section")
  | Some gossip =>
  let gossip := yset "bootstrap" (YStr (url.Host (apiURL p))) gossip in
  let gossip := yset "useLeaderElection" (YBool false) gossip in
  let gossip := yset "orgLeader" (YBool true) gossip in
  let gossip := yset "endpoint" (YStr (url.Host (apiURL p))) gossip in
  let gossip := yset "externalEndpoint" (YStr (url.Host (apiURL p))) gossip in
  let peer := yset "gossip" (YMap gossip) peer in
  let config := yset "peer" (YMap peer) config in
  match as_map config "metrics" with
  | None => Err (ErrNew "core.yaml missing metrics section")
  | Some metrics =>
  let metrics := yset "provider" (YStr "prometheus") metrics in
  let config := yset "metrics" (YMap metrics) config in
  match as_map config "operations" with
  | None => Err (ErrNew "core.yaml missing operations section")
  | Some operations =>
  let operations := yset "listenAddress"
                         (YStr ("0.0.0.0:" +:+ fmt_d (operationsPort p))) operations in
  let config := yset "operations" (YMap operations) config in
  match as_map config "vm" with
  | None => Err (ErrNew "core.yaml missing vm section")
  | Some vm =>
  let vm := yset "endpoint" (YStr "") vm in
  let config := yset "vm" (YMap vm) config in
  match as_map config "chaincode" with
  | None => Err (ErrNew "core.yaml missing chaincode section")
  | Some chaincode =>
  match GetHomeDirectory rt with
  | inl err => Err err
  | inr homeDirectory =>
  let chaincode := yset "externalBuilders" (externalBuilders homeDirectory) chaincode in
  let config := yset "chaincode" (YMap chaincode) config in
  Ok config
  end end end end end end end.

(** The template document [createConfig] works from: the file core.yaml
    under $FABRIC_CFG_PATH, decoded. *)
Definition loadTemplate (rt : Runtime) (w : World) : result ymap :=
  match env w !! "FABRIC_CFG_PATH" with
  | None => Err (ErrNew "FABRIC_CFG_PATH not defined")
  | Some fabricConfigPath =>
      let configFile := path_Join (path_of_string fabricConfigPath) ["core.yaml"] in
      match fs_ReadFile configFile (fs w) with
      | inl err => Err err
      | inr configData => yaml_Unmarshal rt configData
      end
  end.

Definition createConfig (rt : Runtime) (p : Peer) (dataDirectory mspDirectory : Path)
  (w : World) : option error * World :=
  match loadTemplate rt w with
  | inl err => (Some err, w)
  | inr config =>
      match patchConfig rt p dataDirectory mspDirectory config with
      | inl err => (Some err, w)
      | inr config =>
          match yaml_Marshal rt config with
          | inl err => (Some err, w)
          | inr configData =>
              let configFile := path_Join (directory p) ["config"; "core.yaml"] in
              ioutil_WriteFile configFile configData w
          end
      end
  end.

(** [hasStarted]: the health endpoint answers 200, the admin connection
    opens and [ListChannels] succeeds. *)
Definition hasStarted (pr : probe) : bool :=
  match http_status pr with
  | None => false
  | Some code =>
      if negb (code =? 200)%Z then false
      else if negb (connect_ok pr) then false
      else if negb (list_channels_ok pr) then false
      else true
  end.

(** [Stop]: with a command at hand, kill its process; an error of the
    kill is returned at once, wrapped; otherwise the command is forgotten. *)
Definition Stop (p : Peer) (w : World) : option error * Peer * World :=
  match command p with
  | Some pid =>
      match Process_Kill pid w with
      | (Some err, w) => (Some (ErrWithMessage err "failed to stop peer"), p, w)
      | (None, w) => (None, set_command p None, w)
      end
  | None => (None, p, w)
  end.

(** The monitor goroutine of [Start]:
    [err = cmd.Wait(); if err != nil { errchan <- err }], with [errchan]
    a channel of capacity one, held as its only slot. *)
Definition monitor (r : option error) (errchan : option error) : option error :=
  match r with
  | Some err => match errchan with None => Some err | Some _ => errchan end
  | None => errchan
  end.

(** The loop [for { select { ... } }] of [Start], run against the events
    of the wait.  [None]: the events at hand leave the call waiting (or
    ask the select for a receive from the empty [errchan]). *)
Fixpoint wait (events : list event) (pid : nat) (errchan : option error)
  (p : Peer) (w : World) : option (option error * Peer * World) :=
  match events with
  | [] => None
  | EvExit r :: events' =>
      match procs w !! pid with
      | Some pr =>
          if pdone pr then wait events' pid errchan p w
          else wait events' pid (monitor r errchan) p (reap pid w)
      | None => wait events' pid errchan p w
      end
  | EvTimeout :: _ =>
      let '(_, p, w) := Stop p w in
      Some (Some (ErrNew "timeout whilst waiting for peer to start"), p, w)
  | EvErrchan :: _ =>
      match errchan with
      | Some err =>
          let '(_, p, w) := Stop p w in
          Some (Some (ErrWithMessage err "failed to start peer"), p, w)
      | None => None
      end
  | EvTick pr :: events' =>
      if hasStarted pr then Some (None, p, w)
      else wait events' pid errchan p w
  end.

(** The first part of [Start], up to and including [cmd.Start()]: the
    directories, the MSP directory, the configuration, the log file, the
    stdout pipe, the child.  It returns the started child, or the first
    error. *)
Definition launch (rt : Runtime) (o : Oracle) (p : Peer) (w : World)
  : result nat * World :=
  match createDirectories p w with
  | (Some err, w) => (Err err, w)
  | (None, w) =>
  let configDirectory := path_Join (directory p) ["config"] in
  let dataDirectory := path_Join (directory p) ["data"] in
  let logsDirectory := path_Join (directory p) ["logs"] in
  let mspDirectory := path_Join (directory p) ["msp"] in
  match util.CreateMSPDirectory mspDirectory (identity p) w with
  | (Some err, w) => (Err err, w)
  | (None, w) =>
  match createConfig rt p dataDirectory mspDirectory w with
  | (Some err, w) => (Err err, w)
  | (None, w) =>
  let cmd_env := <["FABRIC_CFG_PATH" := path_to_string configDirectory]> (env w) in
  match os_OpenFile_trunc (path_Join logsDirectory ["peer.log"]) w with
  | (Some err, w) => (Err err, w)
  | (None, w) =>
  match pipe_error o with
  | Some err => (Err err, w)
  | None =>
  match exec_error o with
  | Some err => (Err err, w)
  | None =>
  let '(pid, w) := spawn "peer" ["node"; "start"] cmd_env w in
  (Ok pid, w)
  end end end end end end.

(** [Start]: an error of the first part is returned as it is; otherwise
    the command is recorded and the call waits. *)
Definition Start (rt : Runtime) (o : Oracle) (p : Peer) (w : World)
  : option (option error * Peer * World) :=
  match launch rt o p w with
  | (inl err, w) => Some (Some err, p, w)
  | (inr pid, w) =>
      let p := set_command p (Some pid) in
      wait (schedule o) pid None p w
  end.

End peer.

(** ** Vocabulary of the statements *)

(** The sections [createConfig] asks for, in the order in which it asks. *)
Inductive required :=
| SPeer
| SGossip
| SMetrics
| SOperations
| SVm
| SChaincode.

Definition section_name (s : required) : string :=
  match s with
  | SPeer => "peer"
  | SGossip => "peer.gossip"
  | SMetrics => "metrics"
  | SOperations => "operations"
  | SVm => "vm"
  | SChaincode => "chaincode"
  end.

Definition section_rank (s : required) : nat :=
  match s with
  | SPeer => 0
  | SGossip => 1
  | SMetrics => 2
  | SOperations => 3
  | SVm => 4
  | SChaincode => 5
  end.

Definition is_some {A} (o : option A) : bool :=
  match o with Some _ => true | None => false end.

(** The template has the section: the key is there and holds a map. *)
Definition has_section (config : ymap) (s : required) : bool :=
  match s with
  | SPeer => is_some (as_map config "peer")
  | SGossip =>
      match as_map config "peer" with
      | Some peer => is_some (as_map peer "gossip")
      | None => false
      end
  | SMetrics => is_some (as_map config "metrics")
  | SOperations => is_some (as_map config "operations")
  | SVm => is_some (as_map config "vm")
  | SChaincode => is_some (as_map config "chaincode")
  end.

Definition missing_section_error (s : required) : error :=
  ErrNew ("core.yaml missing " +:+ section_name s +:+ " section").

(** Reading the builders back from a synthesized document. *)
Definition as_string (v : yaml) : option string :=
  match v with YStr s => Some s | _ => None end.

Definition as_strings (v : yaml) : option (list string) :=
  match v with YSeq l => mapM as_string l | _ => None end.

Definition builder_name (b : yaml) : option string :=
  match b with
  | YMap m => m !! KStr "name" ≫= as_string
  | _ => None
  end.

Definition builder_env (b : yaml) : option (list string) :=
  match b with
  | YMap m => m !! KStr "propagateEnvironment" ≫= as_strings
  | _ => None
  end.

Definition config_builders (config : ymap) : option (list yaml) :=
  match as_map config "chaincode" with
  | Some chaincode =>
      match chaincode !! KStr "externalBuilders" with
      | Some (YSeq l) => Some l
      | _ => None
      end
  | None => None
  end.

(** The content of an MSP directory, by path below the directory. *)
Definition msp_layout (identity : Identity) : FS :=
  let base : FS :=
    <[["admincerts"] := Dir]>
    (<[["cacerts"] := Dir]>
    (<[["keystore"] := Dir]>
    (<[["signcerts"] := Dir]>
    (<[["config.yaml"] := File (list_byte_of_string util.config)]>
    (<[["keystore"; "key.pem"] := File (id_privateKey identity)]>
    (<[["signcerts"; "cert.pem"] := File (id_certificate identity)]> ∅)))))) in
  match id_ca identity with
  | Some ca => <[["cacerts"; "ca.pem"] := File ca]> base
  | None => base
  end.

(** The files of an MSP directory with what they have to hold. *)
Definition msp_files (directory : Path) (identity : Identity) : list (Path * bytes) :=
  [ (directory ++ ["config.yaml"], list_byte_of_string util.config);
    (directory ++ ["keystore"; "key.pem"], id_privateKey identity);
    (directory ++ ["signcerts"; "cert.pem"], id_certificate identity) ]
  ++ match id_ca identity with
     | Some ca => [(directory ++ ["cacerts"; "ca.pem"], ca)]
     | None => []
     end.

(** A process of the node: started with the node's own configuration
    directory in FABRIC_CFG_PATH. *)
Definition belongs_to (p : peer.Peer) (pr : Proc) : Prop :=
  proc_env pr !! "FABRIC_CFG_PATH"
  = Some (path_to_string (path_Join (peer.directory p) ["config"])).

Definition is_spawn (e : effect) : bool :=
  match e with ESpawn _ => true | _ => false end.

Definition is_fs_effect (e : effect) : bool :=
  match e with
  | EMkdirAll _ | EWriteFile _ _ | EOpenFile _ => true
  | _ => false
  end.

(** [f'] is [f] with some missing paths turned into directories, all of
    them among [P]. *)
Definition grows_dirs (P : Path -> Prop) (f f' : FS) : Prop :=
  forall q, f' !! q = f !! q \/ (f !! q = None /\ f' !! q = Some Dir /\ P q).

(** The files written one after the other. *)
Definition write_all (files : list (Path * bytes)) (f : FS) : FS :=
  foldl (fun f pd => <[pd.1 := File pd.2]> f) f files.

(** The world changed through the file system only. *)
Definition fs_only (w w' : World) : Prop :=
  env w' = env w /\ procs w' = procs w
  /\ exists tr, trace w' = trace w ++ tr /\ Forall (fun e => is_fs_effect e = true) tr.

(** A non-empty prefix of one of the paths [dirs]. *)
Definition on_the_way (dirs : list Path) (q : Path) : Prop :=
  q <> [] /\ exists d, d ∈ dirs /\ q `prefix_of` d.

Definition msp_subdirectories (directory : Path) : list Path :=
  [ directory ++ ["admincerts"];
    directory ++ ["cacerts"];
    directory ++ ["keystore"];
    directory ++ ["signcerts"] ].

(** The MSP directory and the configuration document of the peer are
    complete: [pre] holds nothing but directory and file effects, among
    them the write of every MSP file and of core.yaml, the latter with the
    encoding of a patched template; and in [f] the MSP subdirectories
    exist and these files hold what was written. *)
Definition prepared (rt : Runtime) (p : peer.Peer) (pre : list effect) (f : FS) : Prop :=
  Forall (fun e => is_fs_effect e = true) pre
  /\ (forall d, d ∈ msp_subdirectories (peer.directory p ++ ["msp"]) -> f !! d = Some Dir)
  /\ (forall file b,
        (file, b) ∈ msp_files (peer.directory p ++ ["msp"]) (peer.identity p) ->
        EWriteFile file b ∈ pre /\ f !! file = Some (File b))
  /\ exists config config' data,
       peer.patchConfig rt p (peer.directory p ++ ["data"])
         (peer.directory p ++ ["msp"]) config = Ok config'
       /\ yaml_Marshal rt config' = Ok data
       /\ EWriteFile (peer.directory p ++ ["config"; "core.yaml"]) data ∈ pre
       /\ f !! (peer.directory p ++ ["config"; "core.yaml"]) = Some (File data).

(** The four file paths of an MSP directory. *)
Definition msp_file_paths (directory : Path) : list Path :=
  [ directory ++ ["config.yaml"];
    directory ++ ["keystore"; "key.pem"];
    directory ++ ["signcerts"; "cert.pem"];
    directory ++ ["cacerts"; "ca.pem"] ].

(** The files a start of the peer writes. *)
Definition peer_outputs (p : peer.Peer) : list Path :=
  msp_file_paths (peer.directory p ++ ["msp"])
  ++ [ peer.directory p ++ ["config"; "core.yaml"];
       peer.directory p ++ ["logs"; "peer.log"] ].

(** From [f] to [f'] nothing is removed, directories stay directories, and
    regular files outside [paths] keep their content. *)
Definition keeps_except (paths : list Path) (f f' : FS) : Prop :=
  (forall q, f !! q = Some Dir -> f' !! q = Some Dir)
  /\ (forall q data, f !! q = Some (File data) -> q ∉ paths ->
        f' !! q = Some (File data))
  /\ (forall q, is_Some (f !! q) -> is_Some (f' !! q)).

(** What the child can be during the wait: known to the process table,
    and not running once it has been waited for; a report in the channel
    means that it has been waited for. *)
Definition child_ok (pid : nat) (errchan : option error) (w : World) : Prop :=
  exists pr, procs w !! pid = Some pr
             /\ (pdone pr = true -> alive pr = false)
             /\ (is_Some errchan -> pdone pr = true).

(** The result is a value, not an error. *)
Definition is_ok {A} (x : result A) : bool :=
  match x with inr _ => true | inl _ => false end.

(** The call has returned, and what it returned passes the test. *)
Definition returned {A} (test : A -> bool) (x : option A) : bool :=
  match x with Some a => test a | None => false end.

(** ** Sample values *)

Module Sample.

Definition template : ymap :=
  yset "peer" (YMap (yset "gossip" (YMap ∅) ∅))
  (yset "metrics" (YMap ∅)
  (yset "operations" (YMap ∅)
  (yset "vm" (YMap ∅)
  (yset "chaincode" (YMap ∅) ∅)))).

(** The same document without its metrics section. *)
Definition template_no_metrics : ymap :=
  yset "peer" (YMap (yset "gossip" (YMap ∅) ∅))
  (yset "operations" (YMap ∅)
  (yset "vm" (YMap ∅)
  (yset "chaincode" (YMap ∅) ∅))).

(** A codec that knows two documents: the empty file decodes to
    [template], any other file to [template_no_metrics]. *)
Definition rt : Runtime :=
  mkRuntime
    (fun data => match data with [] => Ok template | _ => Ok template_no_metrics end)
    (fun _ => Ok [Byte.x23])
    (Ok ["home"; "microfab"]).

Definition ca : Identity :=
  mkIdentity "Org1 CA" [Byte.x01] [Byte.x02] None.
Definition admin : Identity :=
  mkIdentity "Org1 Admin" [Byte.x05] [Byte.x06] (Some [Byte.x02]).
Definition peer_identity : Identity :=
  mkIdentity "Org1 Peer" [Byte.x03] [Byte.x04] (Some [Byte.x02]).

Definition org : Organization :=
  mkOrganization "Org1" ca admin (msp.mkMSP "Org1MSP" [[Byte.x02]] [[Byte.x06]]).

Definition peer_at (api : string) (cmd : option nat) : peer.Peer :=
  peer.mkPeer org peer_identity "Org1MSP" ["srv"; "peer1"]
    7051 (url.mkURL "grpc" api)
    7052 (url.mkURL "grpc" "localhost:7052")
    9443 (url.mkURL "http" "localhost:9443")
    cmd.

Definition p0 : peer.Peer := peer_at "localhost:7051" None.

Definition fs0 : FS :=
  <[["etc"; "fabric"; "core.yaml"] := File []]>
  (<[["etc"; "fabric"] := Dir]>
  (<[["etc"] := Dir]> ∅)).

Definition w0 : World :=
  mkWorld fs0 (<["FABRIC_CFG_PATH" := "/etc/fabric"]> ∅) [] [].

(** The template on disk lacks its metrics section. *)
Definition w_no_metrics : World :=
  mkWorld (<[["etc"; "fabric"; "core.yaml"] := File [Byte.x2d]]> fs0)
          (<["FABRIC_CFG_PATH" := "/etc/fabric"]> ∅) [] [].

Definition no_answer : probe := mkProbe None false false.
Definition ready : probe := mkProbe (Some 200%Z) true true.

(** A child that has ended and has been waited for, and a peer that
    still holds it. *)
Definition finished : Proc := mkProc "peer" ["node"; "start"] ∅ false true.
Definition w_finished : World := mkWorld fs0 ∅ [finished] [].
Definition p_stale : peer.Peer := peer_at "localhost:7051" (Some 0).

(** A running child. *)
Definition running : Proc := mkProc "peer" ["node"; "start"] ∅ true false.
Definition w_running : World := mkWorld fs0 ∅ [running] [].

End Sample.

(** * Statements and proofs *)

(** ** The MSP value *)

(** C9 (as the code has it): [msp.New] validates nothing.  For every
    identifier, the empty one included, and any two certificate lists it
    returns an MSP and no error, and the accessors give back what was
    passed in, unchanged. *)
Theorem msp_New_total (id : string) (roots admins : list msp.Certificate) :
  exists m, msp.New id roots admins = Ok m
            /\ msp.ID m = id
            /\ msp.RootCertificates m = roots
            /\ msp.AdminCertificates m = admins.
Proof. eexists. repeat split. Qed.

(** C9 as the specification states it fails: the empty identifier is
    accepted. *)
Lemma msp_New_accepts_empty_id :
  msp.New "" [] [] = Ok (msp.mkMSP "" [] [])
  /\ ~ (forall m, msp.New "" [] [] <> Ok m).
Proof.
  split; [reflexivity |].
  intros H. exact (H _ eq_refl).
Qed.

(** ** Stop *)

Section StopFacts.

Import peer.

Lemma Stop_no_command p w : command p = None -> Stop p w = (None, p, w).
Proof. intros H. unfold Stop. by rewrite H. Qed.

(** The kill fails exactly when the process is unknown or has been waited
    for, and then nothing changes. *)
Lemma Process_Kill_fails pid w e w' :
  Process_Kill pid w = (Some e, w') ->
  e = ErrSys ErrProcessDone /\ w' = w
  /\ (forall pr, procs w !! pid = Some pr -> pdone pr = true).
Proof.
  unfold Process_Kill. destruct (procs w !! pid) as [pr|] eqn:Hpr.
  - destruct (pdone pr) eqn:Hd; [|discriminate].
    intros [= <- <-]. repeat split. by intros ? [= <-].
  - intros [= <- <-]. repeat split. discriminate.
Qed.

Lemma Process_Kill_succeeds pid w w' :
  Process_Kill pid w = (None, w') ->
  exists pr, procs w !! pid = Some pr /\ pdone pr = false
    /\ fs w' = fs w /\ env w' = env w
    /\ trace w' = trace w ++ [EKill pid]
    /\ procs w' = <[pid := mkProc (proc_name pr) (proc_args pr) (proc_env pr) false false]> (procs w).
Proof.
  unfold Process_Kill. destruct (procs w !! pid) as [pr|] eqn:Hpr; [|discriminate].
  destruct (pdone pr) eqn:Hd; [discriminate|].
  intros [= <-]. exists pr. by rewrite Hd.
Qed.

End StopFacts.

(** C8: [Stop] on a peer without a command returns no error and leaves the
    peer and the world as they are; and a [Stop] that follows a [Stop]
    changes nothing: it returns what the first returned, success after a
    success, and the peer and the world stay as the first call left them. *)
Theorem Stop_idempotent :
  (forall p w, peer.command p = None -> peer.Stop p w = (None, p, w))
  /\ (forall p w r1 p1 w1,
        peer.Stop p w = (r1, p1, w1) ->
        peer.Stop p1 w1 = (r1, p1, w1)
        /\ (r1 = None -> peer.command p1 = None)).
Proof.
  split; [apply Stop_no_command |].
  intros p w r1 p1 w1. unfold peer.Stop at 1.
  destruct (peer.command p) as [pid|] eqn:Hc.
  - destruct (Process_Kill pid w) as [[e|] w'] eqn:Hk.
    + intros [= <- <- <-].
      destruct (Process_Kill_fails _ _ _ _ Hk) as (-> & -> & _).
      split; [|discriminate].
      unfold peer.Stop. by rewrite Hc, Hk.
    + intros [= <- <- <-]. split; [|reflexivity].
      by apply Stop_no_command.
  - intros [= <- <- <-]. split; [|done]. by apply Stop_no_command.
Qed.

(** C8, witness: a peer that was never started, and a peer with a running
    child stopped twice. *)
Lemma Stop_idempotent_witness :
  peer.Stop Sample.p0 Sample.w0 = (None, Sample.p0, Sample.w0)
  /\ (let '(r1, p1, w1) := peer.Stop Sample.p_stale Sample.w_running in
      peer.Stop p1 w1 = (r1, p1, w1) /\ r1 = None).
Proof.
  split.
  - apply (proj1 Stop_idempotent). reflexivity.
  - destruct (peer.Stop Sample.p_stale Sample.w_running) as [[r1 p1] w1] eqn:H.
    split.
    + exact (proj1 (proj2 Stop_idempotent _ _ _ _ _ H)).
    + vm_compute in H. by injection H as <- _ _.
Defined.

(** C2 (as the code has it): for a peer that holds a command, when the
    kill fails (the process has been waited for already), [Stop] returns
    the failure wrapped as "failed to stop peer" and leaves the peer and
    the world untouched: the command stays, so the next [Stop] tries the
    same kill again.  The command is dropped when the kill succeeds. *)
Theorem Stop_failure_keeps_command (p : peer.Peer) (w : World) (pid : nat) :
  peer.command p = Some pid ->
  (forall e w', Process_Kill pid w = (Some e, w') ->
     peer.Stop p w = (Some (ErrWithMessage e "failed to stop peer"), p, w)
     /\ e = ErrSys ErrProcessDone)
  /\ (forall w', Process_Kill pid w = (None, w') ->
        peer.Stop p w = (None, peer.set_command p None, w')).
Proof.
  intros Hc. split.
  - intros e w' Hk.
    destruct (Process_Kill_fails _ _ _ _ Hk) as (-> & -> & _).
    split; [|done]. unfold peer.Stop. by rewrite Hc, Hk.
  - intros w' Hk. unfold peer.Stop. by rewrite Hc, Hk.
Qed.

(** C2, witness: a peer holding a child that has been waited for. *)
Lemma Stop_failure_keeps_command_witness :
  peer.Stop Sample.p_stale Sample.w_finished
  = (Some (ErrWithMessage (ErrSys ErrProcessDone) "failed to stop peer"),
     Sample.p_stale, Sample.w_finished).
Proof.
  apply (proj1 (Stop_failure_keeps_command Sample.p_stale Sample.w_finished 0 eq_refl)
               (ErrSys ErrProcessDone) Sample.w_finished).
  reflexivity.
Defined.

(** C2 as the specification states it fails: after a failed kill the
    command is still there. *)
Lemma Stop_failure_does_not_clear :
  peer.Stop Sample.p_stale Sample.w_finished
  = (Some (ErrWithMessage (ErrSys ErrProcessDone) "failed to stop peer"),
     Sample.p_stale, Sample.w_finished)
  /\ peer.command Sample.p_stale = Some 0
  /\ ~ (forall p w pid e w1,
          peer.command p = Some pid -> Process_Kill pid w = (Some e, w1) ->
          exists err p' w', peer.Stop p w = (Some err, p', w')
                            /\ peer.command p' = None).
Proof.
  split; [reflexivity |]. split; [reflexivity |].
  intros H.
  destruct (H Sample.p_stale Sample.w_finished 0 _ _ eq_refl eq_refl)
    as (err & p' & w' & HS & Hc).
  vm_compute in HS. injection HS as _ <- _. discriminate Hc.
Qed.

(** ** Port *)

Section PortFacts.

Lemma string_drop_app (h s : string) : string_drop (String.length h) (h +:+ s) = s.
Proof. induction h as [|a h IH]; simpl; [by destruct s | exact IH]. Qed.

Lemma LastIndexByte_app_None (h t : string) (c : ascii) :
  LastIndexByte t c = None ->
  LastIndexByte (h +:+ String c t) c = Some (String.length h).
Proof.
  intros Ht. induction h as [|a h IH]; simpl.
  - by rewrite Ht, Ascii.eqb_refl.
  - by rewrite IH.
Qed.

Lemma is_digit_not_colon a : is_digit a = true -> Ascii.eqb a ":" = false.
Proof.
  destruct a as [[] [] [] [] [] [] [] []]; vm_compute; congruence.
Qed.

Lemma is_digit_not_sign a :
  is_digit a = true -> Ascii.eqb a "-" = false /\ Ascii.eqb a "+" = false.
Proof.
  destruct a as [[] [] [] [] [] [] [] []]; vm_compute; (split; congruence).
Qed.

Lemma is_digit_val a : is_digit a = true -> (0 <= strconv.digit_val a <= 9)%Z.
Proof.
  destruct a as [[] [] [] [] [] [] [] []]; vm_compute; intros; split; congruence.
Qed.

Lemma all_digits_no_colon t : all_digits t = true -> LastIndexByte t ":" = None.
Proof.
  induction t as [|a t IH]; simpl; [done |].
  intros [Ha Ht]%andb_prop. rewrite (IH Ht). by rewrite (is_digit_not_colon _ Ha).
Qed.

Lemma digits_from_all_digits t acc n :
  strconv.digits_from acc t = Some n -> all_digits t = true.
Proof.
  revert acc. induction t as [|a t IH]; simpl; [done |].
  intros acc. destruct (is_digit a); [apply IH | discriminate].
Qed.

Lemma digits_from_nonneg t acc n :
  strconv.digits_from acc t = Some n -> (0 <= acc)%Z -> (0 <= n)%Z.
Proof.
  revert acc. induction t as [|a t IH]; simpl; intros acc.
  - intros [= <-]. done.
  - destruct (is_digit a) eqn:Ha; [|discriminate].
    intros H Hacc. apply (IH _ H). pose proof (is_digit_val _ Ha). lia.
Qed.

(** What [URL.Port] returns for a host with a colon whose tail holds no
    further colon. *)
Lemma url_Port_split sch h t :
  LastIndexByte t ":" = None ->
  url.Port (url.mkURL sch (h +:+ String ":" t)) = if all_digits t then t else "".
Proof.
  intros Ht. unfold url.Port, url.splitHostPort. simpl url.Host.
  rewrite (LastIndexByte_app_None _ _ _ Ht).
  rewrite string_drop_app. simpl url.validOptionalPort.
  destruct (all_digits t) eqn:Hd.
  - replace (string_drop (S (String.length h)) (h +:+ String ":" t)) with t.
    + by destruct (_ && _).
    + clear. induction h; simpl; [by destruct t | done].
  - by destruct (_ && _).
Qed.

Lemma url_Port_no_colon sch host :
  LastIndexByte host ":" = None -> url.Port (url.mkURL sch host) = "".
Proof.
  intros H. unfold url.Port, url.splitHostPort. simpl url.Host. rewrite H.
  by destruct (_ && _).
Qed.

Lemma Atoi_digits t n :
  t <> "" -> strconv.digits_from 0 t = Some n ->
  strconv.Atoi t =
    (if (n >? strconv.max_int64)%Z then (strconv.max_int64, Some (ErrSys ErrRange))
     else (n, None)).
Proof.
  intros Hne Hn. pose proof (digits_from_nonneg _ _ _ Hn ltac:(lia)) as Hpos.
  destruct t as [|a t]; [done |].
  assert (Ha : is_digit a = true).
  { simpl in Hn. by destruct (is_digit a). }
  destruct (is_digit_not_sign _ Ha) as [Hm Hp].
  unfold strconv.Atoi. rewrite Hm, Hp, Hn.
  destruct (n >? strconv.max_int64)%Z; [done |].
  replace (n <? strconv.min_int64)%Z with false; [done |].
  symmetry. apply Z.ltb_ge. unfold strconv.min_int64. lia.
Qed.

Lemma int32_small n : (0 <= n < 2 ^ 31)%Z -> int32 n = n.
Proof.
  intros H. unfold int32. rewrite Z.mod_small; lia.
Qed.

End PortFacts.

(** C10 (as the code has it): [Port] returns 0 when the host of the API URL
    has no colon, when nothing follows its last colon, and when what
    follows is not a decimal number.  When a non-empty digit string [t] of
    value [n] follows the last colon, [Port] returns [n] as Go converts it:
    cut at the largest [int] by [Atoi], then reduced to 32 bits by [int32];
    this is [n] itself whenever [n < 2^31]. *)
Theorem Port_spec (p : peer.Peer) :
  let host := url.Host (peer.apiURL p) in
  (LastIndexByte host ":" = None -> peer.Port p = 0%Z)
  /\ (forall h, host = h +:+ ":" -> peer.Port p = 0%Z)
  /\ (forall h t, host = h +:+ String ":" t -> LastIndexByte t ":" = None ->
        all_digits t = false -> peer.Port p = 0%Z)
  /\ (forall h t n, host = h +:+ String ":" t -> t <> "" ->
        strconv.digits_from 0 t = Some n ->
        peer.Port p = int32 (Z.min n strconv.max_int64)
        /\ ((n < 2 ^ 31)%Z -> peer.Port p = n)).
Proof.
  destruct p as [o i m d ap [sch host] cp cu op ou c]. simpl.
  unfold peer.Port. simpl peer.apiURL.
  split; [|split; [|split]].
  - intros H. by rewrite (url_Port_no_colon _ _ H).
  - intros h ->. by rewrite (url_Port_split sch h "" eq_refl).
  - intros h t -> Ht Hd. rewrite (url_Port_split sch h t Ht), Hd. done.
  - intros h t n -> Hne Hn.
    pose proof (digits_from_all_digits _ _ _ Hn) as Hd.
    rewrite (url_Port_split sch h t (all_digits_no_colon _ Hd)), Hd.
    rewrite (Atoi_digits _ _ Hne Hn).
    pose proof (digits_from_nonneg _ _ _ Hn ltac:(lia)) as Hpos.
    destruct (n >? strconv.max_int64)%Z eqn:Hgt.
    + apply Z.gtb_lt in Hgt. split.
      * by rewrite Z.min_r by lia.
      * unfold strconv.max_int64 in Hgt. lia.
    + assert (Hle : (n <= strconv.max_int64)%Z).
      { destruct (Z.gtb_spec n strconv.max_int64); [discriminate | lia]. }
      split.
      * by rewrite Z.min_l by lia.
      * intros Hs. apply int32_small. lia.
Qed.

(** C10, witness: the usual peer address. *)
Lemma Port_spec_witness : peer.Port Sample.p0 = 7051%Z.
Proof.
  apply (proj2 (proj2 (proj2 (proj2 (Port_spec Sample.p0))) "localhost" "7051" 7051%Z
           eq_refl ltac:(discriminate) eq_refl)).
  vm_compute. reflexivity.
Defined.

(** C10 as the specification states it fails: a port beyond 32 bits comes
    back reduced. *)
Lemma Port_wraps :
  url.Port (peer.apiURL (Sample.peer_at "localhost:4294967297" None)) = "4294967297"
  /\ peer.Port (Sample.peer_at "localhost:4294967297" None) = 1%Z
  /\ ~ (forall p h t n,
          url.Host (peer.apiURL p) = h +:+ String ":" t -> t <> "" ->
          strconv.digits_from 0 t = Some n -> peer.Port p = n).
Proof.
  split; [vm_compute; reflexivity |]. split; [vm_compute; reflexivity |].
  intros H.
  specialize (H (Sample.peer_at "localhost:4294967297" None) "localhost" "4294967297"
                4294967297%Z eq_refl ltac:(discriminate) eq_refl).
  vm_compute in H. discriminate H.
Qed.

(** ** Configuration synthesis *)

Section ConfigFacts.

Import peer.

Lemma as_map_yset_ne (m : ymap) k k' v :
  k <> k' -> as_map (yset k v m) k' = as_map m k'.
Proof.
  intros Hne. unfold as_map, yset.
  rewrite lookup_insert_ne; [done | congruence].
Qed.

Lemma as_map_yset_eq (m sub : ymap) k : as_map (yset k (YMap sub) m) k = Some sub.
Proof. unfold as_map, yset. by rewrite lookup_insert_eq. Qed.

Lemma is_some_true {A} (o : option A) : is_some o = true -> exists a, o = Some a.
Proof. destruct o; [eauto | discriminate]. Qed.

Lemma is_some_false {A} (o : option A) : is_some o = false -> o = None.
Proof. by destruct o. Qed.

(** The lookups of [patchConfig] see through its own assignments. *)
Lemma as_map_gossip_after_fields (peer : ymap) a b c d e f g :
  as_map (yset "chaincodeListenAddress" g
         (yset "listenAddress" f
         (yset "address" e
         (yset "fileSystemPath" d
         (yset "localMspId" c
         (yset "mspConfigPath" b
         (yset "id" a peer))))))) "gossip"
  = as_map peer "gossip".
Proof. by rewrite !as_map_yset_ne by discriminate. Qed.

End ConfigFacts.

(** Reduce the section lookups of [patchConfig]. *)
Ltac patch_lookups :=
  repeat first
    [ rewrite as_map_gossip_after_fields
    | rewrite as_map_yset_eq
    | rewrite as_map_yset_ne by discriminate ].

(** [patchConfig] stops at the first section that is not there, with the
    error that names it. *)
Lemma patchConfig_missing rt p dataDirectory mspDirectory config s :
  has_section config s = false ->
  (forall s', section_rank s' < section_rank s -> has_section config s' = true) ->
  peer.patchConfig rt p dataDirectory mspDirectory config
  = Err (missing_section_error s).
Proof.
  intros Hs Hbefore.
  assert (Hp : s <> SPeer -> exists m, as_map config "peer" = Some m).
  { intros Hne. apply is_some_true, (Hbefore SPeer). destruct s; simpl; (done || lia). }
  assert (Hg : section_rank SGossip < section_rank s ->
               exists m g, as_map config "peer" = Some m /\ as_map m "gossip" = Some g).
  { intros Hlt. pose proof (Hbefore SGossip Hlt) as H. simpl in H.
    destruct (as_map config "peer") as [m|]; [|discriminate].
    apply is_some_true in H as [g Hg']. eauto. }
  assert (Hother : forall s', section_rank s' < section_rank s -> has_section config s' = true)
    by exact Hbefore.
  unfold peer.patchConfig.
  destruct s; simpl in Hs.
  - apply is_some_false in Hs. by rewrite Hs.
  - destruct Hp as [m Hm]; [done |]. rewrite Hm in Hs |- *. patch_lookups.
    apply is_some_false in Hs. by rewrite Hs.
  - destruct Hg as (m & g & Hm & Hg'); [simpl; lia |]. rewrite Hm. patch_lookups.
    rewrite Hg'. patch_lookups. apply is_some_false in Hs. by rewrite Hs.
  - destruct Hg as (m & g & Hm & Hg'); [simpl; lia |]. rewrite Hm. patch_lookups.
    rewrite Hg'. patch_lookups.
    destruct (is_some_true _ (Hother SMetrics ltac:(simpl; lia))) as [x ->].
    patch_lookups. apply is_some_false in Hs. by rewrite Hs.
  - destruct Hg as (m & g & Hm & Hg'); [simpl; lia |]. rewrite Hm. patch_lookups.
    rewrite Hg'. patch_lookups.
    destruct (is_some_true _ (Hother SMetrics ltac:(simpl; lia))) as [x ->].
    patch_lookups.
    destruct (is_some_true _ (Hother SOperations ltac:(simpl; lia))) as [y ->].
    patch_lookups. apply is_some_false in Hs. by rewrite Hs.
  - destruct Hg as (m & g & Hm & Hg'); [simpl; lia |]. rewrite Hm. patch_lookups.
    rewrite Hg'. patch_lookups.
    destruct (is_some_true _ (Hother SMetrics ltac:(simpl; lia))) as [x ->].
    patch_lookups.
    destruct (is_some_true _ (Hother SOperations ltac:(simpl; lia))) as [y ->].
    patch_lookups.
    destruct (is_some_true _ (Hother SVm ltac:(simpl; lia))) as [z ->].
    patch_lookups. apply is_some_false in Hs. by rewrite Hs.
Qed.

(** With every section there and the home directory known, [patchConfig]
    succeeds and stores the four builders under [chaincode]. *)
Lemma patchConfig_builders rt p dataDirectory mspDirectory config home :
  (forall s, has_section config s = true) ->
  GetHomeDirectory rt = Ok home ->
  exists config',
    peer.patchConfig rt p dataDirectory mspDirectory config = Ok config'
    /\ config_builders config'
       = Some [ peer.builder home "golang" "golang" ["GOCACHE"; "GOENV"; "GOROOT"; "HOME"];
                peer.builder home "java" "java" ["HOME"; "JAVA_HOME"; "MAVEN_OPTS"];
                peer.builder home "node" "node" ["HOME"; "npm_config_cache"];
                peer.builder home "external" "external-service-builder" ["HOME"] ].
Proof.
  intros Hall Hhome.
  pose proof (Hall SGossip) as Hg. simpl in Hg.
  destruct (as_map config "peer") as [m|] eqn:Hm; [|discriminate].
  apply is_some_true in Hg as [g Hg].
  destruct (is_some_true _ (Hall SMetrics)) as [x Hx].
  destruct (is_some_true _ (Hall SOperations)) as [y Hy].
  destruct (is_some_true _ (Hall SVm)) as [z Hz].
  destruct (is_some_true _ (Hall SChaincode)) as [c Hc].
  unfold peer.patchConfig. rewrite Hm. patch_lookups. rewrite Hg. patch_lookups.
  rewrite Hx. patch_lookups. rewrite Hy. patch_lookups. rewrite Hz. patch_lookups.
  rewrite Hc, Hhome. eexists. split; [reflexivity |].
  unfold config_builders. rewrite as_map_yset_eq.
  unfold yset at 1. by rewrite lookup_insert_eq.
Qed.

Lemma builder_name_builder home dir name envs :
  builder_name (peer.builder home dir name envs) = Some name.
Proof.
  unfold builder_name, peer.builder, yset.
  rewrite lookup_insert_ne by discriminate. by rewrite lookup_insert_eq.
Qed.

Lemma mapM_as_string (l : list string) : mapM as_string (YStr <$> l) = Some l.
Proof.
  apply mapM_Some. induction l as [|a l IH]; simpl; constructor; done.
Qed.

Lemma builder_env_builder home dir name envs :
  builder_env (peer.builder home dir name envs) = Some envs.
Proof.
  unfold builder_env, peer.builder, yset.
  rewrite !lookup_insert_ne by discriminate. rewrite lookup_insert_eq. simpl.
  apply mapM_as_string.
Qed.

(** C5: from a template that has the required sections, [patchConfig]
    yields a document whose chaincode.externalBuilders holds exactly four
    builders, named golang, java, node and external-service-builder, whose
    propagateEnvironment lists are, as sets, {GOCACHE, GOENV, GOROOT, HOME},
    {HOME, JAVA_HOME, MAVEN_OPTS}, {HOME, npm_config_cache} and {HOME}. *)
Theorem externalBuilders_allow_lists rt p dataDirectory mspDirectory config home :
  (forall s, has_section config s = true) ->
  GetHomeDirectory rt = Ok home ->
  exists config' bgo bjava bnode bext lgo ljava lnode lext,
    peer.patchConfig rt p dataDirectory mspDirectory config = Ok config'
    /\ config_builders config' = Some [bgo; bjava; bnode; bext]
    /\ builder_name bgo = Some "golang"
    /\ builder_name bjava = Some "java"
    /\ builder_name bnode = Some "node"
    /\ builder_name bext = Some "external-service-builder"
    /\ builder_env bgo = Some lgo
    /\ builder_env bjava = Some ljava
    /\ builder_env bnode = Some lnode
    /\ builder_env bext = Some lext
    /\ list_to_set lgo =@{gset string} {[ "GOCACHE"; "GOENV"; "GOROOT"; "HOME" ]}
    /\ list_to_set ljava =@{gset string} {[ "HOME"; "JAVA_HOME"; "MAVEN_OPTS" ]}
    /\ list_to_set lnode =@{gset string} {[ "HOME"; "npm_config_cache" ]}
    /\ list_to_set lext =@{gset string} {[ "HOME" ]}.
Proof.
  intros Hall Hhome.
  destruct (patchConfig_builders rt p dataDirectory mspDirectory config home Hall Hhome)
    as (config' & Hpatch & Hb).
  exists config'. do 8 eexists.
  split; [exact Hpatch |]. split; [exact Hb |].
  rewrite !builder_name_builder, !builder_env_builder.
  repeat (split; [reflexivity |]).
  repeat split; simpl; set_solver.
Qed.

(** C5, witness: the sample template. *)
Lemma externalBuilders_allow_lists_witness :
  exists config' l,
    peer.patchConfig Sample.rt Sample.p0 ["srv"; "peer1"; "data"] ["srv"; "peer1"; "msp"]
      Sample.template = Ok config'
    /\ config_builders config' = Some l /\ length l = 4.
Proof.
  destruct (externalBuilders_allow_lists Sample.rt Sample.p0
              ["srv"; "peer1"; "data"] ["srv"; "peer1"; "msp"]
              Sample.template ["home"; "microfab"])
    as (config' & b1 & b2 & b3 & b4 & _ & _ & _ & _ & Hp & Hb & _).
  - intros []; vm_compute; reflexivity.
  - reflexivity.
  - exists config', [b1; b2; b3; b4]. repeat split; assumption.
Defined.

(** ** The file system *)

Section FsFacts.

Lemma grows_dirs_refl P f : grows_dirs P f f.
Proof. intros q. by left. Qed.

Lemma grows_dirs_trans P f1 f2 f3 :
  grows_dirs P f1 f2 -> grows_dirs P f2 f3 -> grows_dirs P f1 f3.
Proof.
  intros H12 H23 q.
  destruct (H23 q) as [E23 | (N2 & D3 & Pq)], (H12 q) as [E12 | (N1 & D2 & Pq')].
  - left. congruence.
  - right. repeat split; [done | congruence | done].
  - right. repeat split; [congruence | done | done].
  - congruence.
Qed.

Lemma grows_dirs_weaken (P Q : Path -> Prop) f f' :
  (forall q, P q -> Q q) -> grows_dirs P f f' -> grows_dirs Q f f'.
Proof.
  intros HPQ H q. destruct (H q) as [E | (N & D & Pq)]; [by left | right; auto].
Qed.

Lemma grows_dirs_keeps P f f' q n :
  grows_dirs P f f' -> f !! q = Some n -> f' !! q = Some n.
Proof. intros H Hq. destruct (H q) as [E | (N & _)]; congruence. Qed.

Lemma grows_dirs_file P f f' q data :
  grows_dirs P f f' -> f' !! q = Some (File data) -> f !! q = Some (File data).
Proof. intros H Hq. destruct (H q) as [E | (_ & D & _)]; congruence. Qed.

Lemma mkdir_from_lookup todo : forall above f r f',
  mkdir_from above todo f = (r, f') ->
  grows_dirs (fun q => exists l1 l2, todo = l1 ++ l2 /\ l1 <> [] /\ q = above ++ l1) f f'.
Proof.
  induction todo as [|c todo IH]; intros above f r f'; simpl.
  - intros [= <- <-]. apply grows_dirs_refl.
  - destruct (f !! (above ++ [c])) as [[|data]|] eqn:Hd.
    + intros H. eapply grows_dirs_weaken; [|exact (IH _ _ _ _ H)].
      intros q (l1 & l2 & -> & Hne & ->). exists (c :: l1), l2.
      repeat split; [done |]. by rewrite <- app_assoc.
    + intros [= <- <-]. apply grows_dirs_refl.
    + intros H. specialize (IH _ _ _ _ H). intros q.
      destruct (IH q) as [E | (N & D & (l1 & l2 & -> & Hne & ->))].
      * destruct (decide (q = above ++ [c])) as [-> | Hq].
        -- right. rewrite E, lookup_insert_eq. repeat split; [done |].
           by exists [c], todo.
        -- left. by rewrite E, lookup_insert_ne.
      * right. destruct (decide ((above ++ [c]) ++ l1 = above ++ [c])) as [E | Hq].
        { rewrite E, lookup_insert_eq in N. discriminate. }
        rewrite lookup_insert_ne in N by done. repeat split; [done | done |].
        exists (c :: l1), l2. repeat split; [done |]. by rewrite <- app_assoc.
Qed.

Lemma mkdir_from_dirs todo : forall above f f',
  mkdir_from above todo f = (None, f') ->
  forall l1 l2, todo = l1 ++ l2 -> l1 <> [] -> f' !! (above ++ l1) = Some Dir.
Proof.
  induction todo as [|c todo IH]; intros above f f'; simpl.
  - intros _ [|] ? ?; [done | discriminate].
  - intros H [|c' l1] l2 Hsplit Hne; [done |]. injection Hsplit as <- ->.
    assert (Hstep : exists f1, mkdir_from (above ++ [c]) (l1 ++ l2) f1 = (None, f')
                               /\ f1 !! (above ++ [c]) = Some Dir).
    { destruct (f !! (above ++ [c])) as [[|data]|] eqn:Hd.
      - by exists f.
      - discriminate.
      - eexists. split; [exact H |]. by rewrite lookup_insert_eq. }
    destruct Hstep as (f1 & H1 & Hd1).
    destruct l1 as [|c'' l1].
    + eapply grows_dirs_keeps; [exact (mkdir_from_lookup _ _ _ _ _ H1) | exact Hd1].
    + replace (above ++ c :: c'' :: l1) with ((above ++ [c]) ++ c'' :: l1)
        by (by rewrite <- app_assoc).
      by eapply (IH _ _ _ H1 (c'' :: l1) l2).
Qed.

Lemma mkdir_from_ok todo : forall above f,
  (forall l1 l2 data, todo = l1 ++ l2 -> l1 <> [] ->
                      f !! (above ++ l1) <> Some (File data)) ->
  exists f', mkdir_from above todo f = (None, f').
Proof.
  induction todo as [|c todo IH]; intros above f Hfree; simpl; [eauto |].
  destruct (f !! (above ++ [c])) as [[|data]|] eqn:Hd.
  - apply IH. intros l1 l2 data -> Hne.
    rewrite <- app_assoc. by apply (Hfree (c :: l1) l2).
  - exfalso. by apply (Hfree [c] todo data).
  - apply IH. intros l1 l2 data -> Hne.
    rewrite lookup_insert_ne.
    + rewrite <- app_assoc. by apply (Hfree (c :: l1) l2).
    + intros E. rewrite <- (app_nil_r (above ++ [c])) in E at 1.
      apply app_inv_head in E. by subst.
Qed.

Lemma fs_MkdirAll_lookup p f r f' :
  fs_MkdirAll p f = (r, f') -> grows_dirs (on_the_way [p]) f f'.
Proof.
  intros H. eapply grows_dirs_weaken; [|exact (mkdir_from_lookup _ _ _ _ _ H)].
  intros q (l1 & l2 & -> & Hne & ->). split; [done |].
  exists (l1 ++ l2). split; [apply list_elem_of_singleton; done | by exists l2].
Qed.

Lemma fs_MkdirAll_dirs p f f' :
  fs_MkdirAll p f = (None, f') ->
  forall q, q `prefix_of` p -> q <> [] -> f' !! q = Some Dir.
Proof.
  intros H q [k ->] Hne. exact (mkdir_from_dirs _ _ _ _ H q k eq_refl Hne).
Qed.

Lemma fs_MkdirAll_ok p f :
  (forall q data, q `prefix_of` p -> f !! q <> Some (File data)) ->
  exists f', fs_MkdirAll p f = (None, f').
Proof.
  intros Hfree. apply mkdir_from_ok. intros l1 l2 data -> _.
  apply Hfree. by exists l2.
Qed.

Lemma fs_WriteFile_err p data f e f' :
  fs_WriteFile p data f = (Some e, f') -> f' = f.
Proof.
  unfold fs_WriteFile. destruct p as [|c p]; [by intros [= _ <-] |].
  destruct (is_dir f _).
  - destruct (f !! (c :: p)) as [[|?]|]; by intros [= <-].
  - destruct (f !! removelast (c :: p)) as [[|?]|]; by intros [= _ <-].
Qed.

Lemma fs_WriteFile_ok p data f f' :
  fs_WriteFile p data f = (None, f') -> f' = <[p := File data]> f.
Proof.
  unfold fs_WriteFile. destruct p as [|c p]; [discriminate |].
  destruct (is_dir f _).
  - destruct (f !! (c :: p)) as [[|?]|]; by intros [= <-].
  - destruct (f !! removelast (c :: p)) as [[|?]|]; discriminate.
Qed.

Lemma fs_WriteFile_succeeds p data f :
  p <> [] -> is_dir f (removelast p) = true -> f !! p <> Some Dir ->
  fs_WriteFile p data f = (None, <[p := File data]> f).
Proof.
  intros Hne Hdir Hp. unfold fs_WriteFile. destruct p as [|c p]; [done |].
  rewrite Hdir. by destruct (f !! (c :: p)) as [[|?]|].
Qed.

Lemma set_fs_same w : set_fs w (fs w) = w.
Proof. by destruct w. Qed.

Lemma fs_only_refl w : fs_only w w.
Proof. repeat split. exists []. by rewrite app_nil_r. Qed.

Lemma fs_only_trans w1 w2 w3 : fs_only w1 w2 -> fs_only w2 w3 -> fs_only w1 w3.
Proof.
  intros (E1 & P1 & t1 & T1 & F1) (E2 & P2 & t2 & T2 & F2).
  repeat split; [congruence | congruence |].
  exists (t1 ++ t2). split; [by rewrite T2, T1, app_assoc | by apply Forall_app].
Qed.

Lemma fs_only_set_fs w f : fs_only w (set_fs w f).
Proof. repeat split. exists []. simpl. by rewrite app_nil_r. Qed.

Lemma fs_only_with_fs w f e : is_fs_effect e = true -> fs_only w (with_fs w f e).
Proof. intros He. repeat split. exists [e]. split; [done | by constructor]. Qed.

Lemma os_MkdirAll_fs_only p w r w' : os_MkdirAll p w = (r, w') -> fs_only w w'.
Proof.
  unfold os_MkdirAll. destruct (fs_MkdirAll p (fs w)) as [[e|] f]; intros [= <- <-].
  - apply fs_only_set_fs.
  - by apply fs_only_with_fs.
Qed.

Lemma ioutil_WriteFile_fs_only p data w r w' :
  ioutil_WriteFile p data w = (r, w') -> fs_only w w'.
Proof.
  unfold ioutil_WriteFile. destruct (fs_WriteFile p data (fs w)) as [[e|] f];
    intros [= <- <-].
  - apply fs_only_set_fs.
  - by apply fs_only_with_fs.
Qed.

Lemma os_OpenFile_trunc_fs_only p w r w' :
  os_OpenFile_trunc p w = (r, w') -> fs_only w w'.
Proof.
  unfold os_OpenFile_trunc. destruct (fs_WriteFile p [] (fs w)) as [[e|] f];
    intros [= <- <-].
  - apply fs_only_set_fs.
  - by apply fs_only_with_fs.
Qed.

Lemma mkdir_each_fs_only dirs : forall w r w',
  mkdir_each dirs w = (r, w') -> fs_only w w'.
Proof.
  induction dirs as [|d dirs IH]; intros w r w'; simpl.
  - intros [= <- <-]. apply fs_only_refl.
  - destruct (os_MkdirAll d w) as [[e|] w1] eqn:H1.
    + intros [= <- <-]. by eapply os_MkdirAll_fs_only.
    + intros H. eapply fs_only_trans; [by eapply os_MkdirAll_fs_only | by eapply IH].
Qed.

Lemma ioutil_WriteFile_ok p data w w' :
  ioutil_WriteFile p data w = (None, w') ->
  w' = mkWorld (<[p := File data]> (fs w)) (env w) (procs w)
               (trace w ++ [EWriteFile p data]).
Proof.
  unfold ioutil_WriteFile.
  destruct (fs_WriteFile p data (fs w)) as [[e|] f] eqn:H; intros [= <-].
  by rewrite (fs_WriteFile_ok _ _ _ _ H).
Qed.

Lemma os_MkdirAll_grows p w r w' :
  os_MkdirAll p w = (r, w') ->
  grows_dirs (on_the_way [p]) (fs w) (fs w')
  /\ (r = None -> forall q, q `prefix_of` p -> q <> [] -> fs w' !! q = Some Dir).
Proof.
  unfold os_MkdirAll. destruct (fs_MkdirAll p (fs w)) as [[e|] f] eqn:H;
    intros [= <- <-]; simpl.
  - split; [by eapply fs_MkdirAll_lookup | discriminate].
  - split; [by eapply fs_MkdirAll_lookup |]. intros _. by eapply fs_MkdirAll_dirs.
Qed.

Lemma on_the_way_mono dirs dirs' q :
  (forall d, d ∈ dirs -> d ∈ dirs') -> on_the_way dirs q -> on_the_way dirs' q.
Proof. intros Hsub (Hne & d & Hd & Hp). split; [done |]. exists d. auto. Qed.

(** What the loop over the directories leaves behind. *)
Lemma mkdir_each_grows dirs : forall w r w',
  mkdir_each dirs w = (r, w') ->
  grows_dirs (on_the_way dirs) (fs w) (fs w')
  /\ (r = None -> forall q, on_the_way dirs q -> fs w' !! q = Some Dir).
Proof.
  induction dirs as [|d dirs IH]; intros w r w'; simpl.
  - intros [= <- <-]. split; [apply grows_dirs_refl |].
    intros _ q (_ & d & Hd & _). by apply elem_of_nil in Hd.
  - destruct (os_MkdirAll d w) as [[e|] w1] eqn:H1.
    + intros [= <- <-]. destruct (os_MkdirAll_grows _ _ _ _ H1) as [G _].
      split; [|discriminate].
      eapply grows_dirs_weaken; [|exact G].
      intros q. apply on_the_way_mono. intros d' ->%list_elem_of_singleton. by left.
    + intros H. destruct (os_MkdirAll_grows _ _ _ _ H1) as [G1 D1].
      destruct (IH _ _ _ H) as [G2 D2].
      assert (G : grows_dirs (on_the_way (d :: dirs)) (fs w) (fs w')).
      { eapply grows_dirs_trans.
        - eapply grows_dirs_weaken; [|exact G1].
          intros q. apply on_the_way_mono.
          intros d' ->%list_elem_of_singleton. by left.
        - eapply grows_dirs_weaken; [|exact G2].
          intros q. apply on_the_way_mono. intros d' Hd'. by right. }
      split; [exact G |].
      intros -> q (Hne & d' & Hd' & Hp).
      apply elem_of_cons in Hd' as [-> | Hd'].
      * eapply grows_dirs_keeps; [exact G2 |]. by apply D1.
      * apply D2; [done |]. split; [done |]. by exists d'.
Qed.

Lemma mkdir_each_ok dirs : forall w,
  (forall d q data, d ∈ dirs -> q `prefix_of` d -> fs w !! q <> Some (File data)) ->
  exists w', mkdir_each dirs w = (None, w').
Proof.
  induction dirs as [|d dirs IH]; intros w Hfree; simpl; [eauto |].
  destruct (fs_MkdirAll_ok d (fs w)) as [f' Hf'].
  { intros q data. apply Hfree. by left. }
  destruct (os_MkdirAll d w) as [r w1] eqn:H1.
  pose proof (os_MkdirAll_grows _ _ _ _ H1) as [G _].
  unfold os_MkdirAll in H1. rewrite Hf' in H1. injection H1 as <- <-.
  apply IH. intros d' q data Hd' Hp Hq. simpl in G, Hq.
  apply (Hfree d' q data); [by right | done |].
  by eapply grows_dirs_file.
Qed.

End FsFacts.

(** ** The MSP directory *)

(** Two paths below the same directory differ when their tails do. *)
Ltac path_ne :=
  let E := fresh "E" in
  intros E; rewrite <- ?app_assoc in E; simpl in E;
  apply app_inv_head in E; congruence.

(** Membership in a list that is written out. *)
Ltac elem_now :=
  repeat first [ apply list_elem_of_here | apply list_elem_of_further ].

Section MspFacts.

Lemma prefix_snoc (q l : Path) (x : string) :
  q `prefix_of` l ++ [x] -> q `prefix_of` l \/ q = l ++ [x].
Proof.
  intros [k Hk]. destruct k as [|y k _] using rev_ind.
  - right. by rewrite app_nil_r in Hk.
  - left. rewrite app_assoc in Hk. apply app_inj_tail in Hk as [-> _]. by exists k.
Qed.

Lemma app_prefix_self (d rel : Path) : d ++ rel `prefix_of` d -> rel = [].
Proof.
  intros [k Hk]. rewrite <- app_assoc in Hk.
  rewrite <- (app_nil_r d) in Hk at 1. apply app_inv_head in Hk.
  symmetry in Hk. by apply app_eq_nil in Hk as [-> _].
Qed.

Lemma on_the_way_msp directory q :
  on_the_way (util.msp_directories directory) q ->
  q `prefix_of` directory \/ q ∈ msp_subdirectories directory.
Proof.
  intros (_ & d & Hd & Hp). unfold util.msp_directories in Hd.
  unfold msp_subdirectories, path_Join in *.
  repeat (apply elem_of_cons in Hd as [-> | Hd]);
    [by left | | | | | by apply elem_of_nil in Hd];
    (apply prefix_snoc in Hp as [Hp | ->]; [by left | right; elem_now]).
Qed.

Lemma msp_subdirectories_on_the_way directory d :
  d ∈ msp_subdirectories directory ->
  on_the_way (util.msp_directories directory) d.
Proof.
  intros Hd. split.
  - unfold msp_subdirectories in Hd.
    repeat (apply elem_of_cons in Hd as [-> | Hd]);
      [| | | | by apply elem_of_nil in Hd]; by destruct directory.
  - exists d. split; [|done]. unfold util.msp_directories, path_Join.
    by right.
Qed.

Lemma is_dir_intro (f : FS) p : (p <> [] -> f !! p = Some Dir) -> is_dir f p = true.
Proof.
  intros H. destruct p as [|c p]; [done |]. simpl. by rewrite H.
Qed.

Lemma CreateMSPDirectory_fs_only directory identity w r w' :
  util.CreateMSPDirectory directory identity w = (r, w') -> fs_only w w'.
Proof.
  unfold util.CreateMSPDirectory.
  destruct (mkdir_each _ w) as [[e|] w1] eqn:H1;
    [intros [= <- <-]; by eapply mkdir_each_fs_only |].
  pose proof (mkdir_each_fs_only _ _ _ _ H1) as F1.
  destruct (ioutil_WriteFile _ _ w1) as [[e|] w2] eqn:H2;
    pose proof (fs_only_trans _ _ _ F1 (ioutil_WriteFile_fs_only _ _ _ _ _ H2)) as F2;
    [by intros [= <- <-] |].
  destruct (ioutil_WriteFile _ _ w2) as [[e|] w3] eqn:H3;
    pose proof (fs_only_trans _ _ _ F2 (ioutil_WriteFile_fs_only _ _ _ _ _ H3)) as F3;
    [by intros [= <- <-] |].
  destruct (ioutil_WriteFile _ _ w3) as [[e|] w4] eqn:H4;
    pose proof (fs_only_trans _ _ _ F3 (ioutil_WriteFile_fs_only _ _ _ _ _ H4)) as F4;
    [by intros [= <- <-] |].
  destruct (id_ca identity) as [ca|]; [|by intros [= <- <-]].
  destruct (ioutil_WriteFile _ _ w4) as [[e|] w5] eqn:H5;
    pose proof (fs_only_trans _ _ _ F4 (ioutil_WriteFile_fs_only _ _ _ _ _ H5)) as F5;
    by intros [= <- <-].
Qed.

(** A successful [CreateMSPDirectory] is the loop over the directories
    followed by the writes of [msp_files], in this order. *)
Lemma CreateMSPDirectory_ok directory identity w w' :
  util.CreateMSPDirectory directory identity w = (None, w') ->
  exists w1,
    mkdir_each (util.msp_directories directory) w = (None, w1)
    /\ fs w' = write_all (msp_files directory identity) (fs w1)
    /\ trace w' = trace w1
         ++ ((fun pd => EWriteFile pd.1 pd.2) <$> msp_files directory identity).
Proof.
  unfold util.CreateMSPDirectory, msp_files, path_Join.
  destruct (mkdir_each _ w) as [[e|] w1] eqn:H1; [discriminate |].
  destruct (ioutil_WriteFile _ _ w1) as [[e|] w2] eqn:H2; [discriminate |].
  apply ioutil_WriteFile_ok in H2 as ->.
  destruct (ioutil_WriteFile _ _ _) as [[e|] w3] eqn:H3; [discriminate |].
  apply ioutil_WriteFile_ok in H3 as ->.
  destruct (ioutil_WriteFile _ _ _) as [[e|] w4] eqn:H4; [discriminate |].
  apply ioutil_WriteFile_ok in H4 as ->.
  destruct (id_ca identity) as [ca|].
  - destruct (ioutil_WriteFile _ _ _) as [[e|] w5] eqn:H5; [discriminate |].
    apply ioutil_WriteFile_ok in H5 as ->.
    intros [= <-]. exists w1. simpl. by rewrite <- !app_assoc.
  - intros [= <-]. exists w1. simpl. by rewrite <- !app_assoc.
Qed.

Lemma write_all_other files : forall (f : FS) q,
  q ∉ files.*1 -> write_all files f !! q = f !! q.
Proof.
  induction files as [|[p d] files IH]; intros f q Hq; [done |].
  simpl in *. apply not_elem_of_cons in Hq as [Hne Hq].
  unfold write_all in *. simpl. rewrite IH by done. by rewrite lookup_insert_ne.
Qed.

Lemma write_all_in files : forall (f : FS) p d,
  NoDup files.*1 -> (p, d) ∈ files -> write_all files f !! p = Some (File d).
Proof.
  induction files as [|[p' d'] files IH]; intros f p d Hnd Hin.
  - by apply elem_of_nil in Hin.
  - simpl in Hnd. apply NoDup_cons in Hnd as [Hp' Hnd].
    apply elem_of_cons in Hin as [[= -> ->] | Hin].
    + unfold write_all. simpl. fold (write_all files (<[p' := File d']> f)).
      rewrite write_all_other by done. by rewrite lookup_insert_eq.
    + unfold write_all. simpl. by apply IH.
Qed.

Lemma msp_files_NoDup directory identity : NoDup (msp_files directory identity).*1.
Proof.
  unfold msp_files. destruct (id_ca identity); simpl;
    repeat (apply NoDup_cons; split;
            [rewrite ?elem_of_cons, elem_of_nil;
             intros H; repeat destruct H as [H | H]; try done; revert H; path_ne |]);
    apply NoDup_nil_2.
Qed.

Lemma msp_files_not_subdir directory identity d :
  d ∈ msp_subdirectories directory -> d ∉ (msp_files directory identity).*1.
Proof.
  unfold msp_subdirectories, msp_files. intros Hd Hf.
  repeat (apply elem_of_cons in Hd as [-> | Hd]);
    [| | | | by apply elem_of_nil in Hd];
    (destruct (id_ca identity); simpl in Hf;
     repeat (apply elem_of_cons in Hf as [Hf | Hf]; [revert Hf; path_ne |]);
     by apply elem_of_nil in Hf).
Qed.

End MspFacts.

Section MspTheorem.

Lemma ioutil_WriteFile_succeeds p data w :
  p <> [] -> is_dir (fs w) (removelast p) = true -> fs w !! p <> Some Dir ->
  ioutil_WriteFile p data w
  = (None, mkWorld (<[p := File data]> (fs w)) (env w) (procs w)
                   (trace w ++ [EWriteFile p data])).
Proof.
  intros. unfold ioutil_WriteFile. by rewrite fs_WriteFile_succeeds.
Qed.

Lemma removelast_two (d : Path) (a b : string) : removelast (d ++ [a; b]) = d ++ [a].
Proof. rewrite removelast_app by done. reflexivity. Qed.

Lemma removelast_one (d : Path) (a : string) : removelast (d ++ [a]) = d.
Proof. apply removelast_last. Qed.

Lemma app_ne_nil (d : Path) (a : string) l : d ++ a :: l <> [].
Proof. by destruct d. Qed.

(** On a place where nothing stands yet, and below directories only, the
    call goes through. *)
Lemma CreateMSPDirectory_succeeds directory identity w :
  (forall q, directory `prefix_of` q -> fs w !! q = None) ->
  (forall q data, q `prefix_of` directory -> fs w !! q <> Some (File data)) ->
  exists w', util.CreateMSPDirectory directory identity w = (None, w').
Proof.
  intros Hfresh Habove.
  destruct (mkdir_each_ok (util.msp_directories directory) w) as [w1 H1].
  { intros d q data Hd Hq. unfold util.msp_directories, path_Join in Hd.
    apply elem_of_cons in Hd as [-> | Hd]; [by apply Habove |].
    assert (Hsub : d ∈ msp_subdirectories directory) by exact Hd.
    clear Hd. unfold msp_subdirectories in Hsub.
    repeat (apply elem_of_cons in Hsub as [-> | Hsub]);
      [| | | | by apply elem_of_nil in Hsub];
      (apply prefix_snoc in Hq as [Hq | ->];
       [by apply Habove | rewrite Hfresh; [done | by eexists]]). }
  destruct (mkdir_each_grows _ _ _ _ H1) as [G D]. specialize (D eq_refl).
  assert (Fsub : forall d, d ∈ msp_subdirectories directory -> fs w1 !! d = Some Dir).
  { intros d Hd. by apply D, msp_subdirectories_on_the_way. }
  assert (Fdir : is_dir (fs w1) directory = true).
  { apply is_dir_intro. intros Hne. apply D. split; [done |].
    exists directory. split; [by left | done]. }
  assert (Fnone : forall rel, rel <> [] ->
            directory ++ rel ∉ msp_subdirectories directory ->
            fs w1 !! (directory ++ rel) = None).
  { intros rel Hne Hns. destruct (G (directory ++ rel)) as [E | (_ & _ & O)].
    - rewrite E. apply Hfresh. by eexists.
    - apply on_the_way_msp in O as [O | O]; [|done].
      by apply app_prefix_self in O. }
  assert (NS : forall a b, directory ++ [a; b] ∉ msp_subdirectories directory).
  { intros a b Hin. unfold msp_subdirectories in Hin.
    repeat (apply elem_of_cons in Hin as [Hin | Hin]; [revert Hin; path_ne |]).
    by apply elem_of_nil in Hin. }
  assert (NS1 : directory ++ ["config.yaml"] ∉ msp_subdirectories directory).
  { intros Hin. unfold msp_subdirectories in Hin.
    repeat (apply elem_of_cons in Hin as [Hin | Hin]; [revert Hin; path_ne |]).
    by apply elem_of_nil in Hin. }
  unfold util.CreateMSPDirectory, path_Join. rewrite H1.
  rewrite ioutil_WriteFile_succeeds; cycle 1.
  { apply app_ne_nil. }
  { by rewrite removelast_one. }
  { by rewrite Fnone. }
  rewrite ioutil_WriteFile_succeeds; cycle 1.
  { apply app_ne_nil. }
  { rewrite removelast_two. apply is_dir_intro. intros _. simpl.
    rewrite lookup_insert_ne by path_ne. apply Fsub.
    unfold msp_subdirectories. elem_now. }
  { simpl. rewrite lookup_insert_ne by path_ne. by rewrite Fnone. }
  rewrite ioutil_WriteFile_succeeds; cycle 1.
  { apply app_ne_nil. }
  { rewrite removelast_two. apply is_dir_intro. intros _. simpl.
    rewrite !lookup_insert_ne by path_ne. apply Fsub.
    unfold msp_subdirectories. elem_now. }
  { simpl. rewrite !lookup_insert_ne by path_ne. by rewrite Fnone. }
  destruct (id_ca identity) as [ca|]; [|eauto].
  rewrite ioutil_WriteFile_succeeds; cycle 1.
  { apply app_ne_nil. }
  { rewrite removelast_two. apply is_dir_intro. intros _. simpl.
    rewrite !lookup_insert_ne by path_ne. apply Fsub.
    unfold msp_subdirectories. elem_now. }
  { simpl. rewrite !lookup_insert_ne by path_ne. by rewrite Fnone. }
  eauto.
Qed.

(** What a successful call leaves on disk. *)
Lemma CreateMSPDirectory_result directory identity w w' :
  util.CreateMSPDirectory directory identity w = (None, w') ->
  (forall d, d ∈ msp_subdirectories directory -> fs w' !! d = Some Dir)
  /\ (forall f data, (f, data) ∈ msp_files directory identity ->
        fs w' !! f = Some (File data))
  /\ (forall q, fs w' !! q = fs w !! q
                \/ q `prefix_of` directory
                \/ q ∈ msp_subdirectories directory
                \/ q ∈ (msp_files directory identity).*1).
Proof.
  intros H. destruct (CreateMSPDirectory_ok _ _ _ _ H) as (w1 & H1 & Hfs & _).
  destruct (mkdir_each_grows _ _ _ _ H1) as [G D]. specialize (D eq_refl).
  split; [|split].
  - intros d Hd. rewrite Hfs, write_all_other by by apply msp_files_not_subdir.
    by apply D, msp_subdirectories_on_the_way.
  - intros f data Hin. rewrite Hfs. apply write_all_in; [|done].
    apply msp_files_NoDup.
  - intros q.
    destruct (decide (q ∈ (msp_files directory identity).*1)) as [Hin | Hout];
      [by do 3 right |].
    rewrite Hfs, write_all_other by done.
    destruct (G q) as [E | (_ & _ & O)]; [by left |].
    apply on_the_way_msp in O as [O | O]; [by right; left | by right; right; left].
Qed.

End MspTheorem.

(** C6: a successful [CreateMSPDirectory] leaves the four subdirectories
    admincerts, cacerts, keystore and signcerts and the files config.yaml,
    keystore/key.pem and signcerts/cert.pem, holding the fixed policy text,
    the identity's private key and its certificate, byte for byte; it
    leaves cacerts/ca.pem with the CA certificate when the identity has a
    CA and does not touch that path when it has none; and it changes
    nothing else except for creating the directory and those above it.
    Where nothing stood at the directory before, the call succeeds and the
    directory then holds exactly [msp_layout]. *)
Theorem CreateMSPDirectory_layout (directory : Path) (identity : Identity) (w : World) :
  (forall w', util.CreateMSPDirectory directory identity w = (None, w') ->
     (forall d, d ∈ msp_subdirectories directory -> fs w' !! d = Some Dir)
     /\ (forall f data, (f, data) ∈ msp_files directory identity ->
           fs w' !! f = Some (File data))
     /\ (id_ca identity = None ->
           fs w' !! (directory ++ ["cacerts"; "ca.pem"])
           = fs w !! (directory ++ ["cacerts"; "ca.pem"]))
     /\ (forall q, fs w' !! q = fs w !! q
                   \/ q `prefix_of` directory
                   \/ q ∈ msp_subdirectories directory
                   \/ q ∈ (msp_files directory identity).*1))
  /\ ((forall q, directory `prefix_of` q -> fs w !! q = None) ->
      (forall q data, q `prefix_of` directory -> fs w !! q <> Some (File data)) ->
      exists w', util.CreateMSPDirectory directory identity w = (None, w')
                 /\ forall rel, rel <> [] ->
                      fs w' !! (directory ++ rel) = msp_layout identity !! rel).
Proof.
  assert (General : forall w', util.CreateMSPDirectory directory identity w = (None, w') ->
     (forall d, d ∈ msp_subdirectories directory -> fs w' !! d = Some Dir)
     /\ (forall f data, (f, data) ∈ msp_files directory identity ->
           fs w' !! f = Some (File data))
     /\ (id_ca identity = None ->
           fs w' !! (directory ++ ["cacerts"; "ca.pem"])
           = fs w !! (directory ++ ["cacerts"; "ca.pem"]))
     /\ (forall q, fs w' !! q = fs w !! q
                   \/ q `prefix_of` directory
                   \/ q ∈ msp_subdirectories directory
                   \/ q ∈ (msp_files directory identity).*1)).
  { intros w' H. destruct (CreateMSPDirectory_result _ _ _ _ H) as (Ha & Hb & Hd).
    repeat split; [exact Ha | exact Hb | | exact Hd].
    intros Hca. destruct (Hd (directory ++ ["cacerts"; "ca.pem"])) as [E | [P | [S | F]]].
    - exact E.
    - by apply app_prefix_self in P.
    - exfalso. unfold msp_subdirectories in S.
      repeat (apply elem_of_cons in S as [S | S]; [revert S; path_ne |]).
      by apply elem_of_nil in S.
    - exfalso. unfold msp_files in F. rewrite Hca in F. simpl in F.
      repeat (apply elem_of_cons in F as [F | F]; [revert F; path_ne |]).
      by apply elem_of_nil in F. }
  split; [exact General |].
  intros Hfresh Habove.
  destruct (CreateMSPDirectory_succeeds _ identity _ Hfresh Habove) as [w' H].
  exists w'. split; [exact H |].
  destruct (General w' H) as (Ha & Hb & _ & Hd).
  intros rel Hne.
  assert (Hsub : forall s, s ∈ ["admincerts"; "cacerts"; "keystore"; "signcerts"] ->
                           fs w' !! (directory ++ [s]) = Some Dir).
  { intros s Hs. apply Ha. unfold msp_subdirectories.
    repeat (apply elem_of_cons in Hs as [-> | Hs]); [elem_now .. |].
    by apply elem_of_nil in Hs. }
  assert (Hnone :
    rel <> ["admincerts"] -> rel <> ["cacerts"] -> rel <> ["keystore"] ->
    rel <> ["signcerts"] -> directory ++ rel ∉ (msp_files directory identity).*1 ->
    fs w' !! (directory ++ rel) = None).
  { intros N1 N2 N3 N4 NF.
    destruct (Hd (directory ++ rel)) as [E | [P | [S | F]]]; [| | |done].
    - rewrite E. apply Hfresh. by eexists.
    - by apply app_prefix_self in P.
    - exfalso. unfold msp_subdirectories in S.
      repeat (apply elem_of_cons in S as [S | S];
              [apply app_inv_head in S; congruence |]).
      by apply elem_of_nil in S. }
  unfold msp_layout.
  destruct (id_ca identity) as [ca|] eqn:Hca;
    repeat (rewrite lookup_insert; case_decide;
            [subst rel;
             first [ apply Hsub; elem_now
                   | apply Hb; unfold msp_files; rewrite Hca; simpl; elem_now ] |]);
    rewrite lookup_empty; apply Hnone; try congruence;
    unfold msp_files; rewrite Hca; simpl;
    intros F;
    repeat (apply elem_of_cons in F as [F | F];
            [apply app_inv_head in F; congruence |]);
    by apply elem_of_nil in F.
Qed.

(** C6, witness: the peer identity written to a fresh place. *)
Lemma CreateMSPDirectory_layout_witness :
  exists w',
    util.CreateMSPDirectory ["srv"; "peer1"; "msp"] Sample.peer_identity Sample.w0
    = (None, w')
    /\ fs w' !! ["srv"; "peer1"; "msp"; "keystore"; "key.pem"] = Some (File [Byte.x03])
    /\ fs w' !! ["srv"; "peer1"; "msp"; "signcerts"; "cert.pem"] = Some (File [Byte.x04])
    /\ fs w' !! ["srv"; "peer1"; "msp"; "cacerts"; "ca.pem"] = Some (File [Byte.x02])
    /\ fs w' !! ["srv"; "peer1"; "msp"; "admincerts"] = Some Dir
    /\ fs w' !! ["srv"; "peer1"; "msp"; "tlscacerts"] = None.
Proof.
  destruct (proj2 (CreateMSPDirectory_layout ["srv"; "peer1"; "msp"]
                     Sample.peer_identity Sample.w0)) as (w' & H & L).
  - intros q [k ->]. unfold Sample.w0, Sample.fs0. simpl.
    by rewrite !lookup_insert_ne, lookup_empty by discriminate.
  - intros q data [k Hk]. unfold Sample.w0, Sample.fs0. simpl.
    destruct q as [|a q]; [by rewrite !lookup_insert_ne, lookup_empty by discriminate |].
    injection Hk as <- _.
    by rewrite !lookup_insert_ne, lookup_empty by discriminate.
  - exists w'. split; [exact H |].
    repeat split.
    + exact (L ["keystore"; "key.pem"] ltac:(discriminate)).
    + exact (L ["signcerts"; "cert.pem"] ltac:(discriminate)).
    + exact (L ["cacerts"; "ca.pem"] ltac:(discriminate)).
    + exact (L ["admincerts"] ltac:(discriminate)).
    + exact (L ["tlscacerts"] ltac:(discriminate)).
Defined.

(** ** createConfig and the first part of Start *)

Section LaunchFacts.

Import peer.

Lemma createConfig_fs_only rt p dataDirectory mspDirectory w r w' :
  createConfig rt p dataDirectory mspDirectory w = (r, w') -> fs_only w w'.
Proof.
  unfold createConfig.
  destruct (loadTemplate rt w) as [e|config]; [intros [= <- <-]; apply fs_only_refl |].
  destruct (patchConfig _ _ _ _ config) as [e|config'];
    [intros [= <- <-]; apply fs_only_refl |].
  destruct (yaml_Marshal rt config') as [e|data];
    [intros [= <- <-]; apply fs_only_refl |].
  apply ioutil_WriteFile_fs_only.
Qed.

Lemma createConfig_ok rt p dataDirectory mspDirectory w w' :
  createConfig rt p dataDirectory mspDirectory w = (None, w') ->
  exists config config' data,
    loadTemplate rt w = Ok config
    /\ patchConfig rt p dataDirectory mspDirectory config = Ok config'
    /\ yaml_Marshal rt config' = Ok data
    /\ w' = mkWorld (<[directory p ++ ["config"; "core.yaml"] := File data]> (fs w))
                    (env w) (procs w)
                    (trace w ++ [EWriteFile (directory p ++ ["config"; "core.yaml"]) data]).
Proof.
  unfold createConfig.
  destruct (loadTemplate rt w) as [e|config]; [discriminate |].
  destruct (patchConfig _ _ _ _ config) as [e|config'] eqn:Hp; [discriminate |].
  destruct (yaml_Marshal rt config') as [e|data] eqn:Hm; [discriminate |].
  intros H%ioutil_WriteFile_ok. by exists config, config', data.
Qed.

Lemma createConfig_missing rt p dataDirectory mspDirectory w config s :
  loadTemplate rt w = Ok config ->
  has_section config s = false ->
  (forall s', section_rank s' < section_rank s -> has_section config s' = true) ->
  createConfig rt p dataDirectory mspDirectory w = (Some (missing_section_error s), w).
Proof.
  intros Hl Hs Hb. unfold createConfig. rewrite Hl. unfold Ok.
  by rewrite (patchConfig_missing rt p dataDirectory mspDirectory config s Hs Hb).
Qed.

(** A first part that fails has touched the file system only. *)
Lemma launch_err rt o p w e w' :
  launch rt o p w = (inl e, w') -> fs_only w w'.
Proof.
  unfold launch, createDirectories.
  destruct (mkdir_each _ w) as [[e1|] w1] eqn:H1;
    pose proof (mkdir_each_fs_only _ _ _ _ H1) as F1; [by intros [= <- <-] |].
  destruct (util.CreateMSPDirectory _ _ w1) as [[e2|] w2] eqn:H2;
    pose proof (fs_only_trans _ _ _ F1 (CreateMSPDirectory_fs_only _ _ _ _ _ H2)) as F2;
    [by intros [= <- <-] |].
  destruct (createConfig _ _ _ _ w2) as [[e3|] w3] eqn:H3;
    pose proof (fs_only_trans _ _ _ F2 (createConfig_fs_only _ _ _ _ _ _ _ H3)) as F3;
    [by intros [= <- <-] |].
  destruct (os_OpenFile_trunc _ w3) as [[e4|] w4] eqn:H4;
    pose proof (fs_only_trans _ _ _ F3 (os_OpenFile_trunc_fs_only _ _ _ _ H4)) as F4;
    [by intros [= <- <-] |].
  destruct (pipe_error o); [by intros [= <- <-] |].
  destruct (exec_error o); [by intros [= <- <-] |].
  discriminate.
Qed.

(** A first part that succeeds went through all its stages, and the
    child is the last thing it made. *)
Lemma launch_ok rt o p w pid w' :
  launch rt o p w = (inr pid, w') ->
  exists w1 w2 w3 w4,
    createDirectories p w = (None, w1)
    /\ util.CreateMSPDirectory (directory p ++ ["msp"]) (identity p) w1 = (None, w2)
    /\ createConfig rt p (directory p ++ ["data"]) (directory p ++ ["msp"]) w2 = (None, w3)
    /\ os_OpenFile_trunc (directory p ++ ["logs"; "peer.log"]) w3 = (None, w4)
    /\ pid = length (procs w4)
    /\ w' = mkWorld (fs w4) (env w4)
              (procs w4 ++ [mkProc "peer" ["node"; "start"]
                 (<["FABRIC_CFG_PATH" := path_to_string (directory p ++ ["config"])]> (env w3))
                 true false])
              (trace w4 ++ [ESpawn pid]).
Proof.
  unfold launch, path_Join.
  destruct (createDirectories p w) as [[e1|] w1] eqn:H1; [discriminate |].
  destruct (util.CreateMSPDirectory _ _ w1) as [[e2|] w2] eqn:H2; [discriminate |].
  destruct (createConfig _ _ _ _ w2) as [[e3|] w3] eqn:H3; [discriminate |].
  rewrite <- app_assoc. simpl.
  destruct (os_OpenFile_trunc _ w3) as [[e4|] w4] eqn:H4; [discriminate |].
  destruct (pipe_error o); [discriminate |].
  destruct (exec_error o); [discriminate |].
  unfold spawn. intros [= <- <-]. by exists w1, w2, w3, w4.
Qed.

Lemma os_OpenFile_trunc_ok p w w' :
  os_OpenFile_trunc p w = (None, w') ->
  w' = mkWorld (<[p := File []]> (fs w)) (env w) (procs w) (trace w ++ [EOpenFile p]).
Proof.
  unfold os_OpenFile_trunc.
  destruct (fs_WriteFile p [] (fs w)) as [[e|] f] eqn:H; intros [= <-].
  by rewrite (fs_WriteFile_ok _ _ _ _ H).
Qed.

(** The child of a successful first part: new, running, not waited for,
    and started with the node's configuration directory. *)
Lemma launch_child rt o p w pid w' :
  launch rt o p w = (inr pid, w') ->
  pid = length (procs w)
  /\ exists pr, procs w' = procs w ++ [pr]
       /\ alive pr = true /\ pdone pr = false /\ belongs_to p pr.
Proof.
  intros H. destruct (launch_ok _ _ _ _ _ _ H)
    as (w1 & w2 & w3 & w4 & H1 & H2 & H3 & H4 & -> & ->).
  assert (F : fs_only w w4).
  { eapply fs_only_trans; [by eapply mkdir_each_fs_only |].
    eapply fs_only_trans; [by eapply CreateMSPDirectory_fs_only |].
    eapply fs_only_trans; [by eapply createConfig_fs_only |].
    by eapply os_OpenFile_trunc_fs_only. }
  destruct F as (_ & Hp & _). simpl. rewrite Hp. split; [done |].
  eexists. split; [reflexivity |]. repeat split.
  unfold belongs_to. simpl. by rewrite lookup_insert_eq.
Qed.

End LaunchFacts.

(** C4: when the template lacks a required section, the sections asked
    for before it being there, [createConfig] fails with the error
    "core.yaml missing <section> section" and leaves the world as it was;
    [Start] returns this error, and up to then it has only made
    directories and written files: the process table is the one it
    found. *)
Theorem missing_section_stops_Start (rt : Runtime) (p : peer.Peer)
  (config : ymap) (s : required) :
  has_section config s = false ->
  (forall s', section_rank s' < section_rank s -> has_section config s' = true) ->
  (forall dataDirectory mspDirectory w,
     peer.loadTemplate rt w = Ok config ->
     peer.createConfig rt p dataDirectory mspDirectory w
     = (Some (missing_section_error s), w))
  /\ (forall o w0 w1 w,
        peer.createDirectories p w0 = (None, w1) ->
        util.CreateMSPDirectory (peer.directory p ++ ["msp"]) (peer.identity p) w1
        = (None, w) ->
        peer.loadTemplate rt w = Ok config ->
        peer.Start rt o p w0 = Some (Some (missing_section_error s), p, w)
        /\ procs w = procs w0
        /\ exists tr, trace w = trace w0 ++ tr
                      /\ Forall (fun e => is_spawn e = false) tr).
Proof.
  intros Hs Hb. split.
  - intros d m w Hl. by apply createConfig_missing with config.
  - intros o w0 w1 w H1 H2 Hl.
    assert (HS : peer.Start rt o p w0 = Some (Some (missing_section_error s), p, w)).
    { unfold peer.Start, peer.launch, path_Join. rewrite H1, H2.
      by rewrite (createConfig_missing rt p _ _ w config s Hl Hs Hb). }
    split; [exact HS |].
    assert (F : fs_only w0 w).
    { eapply fs_only_trans; [by eapply mkdir_each_fs_only |].
      by eapply CreateMSPDirectory_fs_only. }
    destruct F as (_ & Hp & tr & Ht & Hf). split; [exact Hp |].
    exists tr. split; [exact Ht |].
    eapply Forall_impl; [exact Hf |]. by intros [].
Qed.

(** C4, witness: the template on disk has no metrics section. *)
Lemma missing_section_stops_Start_witness :
  exists w,
    peer.Start Sample.rt (mkOracle None None []) Sample.p0 Sample.w_no_metrics
    = Some (Some (ErrNew "core.yaml missing metrics section"), Sample.p0, w)
    /\ procs w = [].
Proof.
  destruct (peer.createDirectories Sample.p0 Sample.w_no_metrics) as [r1 w1] eqn:H1.
  destruct (util.CreateMSPDirectory (peer.directory Sample.p0 ++ ["msp"])
              (peer.identity Sample.p0) w1) as [r2 w2] eqn:H2.
  assert (R1 : r1 = None) by (by vm_compute in H1; injection H1 as <- _).
  assert (R2 : r2 = None).
  { vm_compute in H1. injection H1 as _ <-. by vm_compute in H2; injection H2 as <- _. }
  subst r1 r2.
  destruct (proj2 (missing_section_stops_Start Sample.rt Sample.p0
                     Sample.template_no_metrics SMetrics eq_refl
                     ltac:(intros [] Hlt; (reflexivity || (simpl in Hlt; lia))))
              (mkOracle None None []) Sample.w_no_metrics w1 w2 H1 H2)
    as (HS & Hp & _).
  - vm_compute in H1. injection H1 as <-.
    vm_compute in H2. injection H2 as <-. vm_compute. reflexivity.
  - exists w2. split; [exact HS | exact Hp].
Defined.

(** ** The wait of Start *)

Section WaitFacts.

Import peer.

Lemma wait_ticks probes rest pid errchan p w :
  Forall (fun pr => hasStarted pr = false) probes ->
  wait ((EvTick <$> probes) ++ rest) pid errchan p w = wait rest pid errchan p w.
Proof.
  induction 1 as [|pr probes Hpr _ IH]; [done |].
  simpl. by rewrite Hpr.
Qed.

(** [Stop] on a child that has not been waited for. *)
Lemma Stop_running p w pid pr :
  command p = Some pid -> procs w !! pid = Some pr -> pdone pr = false ->
  Stop p w
  = (None, set_command p None,
     mkWorld (fs w) (env w)
       (<[pid := mkProc (proc_name pr) (proc_args pr) (proc_env pr) false false]> (procs w))
       (trace w ++ [EKill pid])).
Proof.
  intros Hc Hpr Hd. unfold Stop, Process_Kill. by rewrite Hc, Hpr, Hd.
Qed.

(** [Stop] on a child that has been waited for. *)
Lemma Stop_finished p w pid pr :
  command p = Some pid -> procs w !! pid = Some pr -> pdone pr = true ->
  Stop p w = (Some (ErrWithMessage (ErrSys ErrProcessDone) "failed to stop peer"), p, w).
Proof.
  intros Hc Hpr Hd. unfold Stop, Process_Kill. by rewrite Hc, Hpr, Hd.
Qed.

(** [Stop] writes no file and starts nothing. *)
Lemma Stop_frame p w r p' w' :
  Stop p w = (r, p', w') ->
  fs w' = fs w /\ env w' = env w
  /\ (trace w' = trace w \/ exists pid, command p = Some pid /\ trace w' = trace w ++ [EKill pid]).
Proof.
  unfold Stop. destruct (command p) as [pid|]; [|by intros [= _ _ <-]; auto].
  destruct (Process_Kill pid w) as [[e|] w1] eqn:Hk; intros [= _ _ <-].
  - destruct (Process_Kill_fails _ _ _ _ Hk) as (_ & -> & _). auto.
  - destruct (Process_Kill_succeeds _ _ _ Hk) as (pr & _ & _ & Hf & He & Ht & _).
    repeat split; [done | done |]. right. by exists pid.
Qed.

Lemma reap_frame pid w :
  fs (reap pid w) = fs w /\ env (reap pid w) = env w /\ trace (reap pid w) = trace w.
Proof. unfold reap. by destruct (procs w !! pid). Qed.

(** The wait writes no file and starts nothing; all it may do to the
    world is one kill of the peer's child. *)
Lemma wait_frame events : forall pid errchan p w r p' w',
  wait events pid errchan p w = Some (r, p', w') ->
  fs w' = fs w /\ env w' = env w
  /\ (trace w' = trace w
      \/ exists pid', command p = Some pid' /\ trace w' = trace w ++ [EKill pid']).
Proof.
  induction events as [|ev events IH]; intros pid errchan p w r p' w'; [discriminate |].
  destruct ev as [|x| |pr]; simpl.
  - destruct (Stop p w) as [[r0 p0] w0] eqn:HS. intros [= _ _ <-].
    by eapply Stop_frame.
  - destruct (procs w !! pid) as [pr|]; [|apply IH].
    destruct (pdone pr); [apply IH |]. intros H.
    destruct (IH _ _ _ _ _ _ _ H) as (Hf & He & Ht).
    destruct (reap_frame pid w) as (Rf & Re & Rt).
    rewrite Rf in Hf. rewrite Re in He. rewrite Rt in Ht. done.
  - destruct errchan as [err|]; [|discriminate].
    destruct (Stop p w) as [[r0 p0] w0] eqn:HS. intros [= _ _ <-].
    by eapply Stop_frame.
  - destruct (hasStarted pr); [|apply IH]. intros [= _ _ <-]. auto.
Qed.

End WaitFacts.

(** The first part of [Start], when it starts the child, has the MSP
    directory and the configuration document complete. *)
Lemma launch_prepared rt o p w pid w1 :
  peer.launch rt o p w = (inr pid, w1) ->
  exists pre, trace w1 = trace w ++ pre ++ [ESpawn pid] /\ prepared rt p pre (fs w1).
Proof.
  intros HL.
  destruct (launch_ok _ _ _ _ _ _ HL)
    as (wa & wb & wc & wd & H1 & H2 & H3 & H4 & Hpid & Hw1).
  pose proof (mkdir_each_fs_only _ _ _ _ H1) as (_ & _ & t1 & T1 & F1).
  destruct (CreateMSPDirectory_ok _ _ _ _ H2) as (wm & Hm & _ & Tm).
  pose proof (mkdir_each_fs_only _ _ _ _ Hm) as (_ & _ & tm & Tm' & Fm).
  destruct (CreateMSPDirectory_result _ _ _ _ H2) as (Rd & Rf & _).
  destruct (createConfig_ok _ _ _ _ _ _ H3)
    as (config & config' & data & _ & Hpc & Hmar & Hwc).
  apply os_OpenFile_trunc_ok in H4.
  remember (peer.directory p ++ ["config"; "core.yaml"]) as core eqn:Ecore.
  remember (peer.directory p ++ ["logs"; "peer.log"]) as logf eqn:Elogf.
  remember (msp_files (peer.directory p ++ ["msp"]) (peer.identity p)) as files eqn:Efiles.
  assert (Hfs1 : fs w1 = <[logf := File []]> (<[core := File data]> (fs wb))).
  { rewrite Hw1. simpl. rewrite H4. simpl. by rewrite Hwc. }
  assert (Htr1 : trace w1 = trace w
            ++ (t1 ++ tm ++ ((fun pd => EWriteFile pd.1 pd.2) <$> files)
                ++ [EWriteFile core data; EOpenFile logf])
            ++ [ESpawn pid]).
  { rewrite Hw1. simpl. rewrite H4. simpl. rewrite Hwc. simpl.
    rewrite Tm, Tm', T1. by rewrite <- !app_assoc. }
  assert (Hsub_ne : forall d, d ∈ msp_subdirectories (peer.directory p ++ ["msp"]) ->
                              d <> core /\ d <> logf).
  { intros d Hd. unfold msp_subdirectories in Hd.
    repeat (apply elem_of_cons in Hd as [-> | Hd]);
      [| | | | by apply elem_of_nil in Hd]; (split; subst core logf; path_ne). }
  assert (Hfile_ne : forall f b, (f, b) ∈ files -> f <> core /\ f <> logf).
  { intros f b Hin. subst files. unfold msp_files in Hin.
    destruct (id_ca (peer.identity p)); simpl in Hin;
      repeat (apply elem_of_cons in Hin as [[= -> _] | Hin];
              [split; subst core logf; path_ne |]);
      by apply elem_of_nil in Hin. }
  eexists. split; [exact Htr1 |].
  unfold prepared. rewrite <- Efiles, <- Ecore.
  split; [|split; [|split]].
  - repeat (apply Forall_app; split); [done | done | | by repeat constructor].
    apply Forall_fmap. by apply Forall_true.
  - intros d Hd. destruct (Hsub_ne d Hd) as [N1 N2].
    rewrite Hfs1, !lookup_insert_ne by done. by apply Rd.
  - intros f b Hin. destruct (Hfile_ne f b Hin) as [N1 N2]. split.
    + apply elem_of_app. right. apply elem_of_app. right. apply elem_of_app. left.
      apply list_elem_of_fmap. by exists (f, b).
    + rewrite Hfs1, !lookup_insert_ne by done. by apply Rf.
  - exists config, config', data. split; [exact Hpc |]. split; [exact Hmar |]. split.
    + apply elem_of_app. right. apply elem_of_app. right. apply elem_of_app. right.
      apply list_elem_of_here.
    + rewrite Hfs1. rewrite lookup_insert_ne by (subst core logf; path_ne).
      by rewrite lookup_insert_eq.
Qed.

(** C7: the first part of [Start], which always returns, either fails
    without having started anything, or starts the child as its last act,
    after the MSP files and core.yaml have been written completely
    ([prepared]) and with nothing but directories made and files written
    before.  Hence whenever [Start] returns, either no process was started
    during the call, or exactly one was, the writes are complete before
    it, the files hold their final content, and after the start the call
    did nothing but, at most, kill the child. *)
Theorem Start_writes_before_spawn (rt : Runtime) (o : Oracle) (p : peer.Peer) (w : World) :
  (forall e w1, peer.launch rt o p w = (inl e, w1) ->
     procs w1 = procs w
     /\ exists tr, trace w1 = trace w ++ tr /\ Forall (fun e => is_spawn e = false) tr)
  /\ (forall pid w1, peer.launch rt o p w = (inr pid, w1) ->
        exists pre, trace w1 = trace w ++ pre ++ [ESpawn pid]
                    /\ prepared rt p pre (fs w1))
  /\ (forall r p' w', peer.Start rt o p w = Some (r, p', w') ->
        (procs w' = procs w
         /\ exists tr, trace w' = trace w ++ tr
                       /\ Forall (fun e => is_spawn e = false) tr)
        \/ (exists pid pre post,
              trace w' = trace w ++ pre ++ ESpawn pid :: post
              /\ prepared rt p pre (fs w')
              /\ Forall (fun e => e = EKill pid) post)).
Proof.
  assert (Herr : forall e w1, peer.launch rt o p w = (inl e, w1) ->
     procs w1 = procs w
     /\ exists tr, trace w1 = trace w ++ tr /\ Forall (fun e => is_spawn e = false) tr).
  { intros e w1 HL.
    destruct (launch_err _ _ _ _ _ _ HL) as (_ & Hp & tr & Ht & Hf).
    split; [exact Hp |]. exists tr. split; [exact Ht |].
    eapply Forall_impl; [exact Hf |]. by intros []. }
  split; [exact Herr |]. split; [apply launch_prepared |].
  intros r p' w'. unfold peer.Start.
  destruct (peer.launch rt o p w) as [[e|pid] w1] eqn:HL.
  - intros [= <- <- <-]. left. by apply (Herr e).
  - intros HW. right.
    destruct (launch_prepared _ _ _ _ _ _ HL) as (pre & Htr1 & Hprep).
    destruct (wait_frame _ _ _ _ _ _ _ _ HW) as (Wf & _ & Wt).
    exists pid, pre.
    destruct Wt as [Wt | (pid' & Hc & Wt)].
    + exists []. rewrite Wf, Wt, Htr1. split; [done |]. split; [done | constructor].
    + simpl in Hc. injection Hc as <-. exists [EKill pid].
      rewrite Wf, Wt, Htr1. split; [by rewrite <- !app_assoc |].
      split; [done | by repeat constructor].
Qed.

(** C7, witness: a start of the sample peer that runs into the timeout. *)
Lemma Start_writes_before_spawn_witness :
  exists r p' w' pid pre post,
    peer.Start Sample.rt (mkOracle None None (quiet_schedule (fun _ => Sample.no_answer)))
      Sample.p0 Sample.w0 = Some (r, p', w')
    /\ trace w' = pre ++ ESpawn pid :: post
    /\ EWriteFile ["srv"; "peer1"; "msp"; "keystore"; "key.pem"] [Byte.x03] ∈ pre
    /\ fs w' !! ["srv"; "peer1"; "msp"; "keystore"; "key.pem"] = Some (File [Byte.x03]).
Proof.
  destruct (peer.Start Sample.rt
              (mkOracle None None (quiet_schedule (fun _ => Sample.no_answer)))
              Sample.p0 Sample.w0) as [[[r p'] w']|] eqn:H;
    [|vm_compute in H; discriminate].
  destruct (proj2 (proj2 (Start_writes_before_spawn _ _ _ _)) _ _ _ H)
    as [[Hp _] | (pid & pre & post & Ht & (_ & _ & Hf & _) & _)].
  - exfalso. vm_compute in H. injection H as _ _ <-. discriminate Hp.
  - exists r, p', w', pid, pre, post. split; [reflexivity |]. split; [exact Ht |].
    apply (Hf ["srv"; "peer1"; "msp"; "keystore"; "key.pem"] [Byte.x03]).
    apply list_elem_of_further, list_elem_of_here.
Defined.

(** ** Timeout and exit of the child *)

(** C1: when the first part of [Start] has started the child, every probe
    fails and the select takes the timeout before the child has ended,
    [Start] kills the child and returns the error "timeout whilst waiting
    for peer to start".  On return the peer holds no command, the child is
    not running, every process that is running was running before the
    call; so if no process of the node was running before, none is
    running now. *)
Theorem Start_timeout_kills (rt : Runtime) (o : Oracle) (p : peer.Peer) (w w1 : World)
  (pid : nat) (probes : list probe) (rest : list event) :
  peer.launch rt o p w = (Ok pid, w1) ->
  schedule o = (EvTick <$> probes) ++ EvTimeout :: rest ->
  Forall (fun pr => peer.hasStarted pr = false) probes ->
  exists w2,
    peer.Start rt o p w
    = Some (Some (ErrNew "timeout whilst waiting for peer to start"),
            peer.set_command p None, w2)
    /\ trace w2 = trace w1 ++ [EKill pid]
    /\ fs w2 = fs w1
    /\ (exists pr, procs w2 !! pid = Some pr /\ alive pr = false)
    /\ (forall q pr, procs w2 !! q = Some pr -> alive pr = true ->
          procs w !! q = Some pr)
    /\ ((forall q pr, procs w !! q = Some pr -> belongs_to p pr -> alive pr = false) ->
        forall q pr, procs w2 !! q = Some pr -> belongs_to p pr -> alive pr = false).
Proof.
  intros HL Hsched Hfail.
  destruct (launch_child _ _ _ _ _ _ HL) as (Hpid & child & Hprocs & Ha & Hd & Hb).
  assert (Hlook : procs w1 !! pid = Some child).
  { rewrite Hprocs, Hpid. by rewrite lookup_app_r, Nat.sub_diag by lia. }
  set (dead := mkProc (proc_name child) (proc_args child) (proc_env child) false false).
  set (w2 := mkWorld (fs w1) (env w1) (<[pid := dead]> (procs w1)) (trace w1 ++ [EKill pid])).
  assert (Hprocs2 : procs w2 = procs w ++ [dead]).
  { simpl. rewrite Hprocs, Hpid.
    rewrite insert_app_r_alt, Nat.sub_diag by lia. done. }
  assert (Halive : forall q pr, procs w2 !! q = Some pr -> alive pr = true ->
                                procs w !! q = Some pr).
  { intros q pr Hq Hal. rewrite Hprocs2 in Hq.
    apply lookup_app_Some in Hq as [Hq | [_ Hq]]; [done |].
    destruct (q - length (procs w)); simpl in Hq; [|done].
    injection Hq as <-. discriminate Hal. }
  exists w2. split; [|split; [done |split; [done |split; [|split; [exact Halive |]]]]].
  - unfold peer.Start. unfold Ok in HL. rewrite HL, Hsched.
    rewrite wait_ticks by done. simpl.
    by rewrite (Stop_running (peer.set_command p (Some pid)) w1 pid child eq_refl Hlook Hd).
  - exists dead. split; [|done].
    rewrite Hprocs2, Hpid. by rewrite lookup_app_r, Nat.sub_diag by lia.
  - intros Hbefore q pr Hq Hbel.
    destruct (alive pr) eqn:Hal; [|done].
    rewrite <- (Hbefore q pr); [done | by apply Halive | done].
Qed.

(** C1, witness: the sample peer, no answer to any probe, the ticks of ten
    seconds and then the timeout. *)
Lemma Start_timeout_kills_witness :
  exists w2,
    peer.Start Sample.rt (mkOracle None None (quiet_schedule (fun _ => Sample.no_answer)))
      Sample.p0 Sample.w0
    = Some (Some (ErrNew "timeout whilst waiting for peer to start"),
            peer.set_command Sample.p0 None, w2)
    /\ (exists pr, procs w2 !! 0 = Some pr /\ alive pr = false).
Proof.
  destruct (peer.launch Sample.rt
              (mkOracle None None (quiet_schedule (fun _ => Sample.no_answer)))
              Sample.p0 Sample.w0) as [r w1] eqn:HL.
  assert (Hr : r = Ok 0) by (by vm_compute in HL; injection HL as <- _).
  subst r.
  destruct (Start_timeout_kills Sample.rt _ Sample.p0 Sample.w0 w1 0
              (map (fun _ => Sample.no_answer) (seq 0 ticks_before_timeout)) [] HL)
    as (w2 & HS & _ & _ & Hdead & _).
  - vm_compute. reflexivity.
  - apply Forall_forall. intros pr Hin. apply list_elem_of_In, in_map_iff in Hin as (i & <- & _).
    reflexivity.
  - exists w2. split; [exact HS | exact Hdead].
Defined.

(** C3 (as the code has it): when the child ends with an error (that is,
    [cmd.Wait] returns a non-nil [cause]) before the timeout and before any
    probe has succeeded, the monitor puts [cause] into the one-slot channel,
    and when the select then receives from the channel, no probe having
    succeeded and the timeout not having been taken meanwhile, [Start]
    returns [cause] wrapped as "failed to start peer"; the child is not
    running.  When the child ends without an error ([cmd.Wait] returns
    nil) the monitor sends nothing, and [Start] goes on waiting: with every
    probe failing it ends in the timeout error. *)
Theorem Start_reports_failed_exit (rt : Runtime) (o : Oracle) (p : peer.Peer)
  (w w1 : World) (pid : nat) (probes1 probes2 : list probe) (rest : list event) :
  peer.launch rt o p w = (Ok pid, w1) ->
  Forall (fun pr => peer.hasStarted pr = false) probes1 ->
  Forall (fun pr => peer.hasStarted pr = false) probes2 ->
  (forall cause,
     schedule o = (EvTick <$> probes1) ++ EvExit (Some cause)
                    :: (EvTick <$> probes2) ++ EvErrchan :: rest ->
     peer.monitor (Some cause) None = Some cause
     /\ exists p' w2,
          peer.Start rt o p w
          = Some (Some (ErrWithMessage cause "failed to start peer"), p', w2)
          /\ exists pr, procs w2 !! pid = Some pr /\ alive pr = false /\ pdone pr = true)
  /\ (schedule o = (EvTick <$> probes1) ++ EvExit None
                     :: (EvTick <$> probes2) ++ EvTimeout :: rest ->
      peer.monitor None None = None
      /\ exists p' w2,
           peer.Start rt o p w
           = Some (Some (ErrNew "timeout whilst waiting for peer to start"), p', w2)).
Proof.
  intros HL Hf1 Hf2.
  destruct (launch_child _ _ _ _ _ _ HL) as (Hpid & child & Hprocs & Ha & Hd & Hb).
  assert (Hlook : procs w1 !! pid = Some child).
  { rewrite Hprocs, Hpid. by rewrite lookup_app_r, Nat.sub_diag by lia. }
  set (gone := mkProc (proc_name child) (proc_args child) (proc_env child) false true).
  assert (Hreap : procs (reap pid w1) !! pid = Some gone).
  { unfold reap. rewrite Hlook. simpl. apply list_lookup_insert_eq.
    by apply lookup_lt_Some in Hlook. }
  unfold Ok in HL. split.
  - intros cause Hsched. split; [done |].
    unfold peer.Start. rewrite HL, Hsched. rewrite wait_ticks by done.
    simpl. rewrite Hlook, Hd. rewrite wait_ticks by done. simpl.
    rewrite (Stop_finished (peer.set_command p (Some pid)) (reap pid w1) pid gone
               eq_refl Hreap eq_refl).
    do 2 eexists. split; [reflexivity |]. by exists gone.
  - intros Hsched. split; [done |].
    unfold peer.Start. rewrite HL, Hsched. rewrite wait_ticks by done.
    simpl. rewrite Hlook, Hd. rewrite wait_ticks by done. simpl.
    destruct (peer.Stop _ _) as [[r0 p0] w0]. eauto.
Qed.

(** C3, witness: the child of the sample peer ends with status 1 after two
    failed probes. *)
Lemma Start_reports_failed_exit_witness :
  exists p' w2,
    peer.Start Sample.rt
      (mkOracle None None
         [EvTick Sample.no_answer; EvTick Sample.no_answer;
          EvExit (Some (ErrSys (ExitError 1))); EvErrchan])
      Sample.p0 Sample.w0
    = Some (Some (ErrWithMessage (ErrSys (ExitError 1)) "failed to start peer"), p', w2).
Proof.
  destruct (peer.launch Sample.rt
              (mkOracle None None
                 [EvTick Sample.no_answer; EvTick Sample.no_answer;
                  EvExit (Some (ErrSys (ExitError 1))); EvErrchan])
              Sample.p0 Sample.w0) as [r w1] eqn:HL.
  assert (Hr : r = Ok 0) by (by vm_compute in HL; injection HL as <- _).
  subst r.
  destruct (proj1 (Start_reports_failed_exit Sample.rt _ Sample.p0 Sample.w0 w1 0
                     [Sample.no_answer; Sample.no_answer] [] [] HL
                     ltac:(by repeat constructor) ltac:(constructor))
              (ErrSys (ExitError 1)) eq_refl)
    as (_ & p' & w2 & HS & _).
  by exists p', w2.
Defined.

(** C3 as the specification states it fails: a child that ends cleanly is
    not reported; the select cannot receive from the channel, and the call
    ends in the timeout error. *)
Lemma Start_clean_exit_not_reported :
  (exists p' w2,
     peer.Start Sample.rt (mkOracle None None [EvExit None; EvTimeout]) Sample.p0 Sample.w0
     = Some (Some (ErrNew "timeout whilst waiting for peer to start"), p', w2))
  /\ peer.Start Sample.rt (mkOracle None None [EvExit None; EvErrchan]) Sample.p0 Sample.w0
     = None
  /\ ~ (forall rt o p w pid w1 probes r rest,
          peer.launch rt o p w = (Ok pid, w1) ->
          schedule o = (EvTick <$> probes) ++ EvExit r :: rest ->
          Forall (fun pr => peer.hasStarted pr = false) probes ->
          exists cause p' w2,
            peer.Start rt o p w
            = Some (Some (ErrWithMessage cause "failed to start peer"), p', w2)).
Proof.
  split; [do 2 eexists; vm_compute; reflexivity |].
  split; [vm_compute; reflexivity |].
  intros H.
  destruct (peer.launch Sample.rt (mkOracle None None [EvExit None; EvTimeout])
              Sample.p0 Sample.w0) as [r w1] eqn:HL.
  assert (Hr : r = Ok 0) by (by vm_compute in HL; injection HL as <- _).
  subst r.
  destruct (H Sample.rt _ Sample.p0 Sample.w0 0 w1 [] None [EvTimeout] HL eq_refl
              ltac:(constructor)) as (cause & p' & w2 & HS).
  vm_compute in HS. discriminate HS.
Qed.

(** * Further properties *)

(** ** Directories *)

Section DirectoryFacts.

Lemma pair_eta_fst {A B} (x : A * B) (a : A) : x.1 = a -> x = (a, x.2).
Proof. intros <-. by destruct x. Qed.

Lemma is_ok_true {A} (x : result A) : is_ok x = true -> exists a, x = Ok a.
Proof. destruct x as [e|a]; [discriminate | by exists a]. Qed.

Lemma returned_true {A} (test : A -> bool) (x : option A) :
  returned test x = true -> exists a, x = Some a /\ test a = true.
Proof. destruct x as [a|]; [by exists a | discriminate]. Qed.

(** A regular file on the way stops [mkdir_from] with ENOTDIR. *)
Lemma mkdir_from_blocked todo : forall above f,
  (exists l1 l2 data, todo = l1 ++ l2 /\ l1 <> []
                      /\ f !! (above ++ l1) = Some (File data)) ->
  exists f', mkdir_from above todo f = (Some (ErrSys ENOTDIR), f').
Proof.
  induction todo as [|c todo IH]; intros above f (l1 & l2 & data & Hs & Hne & Hf).
  - by destruct l1.
  - destruct l1 as [|c' l1]; [done |]. injection Hs as <- ->. simpl.
    destruct (f !! (above ++ [c])) as [[|data']|] eqn:Hd; [| eauto |].
    + destruct l1 as [|c'' l1]; [congruence |].
      apply IH. exists (c'' :: l1), l2, data. split; [done |]. split; [done |].
      by rewrite <- app_assoc.
    + destruct l1 as [|c'' l1]; [congruence |].
      apply IH. exists (c'' :: l1), l2, data. split; [done |]. split; [done |].
      rewrite lookup_insert_ne; [by rewrite <- app_assoc |].
      intros E. rewrite <- (app_nil_r (above ++ [c])) in E at 1.
      by apply app_inv_head in E.
Qed.

(** Where every directory on the way exists, [mkdir_from] changes nothing. *)
Lemma mkdir_from_present todo : forall above f,
  (forall l1 l2, todo = l1 ++ l2 -> l1 <> [] -> f !! (above ++ l1) = Some Dir) ->
  mkdir_from above todo f = (None, f).
Proof.
  induction todo as [|c todo IH]; intros above f Hd; [done |]. simpl.
  rewrite (Hd [c] todo eq_refl ltac:(done)). apply IH.
  intros l1 l2 -> Hne. rewrite <- app_assoc. by apply (Hd (c :: l1) l2).
Qed.

Lemma os_MkdirAll_present p w :
  (forall q, q `prefix_of` p -> q <> [] -> fs w !! q = Some Dir) ->
  os_MkdirAll p w = (None, with_fs w (fs w) (EMkdirAll p)).
Proof.
  intros Hd. unfold os_MkdirAll, fs_MkdirAll.
  rewrite mkdir_from_present; [done |].
  intros l1 l2 -> Hne. apply Hd; [by exists l2 | done].
Qed.

Lemma mkdir_each_present dirs : forall w,
  (forall q, on_the_way dirs q -> fs w !! q = Some Dir) ->
  exists w', mkdir_each dirs w = (None, w') /\ fs w' = fs w
             /\ env w' = env w /\ procs w' = procs w.
Proof.
  induction dirs as [|d dirs IH]; intros w Hd; simpl; [by exists w |].
  rewrite os_MkdirAll_present.
  - destruct (IH (with_fs w (fs w) (EMkdirAll d))) as (w' & H & Hf & He & Hp).
    + intros q (Hne & d' & Hin & Hpre). apply Hd. split; [done |].
      exists d'. split; [by right | done].
    + by exists w'.
  - intros q Hpre Hne. apply Hd. split; [done |]. exists d. split; [by left | done].
Qed.

Lemma on_the_way_peer p q :
  on_the_way (peer.peer_directories p) q ->
  q `prefix_of` peer.directory p
  \/ q ∈ [ peer.directory p ++ ["config"]; peer.directory p ++ ["data"];
           peer.directory p ++ ["logs"]; peer.directory p ++ ["msp"] ].
Proof.
  intros (_ & d & Hd & Hp). unfold peer.peer_directories, path_Join in Hd.
  repeat (apply elem_of_cons in Hd as [-> | Hd]);
    [by left | | | | | by apply elem_of_nil in Hd];
    (apply prefix_snoc in Hp as [Hp | ->]; [by left | right; elem_now]).
Qed.

End DirectoryFacts.

(** X1: whatever its outcome, [createDirectories] only adds directories:
    each path holds afterwards what it held before, or held nothing and is
    now a directory, and then it is the peer's directory, one of its
    ancestors, or one of config, data, logs and msp below it; environment
    and processes are as before.  When it succeeds, the peer's directory
    and these four hold directories. *)
Theorem createDirectories_adds_directories (p : peer.Peer) (w : World)
  (r : option error) (w' : World) :
  peer.createDirectories p w = (r, w') ->
  (forall q, fs w' !! q = fs w !! q
             \/ (fs w !! q = None /\ fs w' !! q = Some Dir
                 /\ (q `prefix_of` peer.directory p
                     \/ q ∈ [ peer.directory p ++ ["config"];
                              peer.directory p ++ ["data"];
                              peer.directory p ++ ["logs"];
                              peer.directory p ++ ["msp"] ])))
  /\ env w' = env w /\ procs w' = procs w
  /\ (r = None ->
      (peer.directory p <> [] -> fs w' !! peer.directory p = Some Dir)
      /\ forall s, s ∈ ["config"; "data"; "logs"; "msp"] ->
           fs w' !! (peer.directory p ++ [s]) = Some Dir).
Proof.
  unfold peer.createDirectories. intros H.
  destruct (mkdir_each_grows _ _ _ _ H) as [G D].
  destruct (mkdir_each_fs_only _ _ _ _ H) as (He & Hp & _).
  split; [|split; [done |split; [done |]]].
  - intros q. destruct (G q) as [E | (N & Dq & O)]; [by left |].
    right. repeat split; [done | done |]. by apply on_the_way_peer.
  - intros ->. specialize (D eq_refl). split.
    + intros Hne. apply D. split; [done |]. exists (peer.directory p).
      split; [by left | done].
    + intros s Hs. apply D. split; [by destruct (peer.directory p) |].
      exists (peer.directory p ++ [s]). split; [|done].
      unfold peer.peer_directories, path_Join.
      repeat (apply elem_of_cons in Hs as [-> | Hs]); [elem_now .. |].
      by apply elem_of_nil in Hs.
Qed.

(** X1, witness: the directories of the sample peer. *)
Lemma createDirectories_adds_directories_witness :
  fs (peer.createDirectories Sample.p0 Sample.w0).2 !! ["srv"; "peer1"; "logs"] = Some Dir.
Proof.
  assert (H : peer.createDirectories Sample.p0 Sample.w0
              = (None, (peer.createDirectories Sample.p0 Sample.w0).2)).
  { apply pair_eta_fst. vm_compute. reflexivity. }
  apply (proj2 (proj2 (proj2 (proj2
           (createDirectories_adds_directories Sample.p0 Sample.w0 None _ H))) eq_refl)
           "logs").
  elem_now.
Defined.

(** X2: [createDirectories] can be repeated: after a successful run, a
    second run succeeds as well and leaves the file system, the
    environment and the processes as the first run left them. *)
Theorem createDirectories_again (p : peer.Peer) (w w' : World) :
  peer.createDirectories p w = (None, w') ->
  exists w'', peer.createDirectories p w' = (None, w'')
              /\ fs w'' = fs w' /\ env w'' = env w' /\ procs w'' = procs w'.
Proof.
  unfold peer.createDirectories. intros H.
  destruct (mkdir_each_grows _ _ _ _ H) as [_ D].
  apply mkdir_each_present. by apply D.
Qed.

(** X2, witness: the sample peer. *)
Lemma createDirectories_again_witness :
  exists w'', peer.createDirectories Sample.p0
                (peer.createDirectories Sample.p0 Sample.w0).2 = (None, w'')
              /\ fs w'' = fs (peer.createDirectories Sample.p0 Sample.w0).2.
Proof.
  assert (H : peer.createDirectories Sample.p0 Sample.w0
              = (None, (peer.createDirectories Sample.p0 Sample.w0).2)).
  { apply pair_eta_fst. vm_compute. reflexivity. }
  destruct (createDirectories_again Sample.p0 Sample.w0 _ H) as (w'' & H2 & Hf & _).
  exists w''. split; [exact H2 | exact Hf].
Defined.

(** X3: when a regular file stands at the peer's directory or at one of
    its ancestors, [createDirectories] fails with ENOTDIR, and [Start]
    returns this error at once: the peer is unchanged, no process is
    started, and no regular file has been created or changed. *)
Theorem createDirectories_blocked (rt : Runtime) (o : Oracle) (p : peer.Peer)
  (w : World) (q : Path) (data : bytes) :
  q <> [] ->
  q `prefix_of` peer.directory p ->
  fs w !! q = Some (File data) ->
  exists w',
    peer.createDirectories p w = (Some (ErrSys ENOTDIR), w')
    /\ peer.Start rt o p w = Some (Some (ErrSys ENOTDIR), p, w')
    /\ procs w' = procs w
    /\ forall q' data', fs w' !! q' = Some (File data') <-> fs w !! q' = Some (File data').
Proof.
  intros Hne [k Hk] Hq.
  destruct (mkdir_from_blocked (peer.directory p) [] (fs w)) as [f' Hf'].
  { by exists q, k, data. }
  assert (HC : peer.createDirectories p w = (Some (ErrSys ENOTDIR), set_fs w f')).
  { unfold peer.createDirectories, peer.peer_directories. simpl.
    unfold os_MkdirAll, fs_MkdirAll. by rewrite Hf'. }
  exists (set_fs w f'). split; [exact HC |]. split; [|split; [done |]].
  - unfold peer.Start, peer.launch. by rewrite HC.
  - pose proof (fs_MkdirAll_lookup _ _ _ _ Hf') as G. simpl.
    intros q' data'. destruct (G q') as [E | (N & D & _)].
    + by rewrite E.
    + rewrite N, D. split; discriminate.
Qed.

(** X3, witness: a regular file where the sample peer's directory should
    be. *)
Lemma createDirectories_blocked_witness :
  exists w',
    peer.Start Sample.rt (mkOracle None None []) Sample.p0
      (mkWorld (<[["srv"] := File []]> Sample.fs0) ∅ [] [])
    = Some (Some (ErrSys ENOTDIR), Sample.p0, w').
Proof.
  destruct (createDirectories_blocked Sample.rt (mkOracle None None []) Sample.p0
              (mkWorld (<[["srv"] := File []]> Sample.fs0) ∅ [] []) ["srv"] [])
    as (w' & _ & HS & _).
  - discriminate.
  - by exists ["peer1"].
  - vm_compute. reflexivity.
  - by exists w'.
Defined.

(** ** The MSP directory, again *)

Section KeepsFacts.

Lemma keeps_except_refl paths f : keeps_except paths f f.
Proof. by repeat split. Qed.

Lemma keeps_except_trans paths f1 f2 f3 :
  keeps_except paths f1 f2 -> keeps_except paths f2 f3 -> keeps_except paths f1 f3.
Proof.
  intros (D1 & F1 & S1) (D2 & F2 & S2). repeat split; eauto.
Qed.

Lemma keeps_except_mono paths paths' f f' :
  (forall q, q ∈ paths -> q ∈ paths') ->
  keeps_except paths f f' -> keeps_except paths' f f'.
Proof.
  intros Hsub (D & F & S). repeat split; [done | | done].
  intros q data Hq Hout. apply F; [done |]. intros Hin. by apply Hout, Hsub.
Qed.

Lemma grows_dirs_keeps_except P paths f f' :
  grows_dirs P f f' -> keeps_except paths f f'.
Proof.
  intros G. repeat split.
  - intros q Hq. by eapply grows_dirs_keeps.
  - intros q data Hq _. by eapply grows_dirs_keeps.
  - intros q [n Hq]. exists n. by eapply grows_dirs_keeps.
Qed.

Lemma fs_WriteFile_inv p data f f' :
  fs_WriteFile p data f = (None, f') ->
  f' = <[p := File data]> f /\ p <> []
  /\ is_dir f (removelast p) = true /\ f !! p <> Some Dir.
Proof.
  unfold fs_WriteFile. destruct p as [|c p]; [discriminate |].
  destruct (is_dir f _) eqn:Hd.
  - destruct (f !! (c :: p)) as [[|?]|] eqn:Hp; [discriminate | |];
      by intros [= <-].
  - destruct (f !! removelast (c :: p)) as [[|?]|]; discriminate.
Qed.

Lemma fs_WriteFile_keeps paths p data f r f' :
  p ∈ paths -> fs_WriteFile p data f = (r, f') -> keeps_except paths f f'.
Proof.
  intros Hin H. destruct r as [e|].
  - rewrite (fs_WriteFile_err _ _ _ _ _ H). apply keeps_except_refl.
  - destruct (fs_WriteFile_inv _ _ _ _ H) as (-> & _ & _ & Hnd).
    repeat split.
    + intros q Hq. rewrite lookup_insert_ne; [done | congruence].
    + intros q d Hq Hout. rewrite lookup_insert_ne; [done |]. by intros ->.
    + intros q Hq. destruct (decide (p = q)) as [-> | Hne].
      * rewrite lookup_insert_eq. eauto.
      * by rewrite lookup_insert_ne.
Qed.

Lemma ioutil_WriteFile_keeps paths p data w r w' :
  p ∈ paths -> ioutil_WriteFile p data w = (r, w') ->
  keeps_except paths (fs w) (fs w').
Proof.
  intros Hin. unfold ioutil_WriteFile.
  destruct (fs_WriteFile p data (fs w)) as [[e|] f] eqn:H; intros [= <- <-];
    by eapply fs_WriteFile_keeps.
Qed.

Lemma os_OpenFile_trunc_keeps paths p w r w' :
  p ∈ paths -> os_OpenFile_trunc p w = (r, w') ->
  keeps_except paths (fs w) (fs w').
Proof.
  intros Hin. unfold os_OpenFile_trunc.
  destruct (fs_WriteFile p [] (fs w)) as [[e|] f] eqn:H; intros [= <- <-];
    by eapply fs_WriteFile_keeps.
Qed.

Lemma mkdir_each_keeps paths dirs w r w' :
  mkdir_each dirs w = (r, w') -> keeps_except paths (fs w) (fs w').
Proof.
  intros H. destruct (mkdir_each_grows _ _ _ _ H) as [G _].
  by eapply grows_dirs_keeps_except.
Qed.

Lemma CreateMSPDirectory_keeps directory identity w r w' :
  util.CreateMSPDirectory directory identity w = (r, w') ->
  keeps_except (msp_file_paths directory) (fs w) (fs w').
Proof.
  assert (Step : forall p data wa ra wb,
            p ∈ msp_file_paths directory ->
            keeps_except (msp_file_paths directory) (fs w) (fs wa) ->
            ioutil_WriteFile p data wa = (ra, wb) ->
            keeps_except (msp_file_paths directory) (fs w) (fs wb)).
  { intros p data wa ra wb Hin K H. eapply keeps_except_trans; [exact K |].
    by eapply ioutil_WriteFile_keeps. }
  unfold util.CreateMSPDirectory, path_Join.
  destruct (mkdir_each _ w) as [[e|] w1] eqn:H1;
    pose proof (mkdir_each_keeps (msp_file_paths directory) _ _ _ _ H1) as K1;
    [by intros [= <- <-] |].
  destruct (ioutil_WriteFile _ _ w1) as [[e|] w2] eqn:H2;
    (assert (K2 : keeps_except (msp_file_paths directory) (fs w) (fs w2))
       by (eapply (fun Hin => Step _ _ _ _ _ Hin K1 H2); unfold msp_file_paths; elem_now));
    [by intros [= <- <-] |].
  destruct (ioutil_WriteFile _ _ w2) as [[e|] w3] eqn:H3;
    (assert (K3 : keeps_except (msp_file_paths directory) (fs w) (fs w3))
       by (eapply (fun Hin => Step _ _ _ _ _ Hin K2 H3); unfold msp_file_paths; elem_now));
    [by intros [= <- <-] |].
  destruct (ioutil_WriteFile _ _ w3) as [[e|] w4] eqn:H4;
    (assert (K4 : keeps_except (msp_file_paths directory) (fs w) (fs w4))
       by (eapply (fun Hin => Step _ _ _ _ _ Hin K3 H4); unfold msp_file_paths; elem_now));
    [by intros [= <- <-] |].
  destruct (id_ca identity) as [ca|]; [|by intros [= <- <-]].
  destruct (ioutil_WriteFile _ _ w4) as [[e|] w5] eqn:H5;
    (assert (K5 : keeps_except (msp_file_paths directory) (fs w) (fs w5))
       by (eapply (fun Hin => Step _ _ _ _ _ Hin K4 H5); unfold msp_file_paths; elem_now));
    by intros [= <- <-].
Qed.

End KeepsFacts.

(** X4: whatever its outcome, [CreateMSPDirectory] removes nothing: every
    path that held a directory still holds one, every path that held
    something still holds something, and a regular file keeps its content
    unless it is one of config.yaml, keystore/key.pem, signcerts/cert.pem
    and cacerts/ca.pem of the directory. *)
Theorem CreateMSPDirectory_removes_nothing (directory : Path) (identity : Identity)
  (w : World) (r : option error) (w' : World) :
  util.CreateMSPDirectory directory identity w = (r, w') ->
  (forall q, fs w !! q = Some Dir -> fs w' !! q = Some Dir)
  /\ (forall q data, fs w !! q = Some (File data) ->
        q ∉ msp_file_paths directory -> fs w' !! q = Some (File data))
  /\ (forall q, is_Some (fs w !! q) -> is_Some (fs w' !! q))
  /\ env w' = env w /\ procs w' = procs w.
Proof.
  intros H. destruct (CreateMSPDirectory_keeps _ _ _ _ _ H) as (D & F & S).
  destruct (CreateMSPDirectory_fs_only _ _ _ _ _ H) as (He & Hp & _).
  by repeat split.
Qed.

(** X4, witness: the template of the sample world survives the writing of
    the peer's MSP directory. *)
Lemma CreateMSPDirectory_removes_nothing_witness :
  fs (util.CreateMSPDirectory ["srv"; "peer1"; "msp"] Sample.peer_identity Sample.w0).2
    !! ["etc"; "fabric"; "core.yaml"] = Some (File []).
Proof.
  apply (proj1 (proj2 (CreateMSPDirectory_removes_nothing
           ["srv"; "peer1"; "msp"] Sample.peer_identity Sample.w0 _ _
           (surjective_pairing _)))).
  - reflexivity.
  - unfold msp_file_paths. intros Hin.
    repeat (apply elem_of_cons in Hin as [Hin | Hin]; [discriminate Hin |]).
    by apply elem_of_nil in Hin.
Defined.

Section MspAgain.

Lemma ioutil_WriteFile_same p data w :
  p <> [] -> is_dir (fs w) (removelast p) = true -> fs w !! p = Some (File data) ->
  exists w', ioutil_WriteFile p data w = (None, w') /\ fs w' = fs w
             /\ env w' = env w /\ procs w' = procs w.
Proof.
  intros Hne Hd Hp. rewrite ioutil_WriteFile_succeeds; [| done | done | congruence].
  eexists. split; [reflexivity |]. simpl. by rewrite insert_id.
Qed.

(** Where the directories and the files of the identity are in place
    already, [CreateMSPDirectory] succeeds and leaves the file system as it
    is. *)
Lemma CreateMSPDirectory_present directory identity w :
  (forall q, on_the_way (util.msp_directories directory) q -> fs w !! q = Some Dir) ->
  (forall f b, (f, b) ∈ msp_files directory identity -> fs w !! f = Some (File b)) ->
  exists w', util.CreateMSPDirectory directory identity w = (None, w')
             /\ fs w' = fs w /\ env w' = env w /\ procs w' = procs w.
Proof.
  intros Dw Hfile.
  destruct (mkdir_each_present _ w Dw) as (wa & Ha & Fa & Ea & Pa).
  assert (Dsub : forall s, s ∈ ["admincerts"; "cacerts"; "keystore"; "signcerts"] ->
                           is_dir (fs w) (directory ++ [s]) = true).
  { intros s Hs. apply is_dir_intro. intros _. apply Dw.
    apply msp_subdirectories_on_the_way. unfold msp_subdirectories.
    repeat (apply elem_of_cons in Hs as [-> | Hs]); [elem_now .. |].
    by apply elem_of_nil in Hs. }
  assert (Ddir : is_dir (fs w) directory = true).
  { apply is_dir_intro. intros Hne. apply Dw. split; [done |].
    exists directory. split; [by left | done]. }
  unfold util.CreateMSPDirectory, path_Join. rewrite Ha.
  destruct (ioutil_WriteFile_same (directory ++ ["config.yaml"])
              (list_byte_of_string util.config) wa) as (wb & Hb & Fb & Eb & Pb).
  { apply app_ne_nil. }
  { by rewrite removelast_one, Fa. }
  { rewrite Fa. apply Hfile. unfold msp_files. elem_now. }
  rewrite Hb.
  destruct (ioutil_WriteFile_same (directory ++ ["keystore"; "key.pem"])
              (id_privateKey identity) wb) as (wc & Hc & Fc & Ec & Pc).
  { apply app_ne_nil. }
  { rewrite removelast_two, Fb, Fa. apply Dsub. elem_now. }
  { rewrite Fb, Fa. apply Hfile. unfold msp_files. elem_now. }
  rewrite Hc.
  destruct (ioutil_WriteFile_same (directory ++ ["signcerts"; "cert.pem"])
              (id_certificate identity) wc) as (wd & Hd & Fd & Ed & Pd).
  { apply app_ne_nil. }
  { rewrite removelast_two, Fc, Fb, Fa. apply Dsub. elem_now. }
  { rewrite Fc, Fb, Fa. apply Hfile. unfold msp_files. elem_now. }
  rewrite Hd.
  destruct (id_ca identity) as [ca|] eqn:Hca.
  - destruct (ioutil_WriteFile_same (directory ++ ["cacerts"; "ca.pem"]) ca wd)
      as (we & He & Fe & Ee & Pe).
    { apply app_ne_nil. }
    { rewrite removelast_two, Fd, Fc, Fb, Fa. apply Dsub. elem_now. }
    { rewrite Fd, Fc, Fb, Fa. apply Hfile. unfold msp_files. rewrite Hca. elem_now. }
    rewrite He. exists we. split; [done |]. repeat split; congruence.
  - exists wd. split; [done |]. repeat split; congruence.
Qed.

(** After a successful run the directories on the way are in place. *)
Lemma CreateMSPDirectory_on_the_way directory identity w w' :
  util.CreateMSPDirectory directory identity w = (None, w') ->
  forall q, on_the_way (util.msp_directories directory) q -> fs w' !! q = Some Dir.
Proof.
  intros H q O.
  destruct (CreateMSPDirectory_ok _ _ _ _ H) as (w1 & H1 & Hfs & _).
  destruct (mkdir_each_grows _ _ _ _ H1) as [_ D]. specialize (D eq_refl).
  rewrite Hfs, write_all_other; [by apply D |].
  intros Hin. apply on_the_way_msp in O as [O | O].
  - unfold msp_files in Hin. destruct (id_ca identity); simpl in Hin;
      repeat (apply elem_of_cons in Hin as [-> | Hin];
              [by apply app_prefix_self in O |]);
      by apply elem_of_nil in Hin.
  - by apply (msp_files_not_subdir directory identity q).
Qed.

End MspAgain.

(** X5: [CreateMSPDirectory] can be repeated: after a successful run, a
    second run with the same identity succeeds and leaves the file system
    exactly as the first run left it. *)
Theorem CreateMSPDirectory_again (directory : Path) (identity : Identity) (w w' : World) :
  util.CreateMSPDirectory directory identity w = (None, w') ->
  exists w'', util.CreateMSPDirectory directory identity w' = (None, w'')
              /\ fs w'' = fs w' /\ env w'' = env w' /\ procs w'' = procs w'.
Proof.
  intros H. apply CreateMSPDirectory_present.
  - by eapply CreateMSPDirectory_on_the_way.
  - by destruct (CreateMSPDirectory_result _ _ _ _ H) as (_ & Rf & _).
Qed.

(** X5, witness: the MSP directory of the sample peer, written twice. *)
Lemma CreateMSPDirectory_again_witness :
  exists w'',
    util.CreateMSPDirectory ["srv"; "peer1"; "msp"] Sample.peer_identity
      (util.CreateMSPDirectory ["srv"; "peer1"; "msp"] Sample.peer_identity Sample.w0).2
    = (None, w'')
    /\ fs w'' = fs (util.CreateMSPDirectory ["srv"; "peer1"; "msp"]
                      Sample.peer_identity Sample.w0).2.
Proof.
  assert (H : util.CreateMSPDirectory ["srv"; "peer1"; "msp"] Sample.peer_identity Sample.w0
              = (None, (util.CreateMSPDirectory ["srv"; "peer1"; "msp"]
                          Sample.peer_identity Sample.w0).2)).
  { apply pair_eta_fst. vm_compute. reflexivity. }
  destruct (CreateMSPDirectory_again _ _ _ _ H) as (w'' & H2 & Hf & _).
  exists w''. split; [exact H2 | exact Hf].
Defined.

(** ** Configuration synthesis, again *)

Section PatchFacts.

Import peer.

(** A successful [patchConfig] found its six sections and the home
    directory, and its result is the template with the patched sections
    stored back. *)
Lemma patchConfig_ok rt p dataDirectory mspDirectory config config' :
  patchConfig rt p dataDirectory mspDirectory config = Ok config' ->
  exists peer gossip metrics operations vm chaincode home,
    as_map config "peer" = Some peer
    /\ as_map peer "gossip" = Some gossip
    /\ as_map config "metrics" = Some metrics
    /\ as_map config "operations" = Some operations
    /\ as_map config "vm" = Some vm
    /\ as_map config "chaincode" = Some chaincode
    /\ GetHomeDirectory rt = Ok home
    /\ config' =
       yset "chaincode" (YMap (yset "externalBuilders" (externalBuilders home) chaincode))
       (yset "vm" (YMap (yset "endpoint" (YStr "") vm))
       (yset "operations"
          (YMap (yset "listenAddress"
                   (YStr ("0.0.0.0:" +:+ fmt_d (operationsPort p))) operations))
       (yset "metrics" (YMap (yset "provider" (YStr "prometheus") metrics))
       (yset "peer"
          (YMap (yset "gossip"
                   (YMap (yset "externalEndpoint" (YStr (url.Host (apiURL p)))
                         (yset "endpoint" (YStr (url.Host (apiURL p)))
                         (yset "orgLeader" (YBool true)
                         (yset "useLeaderElection" (YBool false)
                         (yset "bootstrap" (YStr (url.Host (apiURL p))) gossip))))))
                (yset "chaincodeListenAddress"
                   (YStr ("0.0.0.0:" +:+ fmt_d (chaincodePort p)))
                (yset "listenAddress" (YStr ("0.0.0.0:" +:+ fmt_d (apiPort p)))
                (yset "address" (YStr ("0.0.0.0:" +:+ fmt_d (apiPort p)))
                (yset "fileSystemPath" (YStr (path_to_string dataDirectory))
                (yset "localMspId" (YStr (mspID p))
                (yset "mspConfigPath" (YStr (path_to_string mspDirectory))
                (yset "id" (YStr (ToLower (org_name (organization p)) +:+ "peer"))
                   peer)))))))))
          config)))).
Proof.
  unfold patchConfig.
  destruct (as_map config "peer") as [peer|] eqn:Hpeer; [|discriminate].
  rewrite as_map_gossip_after_fields.
  destruct (as_map peer "gossip") as [gossip|] eqn:Hgossip; [|discriminate].
  rewrite as_map_yset_ne by discriminate.
  destruct (as_map config "metrics") as [metrics|] eqn:Hmetrics; [|discriminate].
  rewrite !as_map_yset_ne by discriminate.
  destruct (as_map config "operations") as [operations|] eqn:Hoperations; [|discriminate].
  rewrite !as_map_yset_ne by discriminate.
  destruct (as_map config "vm") as [vm|] eqn:Hvm; [|discriminate].
  rewrite !as_map_yset_ne by discriminate.
  destruct (as_map config "chaincode") as [chaincode|] eqn:Hchaincode; [|discriminate].
  destruct (GetHomeDirectory rt) as [e|home] eqn:Hhome; [discriminate |].
  intros [= <-]. by exists peer, gossip, metrics, operations, vm, chaincode, home.
Qed.

Lemma yset_lookup_eq (m : ymap) k v : yset k v m !! KStr k = Some v.
Proof. apply lookup_insert_eq. Qed.

Lemma yset_lookup_ne (m : ymap) k v k' : KStr k <> k' -> yset k v m !! k' = m !! k'.
Proof. intros H. by apply lookup_insert_ne. Qed.

Lemma yset_same (m : ymap) k v : m !! KStr k = Some v -> yset k v m = m.
Proof. apply insert_id. Qed.

End PatchFacts.

(** Look a key up in a map built by [yset]s. *)
Ltac yset_lookup :=
  repeat first
    [ rewrite yset_lookup_eq
    | rewrite yset_lookup_ne by congruence
    | rewrite as_map_yset_eq
    | rewrite as_map_yset_ne by congruence ].



(** X7: [patchConfig] leaves alone what it does not set.  Every top-level
    key other than peer, metrics, operations, vm and chaincode holds in
    the result what it held in the template, and inside each of these
    sections (and inside peer.gossip) every key other than the ones the
    code assigns is as in the template. *)
Theorem patchConfig_keeps_other_keys (rt : Runtime) (p : peer.Peer)
  (dataDirectory mspDirectory : Path) (config config' : ymap) :
  peer.patchConfig rt p dataDirectory mspDirectory config = Ok config' ->
  (forall k, k ∉ [KStr "peer"; KStr "metrics"; KStr "operations"; KStr "vm";
                  KStr "chaincode"] ->
             config' !! k = config !! k)
  /\ (exists peer peer' gossip gossip',
        as_map config "peer" = Some peer /\ as_map config' "peer" = Some peer'
        /\ as_map peer "gossip" = Some gossip /\ as_map peer' "gossip" = Some gossip'
        /\ (forall k, k ∉ [KStr "id"; KStr "mspConfigPath"; KStr "localMspId";
                           KStr "fileSystemPath"; KStr "address"; KStr "listenAddress";
                           KStr "chaincodeListenAddress"; KStr "gossip"] ->
                      peer' !! k = peer !! k)
        /\ (forall k, k ∉ [KStr "bootstrap"; KStr "useLeaderElection"; KStr "orgLeader";
                           KStr "endpoint"; KStr "externalEndpoint"] ->
                      gossip' !! k = gossip !! k))
  /\ (exists metrics metrics' operations operations' vm vm' chaincode chaincode',
        as_map config "metrics" = Some metrics /\ as_map config' "metrics" = Some metrics'
        /\ as_map config "operations" = Some operations
        /\ as_map config' "operations" = Some operations'
        /\ as_map config "vm" = Some vm /\ as_map config' "vm" = Some vm'
        /\ as_map config "chaincode" = Some chaincode
        /\ as_map config' "chaincode" = Some chaincode'
        /\ (forall k, k <> KStr "provider" -> metrics' !! k = metrics !! k)
        /\ (forall k, k <> KStr "listenAddress" -> operations' !! k = operations !! k)
        /\ (forall k, k <> KStr "endpoint" -> vm' !! k = vm !! k)
        /\ (forall k, k <> KStr "externalBuilders" -> chaincode' !! k = chaincode !! k)).
Proof.
  intros H.
  destruct (patchConfig_ok _ _ _ _ _ _ H)
    as (peer & gossip & metrics & operations & vm & chaincode & home
        & Hpeer & Hgossip & Hmetrics & Hoperations & Hvm & Hchaincode & _ & ->).
  split; [|split].
  - intros k Hk. rewrite !not_elem_of_cons in Hk.
    destruct Hk as (? & ? & ? & ? & ? & _). by yset_lookup.
  - exists peer. eexists. exists gossip. eexists.
    split; [done |]. split; [yset_lookup; reflexivity |].
    split; [done |]. split; [yset_lookup; reflexivity |]. split.
    + intros k Hk. rewrite !not_elem_of_cons in Hk.
      destruct Hk as (? & ? & ? & ? & ? & ? & ? & ? & _). by yset_lookup.
    + intros k Hk. rewrite !not_elem_of_cons in Hk.
      destruct Hk as (? & ? & ? & ? & ? & _). by yset_lookup.
  - exists metrics. eexists. exists operations. eexists. exists vm. eexists.
    exists chaincode. eexists.
    split; [done |]. split; [yset_lookup; reflexivity |].
    split; [done |]. split; [yset_lookup; reflexivity |].
    split; [done |]. split; [yset_lookup; reflexivity |].
    split; [done |]. split; [yset_lookup; reflexivity |].
    repeat split; intros k Hk; by yset_lookup.
Qed.

(** X7, witness: a key of its own in the template. *)
Lemma patchConfig_keeps_other_keys_witness :
  exists config',
    peer.patchConfig Sample.rt Sample.p0 ["d"] ["m"]
      (yset "ledger" (YStr "x") Sample.template) = Ok config'
    /\ config' !! KStr "ledger" = Some (YStr "x").
Proof.
  destruct (is_ok_true (peer.patchConfig Sample.rt Sample.p0 ["d"] ["m"]
                          (yset "ledger" (YStr "x") Sample.template)))
    as [config' H]; [vm_compute; reflexivity |].
  exists config'. split; [exact H |].
  rewrite (proj1 (patchConfig_keeps_other_keys _ _ _ _ _ _ H) (KStr "ledger")).
  - reflexivity.
  - intros Hin. repeat (apply elem_of_cons in Hin as [Hin | Hin]; [discriminate Hin |]).
    by apply elem_of_nil in Hin.
Defined.

(** X8: [patchConfig] reaches a fixed point at once: given its own result
    as template, it returns that document unchanged. *)
Theorem patchConfig_idempotent (rt : Runtime) (p : peer.Peer)
  (dataDirectory mspDirectory : Path) (config config' : ymap) :
  peer.patchConfig rt p dataDirectory mspDirectory config = Ok config' ->
  peer.patchConfig rt p dataDirectory mspDirectory config' = Ok config'.
Proof.
  intros H.
  destruct (patchConfig_ok _ _ _ _ _ _ H)
    as (peer & gossip & metrics & operations & vm & chaincode & home
        & _ & _ & _ & _ & _ & _ & Hhome & ->).
  unfold peer.patchConfig.
  rewrite !as_map_yset_ne by discriminate. rewrite as_map_yset_eq.
  rewrite (yset_same _ "id") by (by yset_lookup).
  rewrite (yset_same _ "mspConfigPath") by (by yset_lookup).
  rewrite (yset_same _ "localMspId") by (by yset_lookup).
  rewrite (yset_same _ "fileSystemPath") by (by yset_lookup).
  rewrite (yset_same _ "address") by (by yset_lookup).
  rewrite (yset_same _ "listenAddress") by (by yset_lookup).
  rewrite (yset_same _ "chaincodeListenAddress") by (by yset_lookup).
  rewrite as_map_yset_eq.
  rewrite (yset_same _ "bootstrap") by (by yset_lookup).
  rewrite (yset_same _ "useLeaderElection") by (by yset_lookup).
  rewrite (yset_same _ "orgLeader") by (by yset_lookup).
  rewrite (yset_same _ "endpoint") by (by yset_lookup).
  rewrite (yset_same _ "externalEndpoint") by (by yset_lookup).
  rewrite (yset_same _ "gossip") by (by yset_lookup).
  rewrite (yset_same _ "peer") by (by yset_lookup).
  rewrite !as_map_yset_ne by discriminate. rewrite as_map_yset_eq.
  rewrite (yset_same _ "provider") by (by yset_lookup).
  rewrite (yset_same _ "metrics") by (by yset_lookup).
  rewrite !as_map_yset_ne by discriminate. rewrite as_map_yset_eq.
  rewrite (yset_same _ "listenAddress") by (by yset_lookup).
  rewrite (yset_same _ "operations") by (by yset_lookup).
  rewrite !as_map_yset_ne by discriminate. rewrite as_map_yset_eq.
  rewrite (yset_same _ "endpoint") by (by yset_lookup).
  rewrite (yset_same _ "vm") by (by yset_lookup).
  rewrite as_map_yset_eq. rewrite Hhome. unfold Ok. cbv beta iota.
  rewrite (yset_same _ "externalBuilders") by (by yset_lookup).
  rewrite (yset_same _ "chaincode") by (by yset_lookup).
  reflexivity.
Qed.

(** X8, witness: the sample template, patched twice. *)
Lemma patchConfig_idempotent_witness :
  exists config',
    peer.patchConfig Sample.rt Sample.p0 ["d"] ["m"] Sample.template = Ok config'
    /\ peer.patchConfig Sample.rt Sample.p0 ["d"] ["m"] config' = Ok config'.
Proof.
  destruct (is_ok_true (peer.patchConfig Sample.rt Sample.p0 ["d"] ["m"] Sample.template))
    as [config' H]; [vm_compute; reflexivity |].
  exists config'. split; [exact H |].
  exact (patchConfig_idempotent _ _ _ _ _ _ H).
Defined.

(** ** createConfig and the first part of Start, again *)

Section ConfigWorld.

Import peer.

Lemma ioutil_WriteFile_failed p data w e w' :
  ioutil_WriteFile p data w = (Some e, w') -> w' = w.
Proof.
  unfold ioutil_WriteFile.
  destruct (fs_WriteFile p data (fs w)) as [[e'|] f] eqn:H; intros [= <- <-].
  rewrite (fs_WriteFile_err _ _ _ _ _ H). apply set_fs_same.
Qed.

Lemma createConfig_keeps paths rt p dataDirectory mspDirectory w r w' :
  directory p ++ ["config"; "core.yaml"] ∈ paths ->
  createConfig rt p dataDirectory mspDirectory w = (r, w') ->
  keeps_except paths (fs w) (fs w').
Proof.
  intros Hin. unfold createConfig.
  destruct (loadTemplate rt w) as [e|config];
    [intros [= <- <-]; apply keeps_except_refl |].
  destruct (patchConfig _ _ _ _ config) as [e|config'];
    [intros [= <- <-]; apply keeps_except_refl |].
  destruct (yaml_Marshal rt config') as [e|data];
    [intros [= <- <-]; apply keeps_except_refl |].
  by apply ioutil_WriteFile_keeps.
Qed.

End ConfigWorld.

(** X9: [createConfig] writes one file or nothing.  Without
    FABRIC_CFG_PATH in the environment it returns "FABRIC_CFG_PATH not
    defined"; whenever it returns an error, for whatever reason, the
    world is as it was; and when it succeeds, the world differs by one
    write only, that of config/core.yaml below the peer's directory, which
    holds the encoding of the patched template. *)
Theorem createConfig_one_write_or_nothing (rt : Runtime) (p : peer.Peer)
  (dataDirectory mspDirectory : Path) (w : World) :
  (env w !! "FABRIC_CFG_PATH" = None ->
   peer.createConfig rt p dataDirectory mspDirectory w
   = (Some (ErrNew "FABRIC_CFG_PATH not defined"), w))
  /\ (forall e w', peer.createConfig rt p dataDirectory mspDirectory w = (Some e, w') ->
        w' = w)
  /\ (forall w', peer.createConfig rt p dataDirectory mspDirectory w = (None, w') ->
        exists config config' data,
          peer.loadTemplate rt w = Ok config
          /\ peer.patchConfig rt p dataDirectory mspDirectory config = Ok config'
          /\ yaml_Marshal rt config' = Ok data
          /\ fs w' = <[peer.directory p ++ ["config"; "core.yaml"] := File data]> (fs w)
          /\ trace w' = trace w ++ [EWriteFile (peer.directory p ++ ["config"; "core.yaml"]) data]
          /\ env w' = env w /\ procs w' = procs w).
Proof.
  split; [|split].
  - intros He. unfold peer.createConfig, peer.loadTemplate. by rewrite He.
  - intros e w'. unfold peer.createConfig.
    destruct (peer.loadTemplate rt w) as [e1|config]; [by intros [= _ <-] |].
    destruct (peer.patchConfig _ _ _ _ config) as [e2|config']; [by intros [= _ <-] |].
    destruct (yaml_Marshal rt config') as [e3|data]; [by intros [= _ <-] |].
    apply ioutil_WriteFile_failed.
  - intros w' H.
    destruct (createConfig_ok _ _ _ _ _ _ H) as (config & config' & data & Hl & Hp & Hm & ->).
    by exists config, config', data.
Qed.

(** X9, witness: the sample world without its environment. *)
Lemma createConfig_one_write_or_nothing_witness :
  peer.createConfig Sample.rt Sample.p0 ["d"] ["m"] (mkWorld Sample.fs0 ∅ [] [])
  = (Some (ErrNew "FABRIC_CFG_PATH not defined"), mkWorld Sample.fs0 ∅ [] []).
Proof.
  apply (proj1 (createConfig_one_write_or_nothing Sample.rt Sample.p0 ["d"] ["m"]
                  (mkWorld Sample.fs0 ∅ [] []))).
  reflexivity.
Defined.

Section LaunchKeeps.

Import peer.

Lemma launch_keeps rt o p w r w1 :
  launch rt o p w = (r, w1) -> keeps_except (peer_outputs p) (fs w) (fs w1).
Proof.
  assert (Hmsp : forall q, q ∈ msp_file_paths (directory p ++ ["msp"]) ->
                           q ∈ peer_outputs p).
  { intros q Hq. unfold peer_outputs. apply elem_of_app. by left. }
  assert (Hcore : directory p ++ ["config"; "core.yaml"] ∈ peer_outputs p).
  { unfold peer_outputs. apply elem_of_app. right. elem_now. }
  assert (Hlog : directory p ++ ["logs"; "peer.log"] ∈ peer_outputs p).
  { unfold peer_outputs. apply elem_of_app. right. elem_now. }
  unfold launch, createDirectories, path_Join.
  destruct (mkdir_each _ w) as [[e1|] wa] eqn:H1;
    pose proof (mkdir_each_keeps (peer_outputs p) _ _ _ _ H1) as K1;
    [by intros [= <- <-] |].
  destruct (util.CreateMSPDirectory _ _ wa) as [[e2|] wb] eqn:H2;
    pose proof (keeps_except_trans _ _ _ _ K1
      (keeps_except_mono _ _ _ _ Hmsp (CreateMSPDirectory_keeps _ _ _ _ _ H2))) as K2;
    [by intros [= <- <-] |].
  destruct (createConfig _ _ _ _ wb) as [[e3|] wc] eqn:H3;
    pose proof (keeps_except_trans _ _ _ _ K2
      (createConfig_keeps _ _ _ _ _ _ _ _ Hcore H3)) as K3;
    [by intros [= <- <-] |].
  rewrite <- app_assoc. simpl.
  destruct (os_OpenFile_trunc _ wc) as [[e4|] wd] eqn:H4;
    pose proof (keeps_except_trans _ _ _ _ K3
      (os_OpenFile_trunc_keeps _ _ _ _ _ Hlog H4)) as K4;
    [by intros [= <- <-] |].
  destruct (pipe_error o); [by intros [= <- <-] |].
  destruct (exec_error o); [by intros [= <- <-] |].
  unfold spawn. by intros [= <- <-].
Qed.

End LaunchKeeps.

(** X10: a start never removes or damages what is on disk.  Through the
    first part of [Start], whatever its outcome, and through any [Start]
    that returns, every directory stays a directory, every path that held
    something still holds something, and every regular file keeps its
    content unless it is one of the six files the start writes: the four
    MSP files, config/core.yaml and logs/peer.log below the peer's
    directory.  The template, in particular, is not touched unless it
    lies at one of these paths. *)
Theorem Start_keeps_files (rt : Runtime) (o : Oracle) (p : peer.Peer) (w : World) :
  (forall r w1, peer.launch rt o p w = (r, w1) ->
     keeps_except (peer_outputs p) (fs w) (fs w1))
  /\ (forall r p' w', peer.Start rt o p w = Some (r, p', w') ->
        (forall q, fs w !! q = Some Dir -> fs w' !! q = Some Dir)
        /\ (forall q data, fs w !! q = Some (File data) -> q ∉ peer_outputs p ->
              fs w' !! q = Some (File data))
        /\ (forall q, is_Some (fs w !! q) -> is_Some (fs w' !! q))).
Proof.
  split; [intros r w1; apply launch_keeps |].
  intros r p' w'. unfold peer.Start.
  destruct (peer.launch rt o p w) as [[e|pid] w1] eqn:HL;
    pose proof (launch_keeps _ _ _ _ _ _ HL) as K.
  - by intros [= _ _ <-].
  - intros HW. destruct (wait_frame _ _ _ _ _ _ _ _ HW) as (Wf & _).
    by rewrite Wf.
Qed.

(** X10, witness: the template of the sample world after a start that ran
    into the timeout. *)
Lemma Start_keeps_files_witness :
  exists r p' w',
    peer.Start Sample.rt (mkOracle None None [EvTimeout]) Sample.p0 Sample.w0
    = Some (r, p', w')
    /\ fs w' !! ["etc"; "fabric"; "core.yaml"] = Some (File []).
Proof.
  destruct (returned_true (fun _ => true)
              (peer.Start Sample.rt (mkOracle None None [EvTimeout]) Sample.p0 Sample.w0))
    as ([[r p'] w'] & H & _); [vm_compute; reflexivity |].
  exists r, p', w'. split; [exact H |].
  apply (proj1 (proj2 (proj2 (Start_keeps_files _ _ _ _) _ _ _ H))).
  - reflexivity.
  - unfold peer_outputs, msp_file_paths. simpl. intros Hin.
    repeat (apply elem_of_cons in Hin as [Hin | Hin]; [discriminate Hin |]).
    by apply elem_of_nil in Hin.
Defined.

(** X11: the child that the first part of [Start] starts is the command
    "peer" with the arguments "node" and "start"; in its environment
    FABRIC_CFG_PATH is the config directory of the peer, whatever it was
    for the caller, and every other variable is the caller's; it is
    running and has not been waited for. *)
Theorem launch_child_environment (rt : Runtime) (o : Oracle) (p : peer.Peer)
  (w w1 : World) (pid : nat) :
  peer.launch rt o p w = (Ok pid, w1) ->
  pid = length (procs w)
  /\ exists pr,
       procs w1 = procs w ++ [pr]
       /\ proc_name pr = "peer"
       /\ proc_args pr = ["node"; "start"]
       /\ proc_env pr !! "FABRIC_CFG_PATH"
          = Some (path_to_string (peer.directory p ++ ["config"]))
       /\ (forall k, k <> "FABRIC_CFG_PATH" -> proc_env pr !! k = env w !! k)
       /\ alive pr = true /\ pdone pr = false
       /\ env w1 = env w.
Proof.
  intros HL. unfold Ok in HL.
  destruct (launch_ok _ _ _ _ _ _ HL)
    as (wa & wb & wc & wd & H1 & H2 & H3 & H4 & -> & ->).
  pose proof (mkdir_each_fs_only _ _ _ _ H1) as (E1 & P1 & _).
  pose proof (CreateMSPDirectory_fs_only _ _ _ _ _ H2) as (E2 & P2 & _).
  pose proof (createConfig_fs_only _ _ _ _ _ _ _ H3) as (E3 & P3 & _).
  pose proof (os_OpenFile_trunc_fs_only _ _ _ _ H4) as (E4 & P4 & _).
  simpl. rewrite P4, P3, P2, P1. split; [done |].
  eexists. split; [reflexivity |]. simpl.
  split; [done |]. split; [done |]. split; [by rewrite lookup_insert_eq |].
  split; [|split; [done |split; [done | congruence]]].
  intros k Hk. rewrite lookup_insert_ne by done. congruence.
Qed.

(** The first part of [Start] succeeds on the sample world. *)
Lemma sample_launch (events : list event) :
  peer.launch Sample.rt (mkOracle None None events) Sample.p0 Sample.w0
  = (Ok 0, (peer.launch Sample.rt (mkOracle None None events) Sample.p0 Sample.w0).2).
Proof. apply pair_eta_fst. vm_compute. reflexivity. Qed.

(** X11, witness: the child of the sample peer. *)
Lemma launch_child_environment_witness :
  exists pr,
    procs (peer.launch Sample.rt (mkOracle None None []) Sample.p0 Sample.w0).2 = [pr]
    /\ proc_env pr !! "FABRIC_CFG_PATH" = Some "/srv/peer1/config".
Proof.
  destruct (launch_child_environment _ _ _ _ _ _ (sample_launch []))
    as (_ & pr & Hp & _ & _ & He & _).
  exists pr. split; [exact Hp | exact He].
Defined.

(** ** The wait of Start, again *)

Section WaitOutcomes.

Import peer.

Lemma child_ok_reap pid r errchan w pr :
  procs w !! pid = Some pr ->
  child_ok pid (monitor r errchan) (reap pid w).
Proof.
  intros Hpr. unfold reap. rewrite Hpr. eexists. split.
  - simpl. apply list_lookup_insert_eq. by apply lookup_lt_Some in Hpr.
  - done.
Qed.

Lemma Stop_child_dead p w pid errchan r p' w' :
  command p = Some pid -> child_ok pid errchan w ->
  Stop p w = (r, p', w') ->
  exists pr, procs w' !! pid = Some pr /\ alive pr = false
             /\ ((command p' = None /\ pdone pr = false
                  /\ trace w' = trace w ++ [EKill pid])
                 \/ (p' = p /\ w' = w /\ pdone pr = true)).
Proof.
  intros Hc (pr & Hpr & Hdead & _) HS.
  destruct (pdone pr) eqn:Hd.
  - rewrite (Stop_finished p w pid pr Hc Hpr Hd) in HS. injection HS as _ <- <-.
    exists pr. split; [done |]. split; [by apply Hdead |]. by right.
  - rewrite (Stop_running p w pid pr Hc Hpr Hd) in HS. injection HS as _ <- <-.
    eexists. split.
    + simpl. apply list_lookup_insert_eq. by apply lookup_lt_Some in Hpr.
    + split; [done |]. by left.
Qed.

(** The three ways in which the wait ends. *)
Lemma wait_outcome events : forall pid errchan p w r p' w',
  command p = Some pid -> child_ok pid errchan w ->
  wait events pid errchan p w = Some (r, p', w') ->
  (r = None /\ p' = p /\ child_ok pid None w'
   /\ exists pr, EvTick pr ∈ events /\ hasStarted pr = true)
  \/ (r = Some (ErrNew "timeout whilst waiting for peer to start")
      /\ EvTimeout ∈ events
      /\ exists pr, procs w' !! pid = Some pr /\ alive pr = false
           /\ (command p' = None \/ (p' = p /\ pdone pr = true)))
  \/ (exists cause,
        r = Some (ErrWithMessage cause "failed to start peer")
        /\ EvErrchan ∈ events
        /\ (errchan = Some cause \/ EvExit (Some cause) ∈ events)
        /\ p' = p
        /\ exists pr, procs w' !! pid = Some pr /\ alive pr = false /\ pdone pr = true).
Proof.
  induction events as [|ev events IH]; intros pid errchan p w r p' w' Hc Hok;
    [discriminate |].
  destruct ev as [|x| |pr]; simpl.
  - destruct (Stop p w) as [[r0 p0] w0] eqn:HS. intros [= <- <- <-].
    right. left. split; [done |]. split; [elem_now |].
    destruct (Stop_child_dead _ _ _ _ _ _ _ Hc Hok HS)
      as (pr & Hpr & Hal & [(Hn & _) | (-> & -> & Hd)]);
      exists pr; eauto.
  - assert (Hmono :
      forall errchan' w1,
        child_ok pid errchan' w1 ->
        (errchan' = errchan \/ exists c, x = Some c /\ errchan' = Some c) ->
        wait events pid errchan' p w1 = Some (r, p', w') ->
        (r = None /\ p' = p /\ child_ok pid None w'
         /\ exists pr, EvTick pr ∈ EvExit x :: events /\ hasStarted pr = true)
        \/ (r = Some (ErrNew "timeout whilst waiting for peer to start")
            /\ EvTimeout ∈ EvExit x :: events
            /\ exists pr, procs w' !! pid = Some pr /\ alive pr = false
                 /\ (command p' = None \/ (p' = p /\ pdone pr = true)))
        \/ (exists cause,
              r = Some (ErrWithMessage cause "failed to start peer")
              /\ EvErrchan ∈ EvExit x :: events
              /\ (errchan = Some cause \/ EvExit (Some cause) ∈ EvExit x :: events)
              /\ p' = p
              /\ exists pr, procs w' !! pid = Some pr /\ alive pr = false
                            /\ pdone pr = true)).
    { intros errchan' w1 Hok1 Hec HW.
      destruct (IH _ _ _ _ _ _ _ Hc Hok1 HW)
        as [(-> & -> & Hk & pr & Hin & Hs)
           | [(-> & Hin & Hpr) | (cause & -> & Hin & Hsrc & -> & Hpr)]].
      - left. repeat split; [done |]. exists pr. split; [by right | done].
      - right. left. repeat split; [by right | done].
      - right. right. exists cause. split; [done |]. split; [by right |].
        split; [|done].
        destruct Hsrc as [-> | Hin'].
        + destruct Hec as [-> | (c & -> & [= ->])]; [by left | right; by left].
        + right. by right. }
    pose proof Hok as (pr & Hpr & Hdead & Hch). rewrite Hpr.
    destruct (pdone pr) eqn:Hd.
    + apply Hmono; [exact Hok | by left].
    + apply Hmono; [by eapply child_ok_reap |].
      destruct x as [c|]; simpl.
      * destruct errchan as [c'|]; [by left |]. right. by exists c.
      * by left.
  - destruct errchan as [err|]; [|discriminate].
    destruct (Stop p w) as [[r0 p0] w0] eqn:HS. intros [= <- <- <-].
    right. right. exists err. split; [done |]. split; [elem_now |].
    split; [by left |].
    destruct Hok as (pr & Hpr & Hdead & Hch).
    rewrite (Stop_finished p w pid pr Hc Hpr (Hch ltac:(eauto))) in HS.
    injection HS as _ <- <-. split; [done |]. exists pr.
    split; [done |]. split; [apply Hdead |]; by apply Hch.
  - destruct (hasStarted pr) eqn:Hs.
    + intros [= <- <- <-]. left. split; [done |]. split; [done |]. split.
      * destruct Hok as (pr' & Hpr & Hdead & _). exists pr'.
        split; [done |]. split; [done |]. by intros [? ?].
      * exists pr. split; [elem_now | done].
    + intros HW.
      destruct (IH _ _ _ _ _ _ _ Hc Hok HW)
        as [(-> & -> & Hk & pr' & Hin & Hs')
           | [(-> & Hin & Hpr) | (cause & -> & Hin & Hsrc & -> & Hpr)]].
      * left. repeat split; [done |]. exists pr'. split; [by right | done].
      * right. left. repeat split; [by right | done].
      * right. right. exists cause. split; [done |]. split; [by right |].
        split; [|done]. destruct Hsrc as [-> | Hin']; [by left | right; by right].
Qed.

Lemma launch_child_ok rt o p w pid w1 :
  launch rt o p w = (inr pid, w1) -> child_ok pid None w1.
Proof.
  intros HL. destruct (launch_child _ _ _ _ _ _ HL) as (Hpid & pr & Hp & Ha & Hd & _).
  exists pr. split; [|split].
  - rewrite Hp, Hpid. by rewrite lookup_app_r, Nat.sub_diag by lia.
  - congruence.
  - by intros [? ?].
Qed.

End WaitOutcomes.

Section ProcessFacts.

Import peer.

Lemma Stop_procs p w r p' w' :
  Stop p w = (r, p', w') ->
  length (procs w') = length (procs w)
  /\ forall q, command p <> Some q -> procs w' !! q = procs w !! q.
Proof.
  unfold Stop. destruct (command p) as [pid|] eqn:Hc; [|by intros [= _ _ <-]].
  destruct (Process_Kill pid w) as [[e|] w1] eqn:Hk; intros [= _ _ <-].
  - by destruct (Process_Kill_fails _ _ _ _ Hk) as (_ & -> & _).
  - destruct (Process_Kill_succeeds _ _ _ Hk) as (pr & _ & _ & _ & _ & _ & ->).
    split; [apply length_insert |].
    intros q Hq. apply list_lookup_insert_ne. congruence.
Qed.

Lemma reap_procs pid w :
  length (procs (reap pid w)) = length (procs w)
  /\ forall q, q <> pid -> procs (reap pid w) !! q = procs w !! q.
Proof.
  unfold reap. destruct (procs w !! pid) as [pr|]; [|done]. simpl.
  split; [apply length_insert |]. intros q Hq. by apply list_lookup_insert_ne.
Qed.

(** The wait changes no process but the child. *)
Lemma wait_procs events : forall pid errchan p w r p' w',
  command p = Some pid ->
  wait events pid errchan p w = Some (r, p', w') ->
  length (procs w') = length (procs w)
  /\ forall q, q <> pid -> procs w' !! q = procs w !! q.
Proof.
  induction events as [|ev events IH]; intros pid errchan p w r p' w' Hc;
    [discriminate |].
  destruct ev as [|x| |pr]; simpl.
  - destruct (Stop p w) as [[r0 p0] w0] eqn:HS. intros [= _ _ <-].
    destruct (Stop_procs _ _ _ _ _ HS) as [Hl Ho]. split; [done |].
    intros q Hq. apply Ho. congruence.
  - destruct (procs w !! pid) as [pr|]; [|by apply IH].
    destruct (pdone pr); [by apply IH |]. intros HW.
    destruct (IH _ _ _ _ _ _ _ Hc HW) as [Hl Ho].
    destruct (reap_procs pid w) as [Rl Ro].
    split; [congruence |]. intros q Hq. rewrite Ho by done. by apply Ro.
  - destruct errchan as [err|]; [|discriminate].
    destruct (Stop p w) as [[r0 p0] w0] eqn:HS. intros [= _ _ <-].
    destruct (Stop_procs _ _ _ _ _ HS) as [Hl Ho]. split; [done |].
    intros q Hq. apply Ho. congruence.
  - destruct (hasStarted pr); [by intros [= _ _ <-] | by apply IH].
Qed.

End ProcessFacts.

(** X12: when the first part of [Start] has started the child and, after
    ticks whose probes fail, a tick finds the health endpoint answering
    200, the admin connection open and the channel list readable, [Start]
    returns no error; the peer holds the child as its command, and the
    world is the one the first part left: the child is running, nothing
    has been killed. *)
Theorem Start_succeeds_on_probe (rt : Runtime) (o : Oracle) (p : peer.Peer)
  (w w1 : World) (pid : nat) (probes : list probe) (pr : probe) (rest : list event) :
  peer.launch rt o p w = (Ok pid, w1) ->
  schedule o = (EvTick <$> probes) ++ EvTick pr :: rest ->
  Forall (fun pr => peer.hasStarted pr = false) probes ->
  http_status pr = Some 200%Z -> connect_ok pr = true -> list_channels_ok pr = true ->
  peer.Start rt o p w = Some (None, peer.set_command p (Some pid), w1)
  /\ peer.command (peer.set_command p (Some pid)) = Some pid
  /\ exists child, procs w1 !! pid = Some child
                   /\ alive child = true /\ pdone child = false.
Proof.
  intros HL Hsched Hfail Hh Hc Hl.
  assert (Hs : peer.hasStarted pr = true).
  { unfold peer.hasStarted. by rewrite Hh, Hc, Hl. }
  split; [|split; [done |]].
  - unfold peer.Start. unfold Ok in HL. rewrite HL, Hsched.
    rewrite wait_ticks by done. simpl. by rewrite Hs.
  - destruct (launch_child _ _ _ _ _ _ HL) as (Hpid & child & Hp & Ha & Hd & _).
    exists child. split; [|done].
    rewrite Hp, Hpid. by rewrite lookup_app_r, Nat.sub_diag by lia.
Qed.

(** X12, witness: the sample peer answers on the third tick. *)
Lemma Start_succeeds_on_probe_witness :
  exists w1,
    peer.Start Sample.rt
      (mkOracle None None
         [EvTick Sample.no_answer; EvTick Sample.no_answer; EvTick Sample.ready])
      Sample.p0 Sample.w0
    = Some (None, peer.set_command Sample.p0 (Some 0), w1).
Proof.
  eexists.
  apply (Start_succeeds_on_probe Sample.rt _ Sample.p0 Sample.w0 _ 0
           [Sample.no_answer; Sample.no_answer] Sample.ready [] (sample_launch _) eq_refl).
  - by repeat constructor.
  - reflexivity.
  - reflexivity.
  - reflexivity.
Defined.

(** X13: once the first part of [Start] has started the child, [Start]
    can end in three ways only.  It returns no error, and then the probe
    of some tick succeeded and the peer holds the child as its command.
    Or it returns the timeout error, and then the select took the timeout
    and the child is not running.  Or it returns an error wrapped as
    "failed to start peer", and then the wrapped error is what [cmd.Wait]
    returned for the child, the child has ended and has been waited for,
    and the peer still holds it as its command. *)
Theorem Start_outcomes (rt : Runtime) (o : Oracle) (p : peer.Peer) (w w1 : World)
  (pid : nat) (r : option error) (p' : peer.Peer) (w' : World) :
  peer.launch rt o p w = (Ok pid, w1) ->
  peer.Start rt o p w = Some (r, p', w') ->
  (r = None /\ p' = peer.set_command p (Some pid)
   /\ exists pr, EvTick pr ∈ schedule o /\ peer.hasStarted pr = true)
  \/ (r = Some (ErrNew "timeout whilst waiting for peer to start")
      /\ EvTimeout ∈ schedule o
      /\ exists child, procs w' !! pid = Some child /\ alive child = false
           /\ (peer.command p' = None
               \/ (peer.command p' = Some pid /\ pdone child = true)))
  \/ (exists cause,
        r = Some (ErrWithMessage cause "failed to start peer")
        /\ EvExit (Some cause) ∈ schedule o
        /\ EvErrchan ∈ schedule o
        /\ p' = peer.set_command p (Some pid)
        /\ exists child, procs w' !! pid = Some child
                         /\ alive child = false /\ pdone child = true).
Proof.
  intros HL HS. unfold Ok in HL. unfold peer.Start in HS. rewrite HL in HS.
  destruct (wait_outcome _ pid None (peer.set_command p (Some pid)) _ _ _ _ eq_refl
              (launch_child_ok _ _ _ _ _ _ HL) HS)
    as [(-> & -> & _ & pr & Hin & Hs)
       | [(-> & Hin & child & Hc & Ha & Hh)
         | (cause & -> & Hin & Hsrc & -> & child & Hc & Ha & Hd)]].
  - left. split; [done |]. split; [done |]. by exists pr.
  - right. left. split; [done |]. split; [done |]. exists child.
    split; [done |]. split; [done |].
    destruct Hh as [Hn | [-> Hd]]; [by left | right; by split].
  - right. right. exists cause. destruct Hsrc as [? | Hex]; [discriminate |].
    repeat split; [done | done |]. by exists child.
Qed.

(** X13, witness: the child of the sample peer ends with status 1. *)
Lemma Start_outcomes_witness :
  exists r p' w',
    peer.Start Sample.rt
      (mkOracle None None [EvExit (Some (ErrSys (ExitError 1))); EvErrchan])
      Sample.p0 Sample.w0 = Some (r, p', w')
    /\ (r = None \/ r = Some (ErrNew "timeout whilst waiting for peer to start")
        \/ exists cause, r = Some (ErrWithMessage cause "failed to start peer")).
Proof.
  destruct (returned_true (fun _ => true)
              (peer.Start Sample.rt
                 (mkOracle None None [EvExit (Some (ErrSys (ExitError 1))); EvErrchan])
                 Sample.p0 Sample.w0))
    as ([[r p'] w'] & H & _); [vm_compute; reflexivity |].
  exists r, p', w'. split; [exact H |].
  destruct (Start_outcomes _ _ _ _ _ _ _ _ _ (sample_launch _) H)
    as [(-> & _) | [(-> & _) | (cause & -> & _)]]; eauto.
Defined.

(** X14: a [Start] that returns an error leaves no process behind:
    every process that is running after the call was running, unchanged,
    before it.  The child, if the call started one, has been killed or had
    ended by itself. *)
Theorem Start_error_leaves_no_process (rt : Runtime) (o : Oracle) (p : peer.Peer)
  (w : World) (e : error) (p' : peer.Peer) (w' : World) :
  peer.Start rt o p w = Some (Some e, p', w') ->
  forall q pr, procs w' !! q = Some pr -> alive pr = true -> procs w !! q = Some pr.
Proof.
  unfold peer.Start. destruct (peer.launch rt o p w) as [[e1|pid] w1] eqn:HL.
  - intros [= _ _ <-]. destruct (launch_err _ _ _ _ _ _ HL) as (_ & Hp & _).
    intros q pr. by rewrite Hp.
  - intros HW q pr Hq Hal.
    destruct (launch_child _ _ _ _ _ _ HL) as (Hpid & child & Hp & _).
    destruct (wait_procs _ pid None (peer.set_command p (Some pid)) _ _ _ _ eq_refl HW)
      as [Hlen Hoth].
    destruct (wait_outcome _ pid None (peer.set_command p (Some pid)) _ _ _ _ eq_refl
                (launch_child_ok _ _ _ _ _ _ HL) HW)
      as [(? & _) | [(_ & _ & c & Hc & Ha & _) | (? & _ & _ & _ & _ & c & Hc & Ha & _)]];
      [discriminate | |].
    + destruct (decide (q = pid)) as [-> | Hne]; [congruence |].
      rewrite Hoth, Hp in Hq by done.
      apply lookup_app_Some in Hq as [Hq | [Hge Hq]]; [done |].
      apply lookup_lt_Some in Hq. simpl in Hq. lia.
    + destruct (decide (q = pid)) as [-> | Hne]; [congruence |].
      rewrite Hoth, Hp in Hq by done.
      apply lookup_app_Some in Hq as [Hq | [Hge Hq]]; [done |].
      apply lookup_lt_Some in Hq. simpl in Hq. lia.
Qed.

(** X14, witness: the sample peer runs into the timeout; nothing is left
    running. *)
Lemma Start_error_leaves_no_process_witness :
  exists e p' w',
    peer.Start Sample.rt (mkOracle None None [EvTimeout]) Sample.p0 Sample.w0
    = Some (Some e, p', w')
    /\ forall q pr, procs w' !! q = Some pr -> alive pr = false.
Proof.
  destruct (returned_true (fun x => is_some x.1.1)
              (peer.Start Sample.rt (mkOracle None None [EvTimeout]) Sample.p0 Sample.w0))
    as ([[[e|] p'] w'] & H & Ht); [vm_compute; reflexivity | | discriminate Ht].
  exists e, p', w'. split; [exact H |].
  intros q pr Hq. destruct (alive pr) eqn:Ha; [|done].
  by pose proof (Start_error_leaves_no_process _ _ _ _ _ _ _ H q pr Hq Ha).
Defined.

(** X15: [Start] leaves the processes it finds alone.  Whatever the
    outcome, every process that existed before the call is afterwards
    exactly as it was, and at most one process has been added.  This
    holds as well for a child that the peer held as its command when
    [Start] was called: it is neither stopped nor waited for. *)
Theorem Start_keeps_other_processes (rt : Runtime) (o : Oracle) (p : peer.Peer)
  (w : World) (r : option error) (p' : peer.Peer) (w' : World) :
  peer.Start rt o p w = Some (r, p', w') ->
  (forall q, q < length (procs w) -> procs w' !! q = procs w !! q)
  /\ length (procs w') <= S (length (procs w)).
Proof.
  unfold peer.Start. destruct (peer.launch rt o p w) as [[e1|pid] w1] eqn:HL.
  - intros [= _ _ <-]. destruct (launch_err _ _ _ _ _ _ HL) as (_ & Hp & _).
    rewrite Hp. split; [done | lia].
  - intros HW.
    destruct (launch_child _ _ _ _ _ _ HL) as (Hpid & child & Hp & _).
    destruct (wait_procs _ pid None (peer.set_command p (Some pid)) _ _ _ _ eq_refl HW)
      as [Hlen Hoth].
    split.
    + intros q Hq. rewrite Hoth by lia. rewrite Hp. by apply lookup_app_l.
    + rewrite Hlen, Hp, length_app. simpl. lia.
Qed.

(** X15, witness: a peer that holds a running child is started again; the
    old child keeps running. *)
Lemma Start_keeps_other_processes_witness :
  exists r p' w',
    peer.Start Sample.rt (mkOracle None None [EvTimeout]) Sample.p_stale
      (mkWorld Sample.fs0 (<["FABRIC_CFG_PATH" := "/etc/fabric"]> ∅) [Sample.running] [])
    = Some (r, p', w')
    /\ procs w' !! 0 = Some Sample.running.
Proof.
  destruct (returned_true (fun _ => true)
              (peer.Start Sample.rt (mkOracle None None [EvTimeout]) Sample.p_stale
                 (mkWorld Sample.fs0 (<["FABRIC_CFG_PATH" := "/etc/fabric"]> ∅)
                    [Sample.running] [])))
    as ([[r p'] w'] & H & _); [vm_compute; reflexivity |].
  exists r, p', w'. split; [exact H |].
  apply (proj1 (Start_keeps_other_processes _ _ _ _ _ _ _ H) 0). simpl. lia.
Defined.

(** ** Start and Stop together *)

(** X16: [Stop] after a [Start] that succeeded, the child still running:
    it returns no error, the child is not running any more, the peer holds
    no command, and the files are as [Start] left them. *)
Theorem Start_then_Stop (rt : Runtime) (o : Oracle) (p : peer.Peer)
  (w w1 : World) (pid : nat) (probes : list probe) (pr : probe) (rest : list event) :
  peer.launch rt o p w = (Ok pid, w1) ->
  schedule o = (EvTick <$> probes) ++ EvTick pr :: rest ->
  Forall (fun pr => peer.hasStarted pr = false) probes ->
  peer.hasStarted pr = true ->
  exists p1 w2,
    peer.Start rt o p w = Some (None, p1, w1)
    /\ peer.Stop p1 w1 = (None, peer.set_command p None, w2)
    /\ fs w2 = fs w1
    /\ trace w2 = trace w1 ++ [EKill pid]
    /\ (exists child, procs w2 !! pid = Some child /\ alive child = false)
    /\ peer.Stop (peer.set_command p None) w2 = (None, peer.set_command p None, w2).
Proof.
  intros HL Hsched Hfail Hs. unfold Ok in HL.
  destruct (launch_child _ _ _ _ _ _ HL) as (Hpid & child & Hp & Ha & Hd & _).
  assert (Hlook : procs w1 !! pid = Some child).
  { rewrite Hp, Hpid. by rewrite lookup_app_r, Nat.sub_diag by lia. }
  exists (peer.set_command p (Some pid)). eexists.
  split; [|split; [|split; [|split; [|split]]]].
  - unfold peer.Start. rewrite HL, Hsched. rewrite wait_ticks by done.
    simpl. by rewrite Hs.
  - by rewrite (Stop_running (peer.set_command p (Some pid)) w1 pid child eq_refl Hlook Hd).
  - done.
  - done.
  - exists (mkProc (proc_name child) (proc_args child) (proc_env child) false false).
    split; [|reflexivity]. simpl. apply list_lookup_insert_eq.
    by apply lookup_lt_Some in Hlook.
  - by apply Stop_no_command.
Qed.

(** X16, witness: the sample peer, ready at the first tick, then stopped. *)
Lemma Start_then_Stop_witness :
  exists p1 w1 w2,
    peer.Start Sample.rt (mkOracle None None [EvTick Sample.ready]) Sample.p0 Sample.w0
    = Some (None, p1, w1)
    /\ peer.Stop p1 w1 = (None, Sample.p0, w2).
Proof.
  destruct (Start_then_Stop Sample.rt _ Sample.p0 Sample.w0 _ 0 [] Sample.ready []
              (sample_launch _) eq_refl ltac:(constructor) eq_refl)
    as (p1 & w2 & HS & HT & _).
  do 3 eexists. split; [exact HS | exact HT].
Defined.

(** X17: [Stop] touches nothing but the peer's own child.  The file
    system and the environment are as before, the process table keeps
    its length, and every process other than the one the peer holds as
    its command is unchanged.  When [Stop] returns no error the peer
    holds no command afterwards; when it returns an error, that error is
    "process already finished" wrapped as "failed to stop peer", and peer
    and world are exactly as before. *)
Theorem Stop_frame_conditions (p : peer.Peer) (w : World)
  (r : option error) (p' : peer.Peer) (w' : World) :
  peer.Stop p w = (r, p', w') ->
  fs w' = fs w /\ env w' = env w
  /\ length (procs w') = length (procs w)
  /\ (forall q, peer.command p <> Some q -> procs w' !! q = procs w !! q)
  /\ (r = None -> peer.command p' = None)
  /\ (forall e, r = Some e ->
        e = ErrWithMessage (ErrSys ErrProcessDone) "failed to stop peer"
        /\ p' = p /\ w' = w).
Proof.
  intros H.
  destruct (Stop_frame _ _ _ _ _ H) as (Hf & He & _).
  destruct (Stop_procs _ _ _ _ _ H) as (Hl & Ho).
  split; [done |]. split; [done |]. split; [done |]. split; [done |].
  revert H. unfold peer.Stop.
  destruct (peer.command p) as [pid|] eqn:Hc.
  - destruct (Process_Kill pid w) as [[e|] w1] eqn:Hk; intros [= <- <- <-].
    + destruct (Process_Kill_fails _ _ _ _ Hk) as (-> & -> & _).
      split; [discriminate |]. by intros e [= <-].
    + split; [done | discriminate].
  - intros [= <- <- <-]. split; [done | discriminate].
Qed.

(** X17, witness: stopping a running child. *)
Lemma Stop_frame_conditions_witness :
  fs (peer.Stop Sample.p_stale Sample.w_running).2 = Sample.fs0
  /\ length (procs (peer.Stop Sample.p_stale Sample.w_running).2) = 1.
Proof.
  destruct (Stop_frame_conditions Sample.p_stale Sample.w_running _ _ _
              (surjective_pairing _)) as (Hf & _ & Hl & _).
  split; [exact Hf | exact Hl].
Defined.


(** X18: after a [Start] that started the child and then failed, a [Stop]
    by the caller changes nothing.  If [Start] killed the child, the peer
    holds no command and [Stop] returns no error; if the child had ended
    by itself, the peer still holds it and [Stop] returns "process already
    finished" wrapped as "failed to stop peer". *)
Theorem Stop_after_failed_Start (rt : Runtime) (o : Oracle) (p : peer.Peer)
  (w w1 : World) (pid : nat) (e : error) (p' : peer.Peer) (w' : World) :
  peer.launch rt o p w = (Ok pid, w1) ->
  peer.Start rt o p w = Some (Some e, p', w') ->
  (peer.command p' = None /\ peer.Stop p' w' = (None, p', w'))
  \/ (peer.command p' = Some pid
      /\ peer.Stop p' w'
         = (Some (ErrWithMessage (ErrSys ErrProcessDone) "failed to stop peer"), p', w')).
Proof.
  intros HL HS. unfold Ok in HL. unfold peer.Start in HS. rewrite HL in HS.
  destruct (wait_outcome _ pid None (peer.set_command p (Some pid)) _ _ _ _ eq_refl
              (launch_child_ok _ _ _ _ _ _ HL) HS)
    as [(? & _)
       | [(_ & _ & child & Hc & _ & [Hn | [-> Hd]])
         | (c & _ & _ & _ & -> & child & Hc & _ & Hd)]];
    [discriminate | | |].
  - left. split; [done |]. by apply Stop_no_command.
  - right. split; [done |]. by apply Stop_finished with pid child.
  - right. split; [done |]. by apply Stop_finished with pid child.
Qed.

(** X18, witness: the sample peer after a timeout. *)
Lemma Stop_after_failed_Start_witness :
  exists e p' w',
    peer.Start Sample.rt (mkOracle None None [EvTimeout]) Sample.p0 Sample.w0
    = Some (Some e, p', w')
    /\ (peer.Stop p' w' = (None, p', w')
        \/ peer.Stop p' w'
           = (Some (ErrWithMessage (ErrSys ErrProcessDone) "failed to stop peer"), p', w')).
Proof.
  destruct (returned_true (fun x => is_some x.1.1)
              (peer.Start Sample.rt (mkOracle None None [EvTimeout]) Sample.p0 Sample.w0))
    as ([[[e|] p'] w'] & H & Ht); [vm_compute; reflexivity | | discriminate Ht].
  exists e, p', w'. split; [exact H |].
  destruct (Stop_after_failed_Start _ _ _ _ _ _ _ _ _ (sample_launch _) H)
    as [[_ HS] | [_ HS]]; [by left | by right].
Defined.

(** ** When the child cannot be started *)

(** X19: the stdout pipe and the child are the last things the first
    part of [Start] asks for.  If a start would succeed in starting the
    child, then the same start with a failing [StdoutPipe] or a failing
    [cmd.Start] returns that failure; the peer is unchanged, no process
    is added, and the file system is the one the successful start would
    have left: the MSP directory, core.yaml and the emptied log are on
    disk although nothing runs. *)
Theorem Start_exec_failure (rt : Runtime) (p : peer.Peer) (w w1 : World) (pid : nat)
  (events events' : list event) (pipe exec : option error) (e : error) :
  peer.launch rt (mkOracle None None events) p w = (Ok pid, w1) ->
  pipe = Some e \/ (pipe = None /\ exec = Some e) ->
  exists w',
    peer.Start rt (mkOracle pipe exec events') p w = Some (Some e, p, w')
    /\ fs w' = fs w1 /\ env w' = env w1
    /\ procs w' = procs w
    /\ trace w1 = trace w' ++ [ESpawn pid].
Proof.
  intros HL Hfail. unfold Ok in HL.
  destruct (launch_ok _ _ _ _ _ _ HL)
    as (wa & wb & wc & wd & H1 & H2 & H3 & H4 & Hpid & ->).
  pose proof (mkdir_each_fs_only _ _ _ _ H1) as (_ & P1 & _).
  pose proof (CreateMSPDirectory_fs_only _ _ _ _ _ H2) as (_ & P2 & _).
  pose proof (createConfig_fs_only _ _ _ _ _ _ _ H3) as (_ & P3 & _).
  pose proof (os_OpenFile_trunc_fs_only _ _ _ _ H4) as (_ & P4 & _).
  exists wd. split; [|split; [done |split; [done |split; [congruence | done]]]].
  unfold peer.Start, peer.launch, path_Join. rewrite H1, H2, H3.
  rewrite <- app_assoc. simpl. rewrite H4.
  destruct Hfail as [-> | [-> ->]]; reflexivity.
Qed.

(** X19, witness: the peer binary is missing on the sample world. *)
Lemma Start_exec_failure_witness :
  exists w',
    peer.Start Sample.rt (mkOracle None (Some (ErrSys ErrExec)) []) Sample.p0 Sample.w0
    = Some (Some (ErrSys ErrExec), Sample.p0, w')
    /\ procs w' = [].
Proof.
  destruct (Start_exec_failure Sample.rt Sample.p0 Sample.w0 _ 0 [] []
              None (Some (ErrSys ErrExec)) (ErrSys ErrExec) (sample_launch _))
    as (w' & HS & _ & _ & Hp & _).
  - right. by split.
  - exists w'. split; [exact HS | exact Hp].
Defined.

(** ** A regular file in the way of the MSP directory *)

Section BlockedFacts.

Lemma mkdir_from_error todo : forall above f e f',
  mkdir_from above todo f = (Some e, f') -> e = ErrSys ENOTDIR.
Proof.
  induction todo as [|c todo IH]; intros above f e f'; simpl; [discriminate |].
  destruct (f !! (above ++ [c])) as [[|data]|]; [apply IH | | apply IH].
  by intros [= <- _].
Qed.

Lemma os_MkdirAll_error p w e w' :
  os_MkdirAll p w = (Some e, w') -> e = ErrSys ENOTDIR.
Proof.
  unfold os_MkdirAll. destruct (fs_MkdirAll p (fs w)) as [[e'|] f] eqn:H;
    intros [= <- _]. by eapply mkdir_from_error.
Qed.

(** The loop over the directories fails when a regular file stands at
    one of them or above it. *)
Lemma mkdir_each_blocked dirs : forall w d q data,
  d ∈ dirs -> q <> [] -> q `prefix_of` d -> fs w !! q = Some (File data) ->
  exists w', mkdir_each dirs w = (Some (ErrSys ENOTDIR), w').
Proof.
  induction dirs as [|d0 dirs IH]; intros w d q data Hd Hne Hp Hq.
  - by apply elem_of_nil in Hd.
  - simpl. destruct (os_MkdirAll d0 w) as [[e|] w1] eqn:H1.
    + rewrite (os_MkdirAll_error _ _ _ _ H1). eauto.
    + apply elem_of_cons in Hd as [-> | Hd].
      * exfalso. destruct Hp as [k ->].
        destruct (mkdir_from_blocked (q ++ k) [] (fs w)) as [f' Hf'].
        { by exists q, k, data. }
        unfold os_MkdirAll, fs_MkdirAll in H1. by rewrite Hf' in H1.
      * apply (IH w1 d q data Hd Hne Hp).
        destruct (os_MkdirAll_grows _ _ _ _ H1) as [G _].
        by eapply grows_dirs_keeps.
Qed.

End BlockedFacts.

(** X20: [CreateMSPDirectory] makes all its directories before it writes
    any file.  When a regular file stands where the directory or one of
    admincerts, cacerts, keystore and signcerts should be, or above the
    directory, the call fails with ENOTDIR and has written nothing: no
    regular file has been created or changed. *)
Theorem CreateMSPDirectory_blocked (directory : Path) (identity : Identity) (w : World)
  (d q : Path) (data : bytes) :
  d ∈ util.msp_directories directory ->
  q <> [] -> q `prefix_of` d ->
  fs w !! q = Some (File data) ->
  exists w',
    util.CreateMSPDirectory directory identity w = (Some (ErrSys ENOTDIR), w')
    /\ (forall q' data', fs w' !! q' = Some (File data') <-> fs w !! q' = Some (File data'))
    /\ (forall f b, EWriteFile f b ∈ trace w' -> EWriteFile f b ∈ trace w).
Proof.
  intros Hd Hne Hp Hq.
  destruct (mkdir_each_blocked _ w d q data Hd Hne Hp Hq) as [w' H].
  exists w'. split; [|split].
  - unfold util.CreateMSPDirectory. by rewrite H.
  - destruct (mkdir_each_grows _ _ _ _ H) as [G _].
    intros q' data'. destruct (G q') as [E | (N & D & _)].
    + by rewrite E.
    + rewrite N, D. split; discriminate.
  - assert (T : forall dirs w0 r w1, mkdir_each dirs w0 = (r, w1) ->
                  forall f b, EWriteFile f b ∈ trace w1 -> EWriteFile f b ∈ trace w0).
    { clear. induction dirs as [|d0 dirs IH]; intros w0 r w1; simpl.
      - by intros [= _ <-].
      - unfold os_MkdirAll at 1.
        destruct (fs_MkdirAll d0 (fs w0)) as [[e|] f0]; [by intros [= _ <-] |].
        intros H f b Hin. specialize (IH _ _ _ H f b Hin). simpl in IH.
        apply elem_of_app in IH as [IH | IH]; [done |].
        apply list_elem_of_singleton in IH. discriminate. }
    by apply (T _ _ _ _ H).
Qed.

(** X20, witness: a regular file named keystore. *)
Lemma CreateMSPDirectory_blocked_witness :
  exists w',
    util.CreateMSPDirectory ["m"] Sample.peer_identity
      (mkWorld (<[["m"; "keystore"] := File []]> ∅) ∅ [] [])
    = (Some (ErrSys ENOTDIR), w')
    /\ forall b, fs w' !! ["m"; "config.yaml"] <> Some (File b).
Proof.
  destruct (CreateMSPDirectory_blocked ["m"] Sample.peer_identity
              (mkWorld (<[["m"; "keystore"] := File []]> ∅) ∅ [] [])
              ["m"; "keystore"] ["m"; "keystore"] [])
    as (w' & H & Hf & _).
  - unfold util.msp_directories, path_Join. simpl. elem_now.
  - discriminate.
  - done.
  - reflexivity.
  - exists w'. split; [exact H |].
    intros b E. apply Hf in E. vm_compute in E. discriminate E.
Defined.

(** ** A start that goes through, and a start after a start *)

Section LaunchSucceeds.

Import peer.

Lemma os_OpenFile_trunc_succeeds p w :
  p <> [] -> is_dir (fs w) (removelast p) = true -> fs w !! p <> Some Dir ->
  os_OpenFile_trunc p w
  = (None, mkWorld (<[p := File []]> (fs w)) (env w) (procs w) (trace w ++ [EOpenFile p])).
Proof.
  intros. unfold os_OpenFile_trunc. by rewrite fs_WriteFile_succeeds.
Qed.

Lemma is_dir_agree (f f' : FS) p : f !! p = f' !! p -> is_dir f p = is_dir f' p.
Proof. intros E. destruct p as [|c p]; [done |]. simpl. by rewrite E. Qed.

Lemma fs_ReadFile_agree (f f' : FS) p : f !! p = f' !! p -> fs_ReadFile p f = fs_ReadFile p f'.
Proof. intros E. unfold fs_ReadFile. by rewrite (is_dir_agree _ _ _ E), E. Qed.

(** Where the directory exists already, or not, but nothing stands below
    it, and no regular file is in the way, the call goes through. *)
Lemma CreateMSPDirectory_succeeds_below directory identity w :
  (forall rel, rel <> [] -> fs w !! (directory ++ rel) = None) ->
  (forall q data, q `prefix_of` directory -> fs w !! q <> Some (File data)) ->
  exists w', util.CreateMSPDirectory directory identity w = (None, w').
Proof.
  intros Hfresh Habove.
  destruct (mkdir_each_ok (util.msp_directories directory) w) as [w1 H1].
  { intros d q data Hd Hq. unfold util.msp_directories, path_Join in Hd.
    apply elem_of_cons in Hd as [-> | Hd]; [by apply Habove |].
    assert (Hsub : d ∈ msp_subdirectories directory) by exact Hd.
    clear Hd. unfold msp_subdirectories in Hsub.
    repeat (apply elem_of_cons in Hsub as [-> | Hsub]);
      [| | | | by apply elem_of_nil in Hsub];
      (apply prefix_snoc in Hq as [Hq | ->];
       [by apply Habove | by rewrite Hfresh]). }
  destruct (mkdir_each_grows _ _ _ _ H1) as [G D]. specialize (D eq_refl).
  assert (Fsub : forall d, d ∈ msp_subdirectories directory -> fs w1 !! d = Some Dir).
  { intros d Hd. by apply D, msp_subdirectories_on_the_way. }
  assert (Fdir : is_dir (fs w1) directory = true).
  { apply is_dir_intro. intros Hne. apply D. split; [done |].
    exists directory. split; [by left | done]. }
  assert (Fnone : forall rel, rel <> [] ->
            directory ++ rel ∉ msp_subdirectories directory ->
            fs w1 !! (directory ++ rel) = None).
  { intros rel Hne Hns. destruct (G (directory ++ rel)) as [E | (_ & _ & O)].
    - rewrite E. by apply Hfresh.
    - apply on_the_way_msp in O as [O | O]; [|done].
      by apply app_prefix_self in O. }
  assert (NS : forall a b, directory ++ [a; b] ∉ msp_subdirectories directory).
  { intros a b Hin. unfold msp_subdirectories in Hin.
    repeat (apply elem_of_cons in Hin as [Hin | Hin]; [revert Hin; path_ne |]).
    by apply elem_of_nil in Hin. }
  assert (NS1 : directory ++ ["config.yaml"] ∉ msp_subdirectories directory).
  { intros Hin. unfold msp_subdirectories in Hin.
    repeat (apply elem_of_cons in Hin as [Hin | Hin]; [revert Hin; path_ne |]).
    by apply elem_of_nil in Hin. }
  unfold util.CreateMSPDirectory, path_Join. rewrite H1.
  rewrite ioutil_WriteFile_succeeds; cycle 1.
  { apply app_ne_nil. }
  { by rewrite removelast_one. }
  { by rewrite Fnone. }
  rewrite ioutil_WriteFile_succeeds; cycle 1.
  { apply app_ne_nil. }
  { rewrite removelast_two. apply is_dir_intro. intros _. simpl.
    rewrite lookup_insert_ne by path_ne. apply Fsub.
    unfold msp_subdirectories. elem_now. }
  { simpl. rewrite lookup_insert_ne by path_ne. by rewrite Fnone. }
  rewrite ioutil_WriteFile_succeeds; cycle 1.
  { apply app_ne_nil. }
  { rewrite removelast_two. apply is_dir_intro. intros _. simpl.
    rewrite !lookup_insert_ne by path_ne. apply Fsub.
    unfold msp_subdirectories. elem_now. }
  { simpl. rewrite !lookup_insert_ne by path_ne. by rewrite Fnone. }
  destruct (id_ca identity) as [ca|]; [|eauto].
  rewrite ioutil_WriteFile_succeeds; cycle 1.
  { apply app_ne_nil. }
  { rewrite removelast_two. apply is_dir_intro. intros _. simpl.
    rewrite !lookup_insert_ne by path_ne. apply Fsub.
    unfold msp_subdirectories. elem_now. }
  { simpl. rewrite !lookup_insert_ne by path_ne. by rewrite Fnone. }
  eauto.
Qed.

(** The stages of the first part, assembled. *)
Lemma launch_stages rt events p w wa wb wc wd :
  createDirectories p w = (None, wa) ->
  util.CreateMSPDirectory (directory p ++ ["msp"]) (identity p) wa = (None, wb) ->
  createConfig rt p (directory p ++ ["data"]) (directory p ++ ["msp"]) wb = (None, wc) ->
  os_OpenFile_trunc (directory p ++ ["logs"; "peer.log"]) wc = (None, wd) ->
  launch rt (mkOracle None None events) p w
  = (Ok (length (procs wd)),
     mkWorld (fs wd) (env wd)
       (procs wd ++ [mkProc "peer" ["node"; "start"]
          (<["FABRIC_CFG_PATH" := path_to_string (directory p ++ ["config"])]> (env wc))
          true false])
       (trace wd ++ [ESpawn (length (procs wd))])).
Proof.
  intros Ha Hb Hc Hd. unfold launch. cbv zeta. unfold path_Join.
  rewrite Ha. cbv beta iota. rewrite Hb. cbv beta iota. rewrite Hc. cbv beta iota.
  rewrite <- app_assoc. change (["logs"] ++ ["peer.log"]) with ["logs"; "peer.log"].
  rewrite Hd. reflexivity.
Qed.

End LaunchSucceeds.

(** X21: on a clean place [Start] goes through.  Nothing stands below the
    peer's directory, no regular file is at or above it, FABRIC_CFG_PATH
    names a directory whose core.yaml decodes to a document with the six
    sections, the home directory is known, the encoder does not fail and
    the child can be started: then the first part of [Start] succeeds and
    the child is the next entry of the process table; and when the probe of
    the first tick succeeds, [Start] returns no error with the child as
    the peer's command. *)
Theorem Start_succeeds_on_clean_directory (rt : Runtime) (p : peer.Peer) (w : World)
  (v : string) (data : bytes) (config : ymap) :
  (forall rel, rel <> [] -> fs w !! (peer.directory p ++ rel) = None) ->
  (forall q d, q `prefix_of` peer.directory p -> fs w !! q <> Some (File d)) ->
  env w !! "FABRIC_CFG_PATH" = Some v ->
  fs w !! (path_of_string v ++ ["core.yaml"]) = Some (File data) ->
  yaml_Unmarshal rt data = Ok config ->
  (forall s, has_section config s = true) ->
  is_ok (GetHomeDirectory rt) = true ->
  (forall c, is_ok (yaml_Marshal rt c) = true) ->
  exists w1,
    (forall events,
       peer.launch rt (mkOracle None None events) p w = (Ok (length (procs w)), w1))
    /\ (forall pr events, peer.hasStarted pr = true ->
          peer.Start rt (mkOracle None None (EvTick pr :: events)) p w
          = Some (None, peer.set_command p (Some (length (procs w))), w1)).
Proof.
  intros Hfresh Habove Henv Htpl Hdec Hall Hhome Henc.
  set (core := peer.directory p ++ ["config"; "core.yaml"]).
  set (log := peer.directory p ++ ["logs"; "peer.log"]).
  (* the directories *)
  destruct (mkdir_each_ok (peer.peer_directories p) w) as [wa Ha].
  { intros d q dd Hd Hq. unfold peer.peer_directories, path_Join in Hd.
    repeat (apply elem_of_cons in Hd as [-> | Hd]);
      [by apply Habove | | | | | by apply elem_of_nil in Hd];
      (apply prefix_snoc in Hq as [Hq | ->];
       [by apply Habove | by rewrite Hfresh]). }
  destruct (mkdir_each_grows _ _ _ _ Ha) as [Ga Da]. specialize (Da eq_refl).
  pose proof (mkdir_each_fs_only _ _ _ _ Ha) as (Ea & Pa & _).
  assert (Faa : forall rel, rel <> [] ->
            peer.directory p ++ rel
            ∉ [ peer.directory p ++ ["config"]; peer.directory p ++ ["data"];
                peer.directory p ++ ["logs"]; peer.directory p ++ ["msp"] ] ->
            fs wa !! (peer.directory p ++ rel) = None).
  { intros rel Hne Hns. destruct (Ga (peer.directory p ++ rel)) as [E | (_ & _ & O)].
    - rewrite E. by apply Hfresh.
    - apply on_the_way_peer in O as [O | O]; [|done].
      by apply app_prefix_self in O. }
  (* the MSP directory *)
  destruct (CreateMSPDirectory_succeeds_below (peer.directory p ++ ["msp"])
              (peer.identity p) wa) as [wb Hb].
  { intros rel Hne. rewrite <- app_assoc. apply Faa; [done |].
    intros Hin.
    repeat (apply elem_of_cons in Hin as [Hin | Hin]; [revert Hin; path_ne |]).
    by apply elem_of_nil in Hin. }
  { intros q dd Hq Hf. apply (grows_dirs_file _ _ _ _ _ Ga) in Hf.
    apply prefix_snoc in Hq as [Hq | ->]; [by apply (Habove q dd) |].
    by rewrite Hfresh in Hf. }
  pose proof (CreateMSPDirectory_fs_only _ _ _ _ _ Hb) as (Eb & Pb & _).
  destruct (CreateMSPDirectory_keeps _ _ _ _ _ Hb) as (KbD & KbF & _).
  destruct (CreateMSPDirectory_result _ _ _ _ Hb) as (_ & _ & Rq).
  assert (Db : forall c, c ∈ ["config"; "data"; "logs"; "msp"] ->
                         fs wb !! (peer.directory p ++ [c]) = Some Dir).
  { intros c Hc. apply KbD, Da. split; [apply app_ne_nil |].
    exists (peer.directory p ++ [c]). split; [|done].
    unfold peer.peer_directories, path_Join.
    repeat (apply elem_of_cons in Hc as [-> | Hc]); [elem_now .. |].
    by apply elem_of_nil in Hc. }
  assert (Fb : forall a b, a <> "msp" -> fs wb !! (peer.directory p ++ [a; b]) = None).
  { intros a b Hab. destruct (Rq (peer.directory p ++ [a; b])) as [E | [O | [O | O]]].
    - rewrite E. apply Faa; [done |]. intros Hin.
      repeat (apply elem_of_cons in Hin as [Hin | Hin]; [revert Hin; path_ne |]).
      by apply elem_of_nil in Hin.
    - destruct O as [k Hk]. revert Hk. path_ne.
    - unfold msp_subdirectories in O.
      repeat (apply elem_of_cons in O as [O | O]; [revert O; path_ne |]).
      by apply elem_of_nil in O.
    - unfold msp_files in O. destruct (id_ca (peer.identity p)); simpl in O;
        repeat (apply elem_of_cons in O as [O | O]; [revert O; path_ne |]);
        by apply elem_of_nil in O. }
  (* the configuration *)
  assert (Htb : fs wb !! (path_of_string v ++ ["core.yaml"]) = Some (File data)).
  { apply KbF; [by eapply grows_dirs_keeps |].
    intros Hin. unfold msp_file_paths in Hin.
    repeat (apply elem_of_cons in Hin as [Hin | Hin];
            [rewrite Hin, <- app_assoc, Hfresh in Htpl; done |]).
    by apply elem_of_nil in Hin. }
  assert (Hl : peer.loadTemplate rt wb = Ok config).
  { unfold peer.loadTemplate, path_Join, fs_ReadFile. rewrite Eb, Ea, Henv, Htb.
    exact Hdec. }
  destruct (is_ok_true _ Hhome) as [home Hh].
  destruct (patchConfig_builders rt p (peer.directory p ++ ["data"])
              (peer.directory p ++ ["msp"]) config home Hall Hh) as (config' & Hp & _).
  destruct (is_ok_true _ (Henc config')) as [out Hout].
  destruct (peer.createConfig rt p (peer.directory p ++ ["data"])
              (peer.directory p ++ ["msp"]) wb) as [rc wc] eqn:Hc.
  assert (Hc' : rc = None /\ fs wc = <[core := File out]> (fs wb) /\ procs wc = procs wb).
  { revert Hc. unfold peer.createConfig, path_Join. unfold Ok in Hl, Hp, Hout.
    rewrite Hl. cbv beta iota. rewrite Hp. cbv beta iota. rewrite Hout. cbv beta iota zeta.
    rewrite ioutil_WriteFile_succeeds.
    - by intros [= <- <-].
    - apply app_ne_nil.
    - rewrite removelast_two. apply is_dir_intro. intros _. apply Db. elem_now.
    - by rewrite Fb. }
  destruct Hc' as (-> & Fc & Pc).
  (* the log file *)
  destruct (os_OpenFile_trunc log wc) as [rd wd] eqn:Hd.
  assert (Hd' : rd = None /\ procs wd = procs wc).
  { revert Hd. rewrite os_OpenFile_trunc_succeeds.
    - by intros [= <- <-].
    - apply app_ne_nil.
    - unfold log. rewrite removelast_two. apply is_dir_intro. intros _.
      rewrite Fc, lookup_insert_ne by (unfold core; path_ne). apply Db. elem_now.
    - rewrite Fc, lookup_insert_ne by (unfold core, log; path_ne).
      unfold log. by rewrite Fb. }
  destruct Hd' as (-> & Pd).
  (* the child *)
  pose proof (fun events => launch_stages rt events p w wa wb wc wd Ha Hb Hc Hd) as HL.
  rewrite Pd, Pc, Pb, Pa in HL.
  eexists. split; [exact HL |].
  intros pr events Hs. unfold peer.Start. unfold Ok in HL. rewrite HL.
  simpl. by rewrite Hs.
Qed.

(** X21, witness: the sample peer on the sample world. *)
Lemma Start_succeeds_on_clean_directory_witness :
  exists w1,
    peer.launch Sample.rt (mkOracle None None []) Sample.p0 Sample.w0 = (Ok 0, w1).
Proof.
  destruct (Start_succeeds_on_clean_directory Sample.rt Sample.p0 Sample.w0
              "/etc/fabric" [] Sample.template) as (w1 & HL & _).
  - intros rel _. change (Sample.fs0 !! ("srv" :: "peer1" :: rel) = None).
    unfold Sample.fs0. rewrite !lookup_insert_ne by done. apply lookup_empty.
  - intros q d [k Hk] E. change (Sample.fs0 !! q = Some (File d)) in E.
    change (["srv"; "peer1"] = q ++ k) in Hk. unfold Sample.fs0 in E.
    destruct q as [|a q']; [|injection Hk as <- _];
      rewrite !lookup_insert_ne in E by done; by rewrite lookup_empty in E.
  - reflexivity.
  - vm_compute. reflexivity.
  - reflexivity.
  - intros []; vm_compute; reflexivity.
  - reflexivity.
  - reflexivity.
  - exists w1. exact (HL []).
Defined.

(** X22: [Start] can be repeated.  After a first part that succeeded, let
    the environment be the same, let the files be as the first start left
    them except that the log file has taken some content, and let the
    template not be one of the files the start writes; the processes may
    have changed in any way.  Then a second first part succeeds, its child
    is the next entry of the process table, and it leaves the file system
    exactly as the first one left it: the same directories, the same MSP
    files and core.yaml, and the log file empty again. *)
Theorem launch_again (rt : Runtime) (o : Oracle) (p : peer.Peer) (w w1 wr : World)
  (pid : nat) (events : list event) :
  peer.launch rt o p w = (Ok pid, w1) ->
  (forall v, env w !! "FABRIC_CFG_PATH" = Some v ->
             path_of_string v ++ ["core.yaml"] ∉ peer_outputs p) ->
  env wr = env w ->
  (forall q, q <> peer.directory p ++ ["logs"; "peer.log"] -> fs wr !! q = fs w1 !! q) ->
  (exists written, fs wr !! (peer.directory p ++ ["logs"; "peer.log"]) = Some (File written)) ->
  exists w2,
    peer.launch rt (mkOracle None None events) p wr = (Ok (length (procs wr)), w2)
    /\ fs w2 = fs w1 /\ env w2 = env wr
    /\ fs w2 !! (peer.directory p ++ ["logs"; "peer.log"]) = Some (File []).
Proof.
  intros HL Htpl Henv R [written Rlog].
  set (core := peer.directory p ++ ["config"; "core.yaml"]) in *.
  set (log := peer.directory p ++ ["logs"; "peer.log"]) in *.
  assert (Hmsp : forall q, q ∈ msp_file_paths (peer.directory p ++ ["msp"]) ->
                           q ∈ peer_outputs p).
  { intros q Hq. unfold peer_outputs. apply elem_of_app. by left. }
  assert (Hcore : core ∈ peer_outputs p).
  { unfold peer_outputs. apply elem_of_app. right. elem_now. }
  assert (Hlog : log ∈ peer_outputs p).
  { unfold peer_outputs. apply elem_of_app. right. elem_now. }
  assert (Hcl : core <> log) by (unfold core, log; path_ne).
  destruct (launch_ok _ _ _ _ _ _ HL)
    as (wa & wb & wc & wd & Ha & Hb & Hc & Hd & _ & Ew1).
  assert (F1 : fs w1 = fs wd) by by rewrite Ew1.
  clear Ew1.
  destruct (createConfig_ok _ _ _ _ _ _ Hc) as (config & config' & data & Hl & Hp & Hm & Ewc).
  assert (Fc : fs wc = <[core := File data]> (fs wb)) by by rewrite Ewc.
  pose proof (os_OpenFile_trunc_ok _ _ _ Hd) as Ewd.
  assert (Fd : fs wd = <[log := File []]> (fs wc)) by by rewrite Ewd.
  pose proof (mkdir_each_fs_only _ _ _ _ Ha) as (Ea & _).
  pose proof (CreateMSPDirectory_fs_only _ _ _ _ _ Hb) as (Eb & _).
  destruct (mkdir_each_grows _ _ _ _ Ha) as [_ Da]. specialize (Da eq_refl).
  destruct (CreateMSPDirectory_keeps _ _ _ _ _ Hb) as (KbD & _).
  destruct (CreateMSPDirectory_result _ _ _ _ Hb) as (_ & Rf & _).
  pose proof (CreateMSPDirectory_on_the_way _ _ _ _ Hb) as Dm.
  (* what the first start left *)
  assert (L1 : fs w1 !! log = Some (File [])).
  { by rewrite F1, Fd, lookup_insert_eq. }
  assert (C1 : fs w1 !! core = Some (File data)).
  { by rewrite F1, Fd, lookup_insert_ne, Fc, lookup_insert_eq by done. }
  assert (Dirs : forall q, fs wb !! q = Some Dir -> fs w1 !! q = Some Dir).
  { intros q Hq. rewrite F1.
    destruct (os_OpenFile_trunc_keeps [log] log wc None wd) as (Kd & _);
      [elem_now | done |].
    destruct (createConfig_keeps [core] _ _ _ _ _ _ _ ltac:(elem_now) Hc) as (Kc & _).
    by apply Kd, Kc. }
  assert (NL : forall q, fs w1 !! q = Some Dir -> q <> log).
  { intros q Hq ->. by rewrite L1 in Hq. }
  assert (A : forall q, on_the_way (peer.peer_directories p) q -> fs wr !! q = Some Dir).
  { intros q O. assert (Hq : fs w1 !! q = Some Dir) by by apply Dirs, KbD, Da.
    by rewrite R; [| apply NL]. }
  assert (B : forall q, on_the_way (util.msp_directories (peer.directory p ++ ["msp"])) q ->
                        fs wr !! q = Some Dir).
  { intros q O. assert (Hq : fs w1 !! q = Some Dir) by by apply Dirs, Dm.
    by rewrite R; [| apply NL]. }
  assert (C : forall f b, (f, b) ∈ msp_files (peer.directory p ++ ["msp"]) (peer.identity p) ->
                          fs wr !! f = Some (File b)).
  { intros f b Hin.
    assert (Hne : f <> core /\ f <> log).
    { unfold msp_files in Hin. destruct (id_ca (peer.identity p)); simpl in Hin;
        repeat (apply elem_of_cons in Hin as [[= -> ->] | Hin];
                [split; unfold core, log; path_ne |]);
        by apply elem_of_nil in Hin. }
    destruct Hne as [Hn1 Hn2].
    rewrite R, F1, Fd, Fc, !lookup_insert_ne by done. by apply Rf. }
  (* the second start *)
  destruct (mkdir_each_present _ wr A) as (w2a & H2a & F2a & E2a & P2a).
  destruct (CreateMSPDirectory_present (peer.directory p ++ ["msp"]) (peer.identity p) w2a)
    as (w2b & H2b & F2b & E2b & P2b).
  { intros q O. rewrite F2a. by apply B. }
  { intros f b Hin. rewrite F2a. by apply C. }
  assert (Hl2 : peer.loadTemplate rt w2b = inr config).
  { unfold Ok in Hl. rewrite <- Hl. unfold peer.loadTemplate.
    rewrite E2b, E2a, Henv, Eb, Ea.
    destruct (env w !! "FABRIC_CFG_PATH") as [v|] eqn:Hv; [|done].
    unfold path_Join. specialize (Htpl v eq_refl).
    assert (Hn1 : path_of_string v ++ ["core.yaml"] <> core) by by intros E; rewrite E in Htpl.
    assert (Hn2 : path_of_string v ++ ["core.yaml"] <> log) by by intros E; rewrite E in Htpl.
    rewrite (fs_ReadFile_agree (fs w2b) (fs wb)); [done |].
    by rewrite F2b, F2a, R, F1, Fd, Fc, !lookup_insert_ne. }
  destruct (ioutil_WriteFile_same core data w2b) as (w2c & H2c & F2c & E2c & P2c).
  { apply app_ne_nil. }
  { unfold core. rewrite removelast_two, F2b, F2a. apply is_dir_intro. intros _.
    apply A. split; [apply app_ne_nil |]. eexists. split; [|done].
    unfold peer.peer_directories, path_Join. elem_now. }
  { by rewrite F2b, F2a, R, C1. }
  assert (H2c' : peer.createConfig rt p (peer.directory p ++ ["data"])
                   (peer.directory p ++ ["msp"]) w2b = (None, w2c)).
  { unfold peer.createConfig, path_Join. unfold Ok in Hp, Hm.
    rewrite Hl2. cbv beta iota. rewrite Hp. cbv beta iota. rewrite Hm. cbv beta iota zeta.
    exact H2c. }
  assert (H2d : os_OpenFile_trunc log w2c
                = (None, mkWorld (<[log := File []]> (fs w2c)) (env w2c) (procs w2c)
                           (trace w2c ++ [EOpenFile log]))).
  { apply os_OpenFile_trunc_succeeds.
    - apply app_ne_nil.
    - unfold log. rewrite removelast_two, F2c, F2b, F2a. apply is_dir_intro. intros _.
      apply A. split; [apply app_ne_nil |]. eexists. split; [|done].
      unfold peer.peer_directories, path_Join. elem_now.
    - by rewrite F2c, F2b, F2a, Rlog. }
  pose proof (launch_stages rt events p wr _ _ _ _ H2a H2b H2c' H2d) as HL2.
  simpl in HL2. rewrite P2c, P2b, P2a in HL2.
  assert (Ffin : <[log := File []]> (fs w2c) = fs w1).
  { apply map_eq. intros q. destruct (decide (log = q)) as [<- | Hq].
    - by rewrite lookup_insert_eq.
    - rewrite lookup_insert_ne, F2c, F2b, F2a by done. by apply R. }
  eexists. split; [exact HL2 |]. simpl.
  repeat split; [done | congruence | by rewrite Ffin].
Qed.

(** X22, witness: the sample peer is started, its child writes a line to
    the log and is forgotten, and the peer is started again. *)
Lemma launch_again_witness :
  exists w2,
    peer.launch Sample.rt (mkOracle None None []) Sample.p0
      (mkWorld (<[["srv"; "peer1"; "logs"; "peer.log"] := File [Byte.x41]]>
                  (fs (peer.launch Sample.rt (mkOracle None None []) Sample.p0 Sample.w0).2))
               (env Sample.w0) [] [])
    = (Ok 0, w2)
    /\ fs w2 !! ["srv"; "peer1"; "logs"; "peer.log"] = Some (File []).
Proof.
  destruct (launch_again Sample.rt (mkOracle None None []) Sample.p0 Sample.w0
              (peer.launch Sample.rt (mkOracle None None []) Sample.p0 Sample.w0).2
              (mkWorld (<[["srv"; "peer1"; "logs"; "peer.log"] := File [Byte.x41]]>
                  (fs (peer.launch Sample.rt (mkOracle None None []) Sample.p0 Sample.w0).2))
               (env Sample.w0) [] [])
              0 [] (sample_launch [])) as (w2 & H & _ & _ & Hlog).
  - intros v Hv. change (Some "/etc/fabric" = Some v) in Hv. injection Hv as <-.
    vm_compute. intros Hin.
    repeat (apply elem_of_cons in Hin as [Hin | Hin]; [discriminate Hin |]).
    by apply elem_of_nil in Hin.
  - reflexivity.
  - intros q Hq. simpl. by rewrite lookup_insert_ne.
  - exists [Byte.x41]. simpl. by rewrite lookup_insert_eq.
  - exists w2. split; [exact H | exact Hlog].
Defined.
